(** * go-subsonic: the authenticated request/response pipeline of client.go

    A shallow embedding of [generateSalt], [Client.Authenticate],
    [Client.Request], [Client.Get] and [Client.Ping], together with
    executable models of the Go standard-library functions they call
    (crypto/md5, fmt, math/rand, path, net/url, net/http,
    encoding/json).  Go strings are byte sequences; they are embedded as
    [string], whose characters are the bytes. *)

From Stdlib Require Import ZArith String Ascii List Lia DecimalString DecimalZ.
From stdpp Require Import gmap strings list sorting.
Import ListNotations.

Local Open Scope string_scope.
Local Open Scope Z_scope.

(** ** Bytes and strings *)

Definition byte_of (c : ascii) : Z := Z.of_N (N_of_ascii c).
Definition ascii_of (z : Z) : ascii := ascii_of_N (Z.to_N (z mod 256)).

Definition bytes_of (s : string) : list Z := map byte_of (list_ascii_of_string s).

(** ** crypto/md5 (RFC 1321) over 32-bit words carried in [Z] *)

Module md5.

Definition w32 (x : Z) : Z := x mod 2 ^ 32.
Definition add32 (x y : Z) : Z := w32 (x + y).
Definition not32 (x : Z) : Z := Z.lxor x 0xffffffff.
Definition rotl32 (x n : Z) : Z :=
  Z.lor (w32 (Z.shiftl x n)) (Z.shiftr x (32 - n)).

Definition shifts : list Z :=
  [7; 12; 17; 22; 7; 12; 17; 22; 7; 12; 17; 22; 7; 12; 17; 22;
   5; 9; 14; 20; 5; 9; 14; 20; 5; 9; 14; 20; 5; 9; 14; 20;
   4; 11; 16; 23; 4; 11; 16; 23; 4; 11; 16; 23; 4; 11; 16; 23;
   6; 10; 15; 21; 6; 10; 15; 21; 6; 10; 15; 21; 6; 10; 15; 21].

Definition table : list Z :=
  [0xd76aa478; 0xe8c7b756; 0x242070db; 0xc1bdceee;
   0xf57c0faf; 0x4787c62a; 0xa8304613; 0xfd469501;
   0x698098d8; 0x8b44f7af; 0xffff5bb1; 0x895cd7be;
   0x6b901122; 0xfd987193; 0xa679438e; 0x49b40821;
   0xf61e2562; 0xc040b340; 0x265e5a51; 0xe9b6c7aa;
   0xd62f105d; 0x02441453; 0xd8a1e681; 0xe7d3fbc8;
   0x21e1cde6; 0xc33707d6; 0xf4d50d87; 0x455a14ed;
   0xa9e3e905; 0xfcefa3f8; 0x676f02d9; 0x8d2a4c8a;
   0xfffa3942; 0x8771f681; 0x6d9d6122; 0xfde5380c;
   0xa4beea44; 0x4bdecfa9; 0xf6bb4b60; 0xbebfbc70;
   0x289b7ec6; 0xeaa127fa; 0xd4ef3085; 0x04881d05;
   0xd9d4d039; 0xe6db99e5; 0x1fa27cf8; 0xc4ac5665;
   0xf4292244; 0x432aff97; 0xab9423a7; 0xfc93a039;
   0x655b59c3; 0x8f0ccc92; 0xffeff47d; 0x85845dd1;
   0x6fa87e4f; 0xfe2ce6e0; 0xa3014314; 0x4e0811a1;
   0xf7537e82; 0xbd3af235; 0x2ad7d2bb; 0xeb86d391].

(** The four chaining words. *)
Record state := State { sa : Z; sb : Z; sc : Z; sd : Z }.

Definition init : state :=
  State 0x67452301 0xefcdab89 0x98badcfe 0x10325476.

(** Little-endian packing of bytes into words and back. *)
Fixpoint words_of (fuel : nat) (bs : list Z) : list Z :=
  match fuel, bs with
  | S fuel', b0 :: b1 :: b2 :: b3 :: rest =>
      (b0 + 256 * b1 + 65536 * b2 + 16777216 * b3) :: words_of fuel' rest
  | _, _ => []
  end.

Definition le_bytes (n : nat) (x : Z) : list Z :=
  map (fun i => (Z.shiftr x (8 * Z.of_nat i)) mod 256) (seq 0 n).

(** One of the 64 steps of the block function. *)
Definition step (m : list Z) (st : state) (i : nat) : state :=
  let '(State a b c d) := st in
  let iz := Z.of_nat i in
  let '(f, g) :=
    if iz <? 16 then (Z.lor (Z.land b c) (Z.land (not32 b) d), iz)
    else if iz <? 32 then
      (Z.lor (Z.land d b) (Z.land (not32 d) c), (5 * iz + 1) mod 16)
    else if iz <? 48 then (Z.lxor (Z.lxor b c) d, (3 * iz + 5) mod 16)
    else (Z.lxor c (Z.lor b (not32 d)), (7 * iz) mod 16) in
  let f' := add32 (add32 (add32 f a) (nth i table 0)) (nth (Z.to_nat g) m 0) in
  State d (add32 b (rotl32 f' (nth i shifts 0))) b c.

Definition block (st : state) (chunk : list Z) : state :=
  let m := words_of 16 chunk in
  let st' := fold_left (step m) (seq 0 64) st in
  State (add32 (sa st) (sa st')) (add32 (sb st) (sb st'))
        (add32 (sc st) (sc st')) (add32 (sd st) (sd st')).

Fixpoint blocks (fuel : nat) (st : state) (bs : list Z) : state :=
  match fuel with
  | O => st
  | S fuel' =>
      match bs with
      | [] => st
      | _ => blocks fuel' (block st (firstn 64 bs)) (skipn 64 bs)
      end
  end.

(** Padding: 0x80, zeros up to 56 mod 64, then the bit length on 64 bits. *)
Definition pad (bs : list Z) : list Z :=
  let len := Z.of_nat (length bs) in
  let zeros := Z.to_nat ((55 - len) mod 64) in
  bs ++ [0x80] ++ repeat 0 zeros ++ le_bytes 8 ((8 * len) mod 2 ^ 64).

Definition sum (bs : list Z) : list Z :=
  let p := pad bs in
  let st := blocks (length p) init p in
  le_bytes 4 (sa st) ++ le_bytes 4 (sb st)
    ++ le_bytes 4 (sc st) ++ le_bytes 4 (sd st).

(** The [hash.Hash] returned by [md5.New]: [Write] appends to the
    message and never fails; [Sum(nil)] is the digest of what was
    written so far. *)
Record digest := Digest { written : list Z }.
Definition New : digest := Digest [].
Definition Write (h : digest) (p : list Z) : digest := Digest (written h ++ p).
Definition Sum (h : digest) : list Z := sum (written h).

End md5.

(** ** fmt: the verbs used by client.go *)

Module fmt.

Definition hexdigit (n : Z) : ascii :=
  if n <? 10 then ascii_of (48 + n) else ascii_of (87 + n).

(** [Sprintf("%x", b)] on a byte slice: two lowercase hex digits a byte. *)
Fixpoint hex (bs : list Z) : string :=
  match bs with
  | [] => ""
  | b :: rest => String (hexdigit (b / 16)) (String (hexdigit (b mod 16)) (hex rest))
  end.

End fmt.

Definition md5_hex (s : string) : string := fmt.hex (md5.sum (bytes_of s)).


(** ** math/rand: the process-wide source

    The source is a stream of raw draws and a cursor into it; [Intn n]
    reduces the next draw into [0, n) and advances the cursor. *)

Module rand.

Record source := Source { draws : nat -> nat; cursor : nat }.

Definition Intn (n : nat) (r : source) : nat * source :=
  ((draws r (cursor r) mod n)%nat, Source (draws r) (S (cursor r))).

End rand.

(** ** path: [Clean] and [Join] *)

Module path.

Local Open Scope char_scope.

Definition is_slash (c : ascii) : bool := Ascii.eqb c "/".
Definition is_dot (c : ascii) : bool := Ascii.eqb c ".".

(** True when the element that starts here has ended: end of input or
    a slash ([r+k == n || path[r+k] == '/']). *)
Definition at_end (r : list ascii) : bool :=
  match r with
  | [] => true
  | c :: _ => is_slash c
  end.

(** Backtracking over the output buffer on a [..] element: the buffer
    is kept reversed, so its head is the last byte written.  Bytes are
    dropped until a slash has been dropped or [dotdot] is reached. *)
Fixpoint backtrack (out : list ascii) (dotdot : nat) : list ascii :=
  match out with
  | [] => []
  | c :: out' =>
      if is_slash c then out'
      else if (length out' <=? dotdot)%nat then out'
      else backtrack out' dotdot
  end.

(** The main loop of [Clean].  [inelem] is set while a real path
    element is being copied (the inner [for] of the default case). *)
Fixpoint loop (rooted : bool) (r : list ascii) (inelem : bool)
         (out : list ascii) (dotdot : nat) : list ascii :=
  match r with
  | [] => out
  | c :: r' =>
      if inelem then
        if is_slash c then loop rooted r' false out dotdot
        else loop rooted r' true (c :: out) dotdot
      else if is_slash c then loop rooted r' false out dotdot
      else if is_dot c && at_end r' then loop rooted r' false out dotdot
      else
        match r' with
        | c' :: r'' =>
            if is_dot c && is_dot c' && at_end r'' then
              if (dotdot <? length out)%nat then
                loop rooted r'' false (backtrack out dotdot) dotdot
              else if negb rooted then
                let out1 := if (0 <? length out)%nat then "/" :: out else out in
                let out2 := "." :: "." :: out1 in
                loop rooted r'' false out2 (length out2)
              else loop rooted r'' false out dotdot
            else
              let w := length out in
              let sep := (rooted && negb (w =? 1)%nat) || (negb rooted && negb (w =? 0)%nat) in
              loop rooted r' true (c :: (if sep then "/" :: out else out)) dotdot
        | [] =>
            let w := length out in
            let sep := (rooted && negb (w =? 1)%nat) || (negb rooted && negb (w =? 0)%nat) in
            loop rooted r' true (c :: (if sep then "/" :: out else out)) dotdot
        end
  end.

Definition Clean (p : string) : string :=
  match list_ascii_of_string p with
  | [] => "."%string
  | (c :: _) as r =>
      let rooted := is_slash c in
      let out := if rooted then loop true r false ["/"] 1
                 else loop false r false [] 0 in
      match out with
      | [] => "."%string
      | _ => string_of_list_ascii (rev out)
      end
  end.

(** [strings.Join(elem, "/")]. *)
Fixpoint join_slash (elem : list string) : string :=
  match elem with
  | [] => ""
  | [e] => e
  | e :: rest => e +:+ "/" +:+ join_slash rest
  end.

(** Leading empty elements are ignored; the rest is joined with
    slashes and cleaned; an all-empty list gives the empty string. *)
Fixpoint Join (elem : list string) : string :=
  match elem with
  | [] => ""
  | e :: rest => if String.eqb e "" then Join rest else Clean (join_slash elem)
  end.

End path.


(** ** Go error values, by dynamic type *)

Inductive error : Type :=
  | errorString (s : string)            (* errors.New, fmt.Errorf *)
  | url_Error (op : string) (msg : string)   (* *url.Error *)
  | json_SyntaxError                     (* *json.SyntaxError *)
  | json_UnmarshalTypeError (what : string)  (* *json.UnmarshalTypeError *)
  | io_Error (msg : string).             (* a failed Read on a body *)

(** The [Error()] method.  The text of a [*url.Error] leaves out the
    quoted URL that Go puts between the operation and the cause. *)
Definition errText (e : error) : string :=
  match e with
  | errorString s => s
  | url_Error op msg => op +:+ ": " +:+ msg
  | json_SyntaxError => "invalid character in JSON input"
  | json_UnmarshalTypeError what => "json: cannot unmarshal " +:+ what
  | io_Error msg => msg
  end.

Abbreviation result A := (A + error)%type.
Abbreviation ok := inl (only parsing).
Abbreviation fail := inr (only parsing).

(** ** strings: the helpers of package strings used by net/url *)

Module strings.

(** [Cut(s, sep)] for a one-byte separator. *)
Fixpoint Cut (s : string) (sep : ascii) : string * string * bool :=
  match s with
  | EmptyString => ("", "", false)
  | String c s' =>
      if Ascii.eqb c sep then ("", s', true)
      else let '(b, a, f) := Cut s' sep in (String c b, a, f)
  end.

Fixpoint ContainsByte (s : string) (c : ascii) : bool :=
  match s with
  | EmptyString => false
  | String c' s' => Ascii.eqb c' c || ContainsByte s' c
  end.

Fixpoint Count (s : string) (c : ascii) : nat :=
  match s with
  | EmptyString => O
  | String c' s' => ((if Ascii.eqb c' c then 1 else 0) + Count s' c)%nat
  end.

Fixpoint isPrefix (p s : string) : bool :=
  match p, s with
  | EmptyString, _ => true
  | String a p', String b s' => Ascii.eqb a b && isPrefix p' s'
  | String _ _, EmptyString => false
  end.

Definition HasPrefix (s p : string) : bool := isPrefix p s.

Fixpoint HasSuffixByte (s : string) (c : ascii) : bool :=
  match s with
  | EmptyString => false
  | String c' EmptyString => Ascii.eqb c' c
  | String _ s' => HasSuffixByte s' c
  end.

Fixpoint dropLast (s : string) : string :=
  match s with
  | EmptyString => ""
  | String _ EmptyString => ""
  | String c s' => String c (dropLast s')
  end.

Definition lower (c : ascii) : ascii :=
  let b := byte_of c in
  if (65 <=? b) && (b <=? 90) then ascii_of (b + 32) else c.

Fixpoint ToLower (s : string) : string :=
  match s with
  | EmptyString => ""
  | String c s' => String (lower c) (ToLower s')
  end.

Fixpoint Join (elems : list string) (sep : string) : string :=
  match elems with
  | [] => ""
  | [e] => e
  | e :: rest => e +:+ sep +:+ Join rest sep
  end.

End strings.

(** Character classes shared by the parsers. *)
Definition is_alpha (c : ascii) : bool :=
  let b := byte_of c in
  ((97 <=? b) && (b <=? 122)) || ((65 <=? b) && (b <=? 90)).
Definition is_digit (c : ascii) : bool :=
  let b := byte_of c in (48 <=? b) && (b <=? 57).
Definition is_alnum (c : ascii) : bool := is_alpha c || is_digit c.
Definition is_any_of (set : string) (c : ascii) : bool := strings.ContainsByte set c.

(** ** net/url *)

Module url.

Inductive encoding := encodePath | encodeQueryComponent | encodeFragment.

Definition ishex (c : ascii) : bool :=
  let b := byte_of c in
  is_digit c || ((97 <=? b) && (b <=? 102)) || ((65 <=? b) && (b <=? 70)).

Definition unhex (c : ascii) : Z :=
  let b := byte_of c in
  if is_digit c then b - 48
  else if (97 <=? b) && (b <=? 102) then b - 97 + 10
  else if (65 <=? b) && (b <=? 70) then b - 65 + 10
  else 0.

Definition upperhex (n : Z) : ascii :=
  if n <? 10 then ascii_of (48 + n) else ascii_of (55 + n).

Definition shouldEscape (c : ascii) (mode : encoding) : bool :=
  if is_alnum c then false
  else if is_any_of "-_.~" c then false
  else if is_any_of "$&+,/:;=?@" c then
    match mode with
    | encodePath => Ascii.eqb c "?"%char
    | encodeQueryComponent => true
    | encodeFragment => false
    end
  else
    match mode with
    | encodeFragment => negb (is_any_of "!()*" c)
    | _ => true
    end.

Fixpoint escape (s : string) (mode : encoding) : string :=
  match s with
  | EmptyString => ""
  | String c s' =>
      if shouldEscape c mode then
        match mode, Ascii.eqb c " "%char with
        | encodeQueryComponent, true => String "+"%char (escape s' mode)
        | _, _ =>
            String "%"%char (String (upperhex (byte_of c / 16))
              (String (upperhex (byte_of c mod 16)) (escape s' mode)))
        end
      else String c (escape s' mode)
  end.

(** [unescape]: [%XX] becomes a byte and, in a query component, [+] a
    space; a malformed escape is an [EscapeError]. *)
Fixpoint unescape (s : string) (mode : encoding) : option string :=
  match s with
  | EmptyString => Some ""%string
  | String c s' =>
      if Ascii.eqb c "%"%char then
        match s' with
        | String h1 (String h2 s'') =>
            if ishex h1 && ishex h2 then
              option_map (String (ascii_of (16 * unhex h1 + unhex h2)))
                         (unescape s'' mode)
            else None
        | _ => None
        end
      else if Ascii.eqb c "+"%char then
        match mode with
        | encodeQueryComponent => option_map (String " "%char) (unescape s' mode)
        | _ => option_map (String c) (unescape s' mode)
        end
      else option_map (String c) (unescape s' mode)
  end.

Definition QueryEscape (s : string) : string := escape s encodeQueryComponent.
Definition QueryUnescape (s : string) : option string := unescape s encodeQueryComponent.

(** A parsed URL.  The [RawPath] and [RawFragment] encoding hints and
    the [User] field are not modelled. *)
Record URL := mkURL {
  Scheme : string; Opaque : string; Host : string; Path : string;
  ForceQuery : bool; RawQuery : string; Fragment : string; OmitHost : bool }.

Definition empty : URL := mkURL "" "" "" "" false "" "" false.

Definition is_ctl (c : ascii) : bool :=
  let b := byte_of c in (b <? 32) || (b =? 127).

Fixpoint stringContainsCTLByte (s : string) : bool :=
  match s with
  | EmptyString => false
  | String c s' => is_ctl c || stringContainsCTLByte s'
  end.

(** The three outcomes of [getScheme]. *)
Inductive scheme_result :=
  | NoScheme
  | MissingScheme
  | HasScheme (scheme rest : string).

Fixpoint getScheme_from (s : string) (first : bool) : scheme_result :=
  match s with
  | EmptyString => NoScheme
  | String c s' =>
      if is_alpha c then
        match getScheme_from s' false with
        | HasScheme sch rest => HasScheme (String c sch) rest
        | r => r
        end
      else if is_digit c || is_any_of "+-." c then
        if first then NoScheme
        else match getScheme_from s' false with
             | HasScheme sch rest => HasScheme (String c sch) rest
             | r => r
             end
      else if Ascii.eqb c ":"%char then
        if first then MissingScheme else HasScheme "" s'
      else NoScheme
  end.

Definition getScheme (rawURL : string) : option (string * string) :=
  match getScheme_from rawURL true with
  | NoScheme => Some ("", rawURL)
  | MissingScheme => None
  | HasScheme sch rest => Some (sch, rest)
  end.

Fixpoint all_digits (s : string) : bool :=
  match s with
  | EmptyString => true
  | String c s' => is_digit c && all_digits s'
  end.

(** The text from the last colon on, if there is a colon. *)
Fixpoint lastColon (s : string) : option string :=
  match s with
  | EmptyString => None
  | String c s' =>
      match lastColon s' with
      | Some p => Some p
      | None => if Ascii.eqb c ":"%char then Some s' else None
      end
  end.

Definition host_byte_ok (c : ascii) : bool :=
  is_alnum c || is_any_of "-_.~!$&'()*+,;=:<>" c.

Fixpoint all_host_bytes (s : string) : bool :=
  match s with
  | EmptyString => true
  | String c s' => host_byte_ok c && all_host_bytes s'
  end.

(** [parseAuthority] for a registered name with an optional port.
    User information, bracketed IP literals, percent-escapes and
    non-ASCII bytes in the host are outside this model: it rejects
    them as it rejects the bytes Go rejects in a host. *)
Definition parseAuthority (authority : string) : result string :=
  match lastColon authority with
  | Some port =>
      if negb (all_digits port) then fail (errorString "invalid port after host")
      else if all_host_bytes authority then ok authority
      else fail (errorString "invalid character in host name")
  | None =>
      if all_host_bytes authority then ok authority
      else fail (errorString "invalid character in host name")
  end.

Definition parse (rawURL : string) : result URL :=
  if stringContainsCTLByte rawURL then
    fail (errorString "net/url: invalid control character in URL")
  else if String.eqb rawURL "*" then
    ok (mkURL "" "" "" "*" false "" "" false)
  else
    match getScheme rawURL with
    | None => fail (errorString "missing protocol scheme")
    | Some (scheme, rest) =>
        let scheme := strings.ToLower scheme in
        let '(rest, rawquery, force) :=
          if strings.HasSuffixByte rest "?"%char && (strings.Count rest "?"%char =? 1)%nat
          then (strings.dropLast rest, "", true)
          else let '(b, a, _) := strings.Cut rest "?"%char in (b, a, false) in
        if negb (strings.HasPrefix rest "/") && negb (String.eqb scheme "") then
          ok (mkURL scheme rest "" "" force rawquery "" false)
        else if negb (strings.HasPrefix rest "/")
                && strings.ContainsByte (fst (fst (strings.Cut rest "/"%char))) ":"%char then
          fail (errorString "first path segment in URL cannot contain colon")
        else
          let with_path (host : string) (omit : bool) (rest : string) : result URL :=
            match unescape rest encodePath with
            | None => fail (errorString "invalid URL escape")
            | Some p => ok (mkURL scheme "" host p force rawquery "" omit)
            end in
          if (negb (String.eqb scheme "") || negb (strings.HasPrefix rest "///"))
             && strings.HasPrefix rest "//" then
            let '(authority, after, found) :=
              strings.Cut (String.substring 2 (String.length rest - 2) rest) "/"%char in
            match parseAuthority authority with
            | inr e => fail e
            | inl host => with_path host false (if found then String "/"%char after else "")
            end
          else
            with_path "" (negb (String.eqb scheme "") && strings.HasPrefix rest "/") rest
    end.

Definition setFragment (u : URL) (f : string) : option URL :=
  match unescape f encodeFragment with
  | None => None
  | Some frag =>
      Some (mkURL (Scheme u) (Opaque u) (Host u) (Path u)
                  (ForceQuery u) (RawQuery u) frag (OmitHost u))
  end.

Definition Parse (rawURL : string) : result URL :=
  let '(u, frag, _) := strings.Cut rawURL "#"%char in
  match parse u with
  | inr e => fail (url_Error "parse" (errText e))
  | inl url =>
      if String.eqb frag "" then ok url
      else match setFragment url frag with
           | None => fail (url_Error "parse" "invalid URL escape")
           | Some url' => ok url'
           end
  end.

Definition EscapedPath (u : URL) : string :=
  if String.eqb (Path u) "*" then "*" else escape (Path u) encodePath.

Definition String (u : URL) : string :=
  let buf := if String.eqb (Scheme u) "" then "" else Scheme u +:+ ":" in
  let buf :=
    if negb (String.eqb (Opaque u) "") then buf +:+ Opaque u
    else
      let buf :=
        if negb (String.eqb (Scheme u) "") || negb (String.eqb (Host u) "") then
          if OmitHost u && String.eqb (Host u) "" then buf
          else
            (if negb (String.eqb (Host u) "") || negb (String.eqb (Path u) "")
             then buf +:+ "//" else buf) +:+ Host u
        else buf in
      let path := EscapedPath u in
      let buf :=
        match path with
        | String.String c _ =>
            if negb (Ascii.eqb c "/"%char) && negb (String.eqb (Host u) "")
            then buf +:+ "/" else buf
        | EmptyString => buf
        end in
      let buf :=
        if String.eqb buf ""
           && strings.ContainsByte (fst (fst (strings.Cut path "/"%char))) ":"%char
        then buf +:+ "./" else buf in
      buf +:+ path in
  let buf :=
    if ForceQuery u || negb (String.eqb (RawQuery u) "")
    then buf +:+ "?" +:+ RawQuery u else buf in
  if String.eqb (Fragment u) "" then buf
  else buf +:+ "#" +:+ escape (Fragment u) encodeFragment.

(** [url.Values]: a map from a key to the list of its values. *)
Abbreviation Values := (gmap string (list string)).

Definition Add (key value : string) (v : Values) : Values :=
  <[key := (default [] (v !! key) ++ [value])%list]> v.

(** [Values.Get]: the first value of the key, or the empty string. *)
Definition Get (v : Values) (key : string) : string :=
  match v !! key with
  | Some (x :: _) => x
  | _ => ""
  end.

Fixpoint split (s : string) (sep : ascii) : list string :=
  match s with
  | EmptyString => [""]
  | String.String c s' =>
      if Ascii.eqb c sep then "" :: split s' sep
      else match split s' sep with
           | [] => [String.String c ""]
           | p :: ps => String.String c p :: ps
           end
  end.

(** One [key=value] piece of a query; a piece that is empty, holds a
    semicolon or a malformed escape is skipped by [parseQuery]. *)
Definition parsePair (piece : string) : option (string * string) :=
  if strings.ContainsByte piece ";"%char then None
  else if String.eqb piece "" then None
  else
    let '(key, value, _) := strings.Cut piece "="%char in
    match QueryUnescape key, QueryUnescape value with
    | Some k, Some v => Some (k, v)
    | _, _ => None
    end.

Definition addPiece (m : Values) (piece : string) : Values :=
  match parsePair piece with
  | Some (k, v) => Add k v m
  | None => m
  end.

(** [URL.Query]: [ParseQuery] with its error dropped. *)
Definition parseQuery (query : string) : Values :=
  fold_left addPiece (split query "&"%char) ∅.

Definition Query (u : URL) : Values := parseQuery (RawQuery u).

Definition pieces (v : Values) : list string :=
  flat_map (fun k => map (fun x => QueryEscape k +:+ "=" +:+ QueryEscape x)
                         (default [] (v !! k)))
           (merge_sort String.le (map_to_list v).*1).

(** [Values.Encode]: keys sorted, each value of a key in order. *)
Definition Encode (v : Values) : string := strings.Join (pieces v) "&".

Definition withQuery (u : URL) (q : string) : URL :=
  mkURL (Scheme u) (Opaque u) (Host u) (Path u) (ForceQuery u) q
        (Fragment u) (OmitHost u).

Definition withPath (u : URL) (p : string) : URL :=
  mkURL (Scheme u) (Opaque u) (Host u) p (ForceQuery u) (RawQuery u)
        (Fragment u) (OmitHost u).

End url.

(** ** encoding/json *)

Module json.

(** A JSON text as a tree; a number keeps its literal. *)
#[warnings="-register-all"]
Inductive value :=
  | Null
  | Bool (b : bool)
  | Number (lit : string)
  | Str (s : string)
  | Array (elems : list value)
  | Object (members : list (string * value)).

Definition dquote : ascii := ascii_of 34.
Definition in_range (lo hi : Z) (c : ascii) : bool :=
  (lo <=? byte_of c) && (byte_of c <=? hi).

Definition is_space (c : ascii) : bool :=
  let b := byte_of c in (b =? 32) || (b =? 9) || (b =? 13) || (b =? 10).

Fixpoint skip_space (s : string) : string :=
  match s with
  | String c s' => if is_space c then skip_space s' else s
  | EmptyString => s
  end.

(** [utf8.EncodeRune]. *)
Definition encodeRune (r : Z) : string :=
  let b (z : Z) (k : string) := String (ascii_of z) k in
  if r <? 0x80 then b r ""
  else if r <? 0x800 then b (0xC0 + r / 64) (b (0x80 + r mod 64) "")
  else if r <? 0x10000 then
    b (0xE0 + r / 4096) (b (0x80 + (r / 64) mod 64) (b (0x80 + r mod 64) ""))
  else
    b (0xF0 + r / 262144) (b (0x80 + (r / 4096) mod 64)
      (b (0x80 + (r / 64) mod 64) (b (0x80 + r mod 64) ""))).

Definition replacement : string := encodeRune 0xFFFD.

Definition getu4 (h1 h2 h3 h4 : ascii) : option Z :=
  if url.ishex h1 && url.ishex h2 && url.ishex h3 && url.ishex h4 then
    Some (4096 * url.unhex h1 + 256 * url.unhex h2 + 16 * url.unhex h3 + url.unhex h4)
  else None.

Definition isSurrogate (r : Z) : bool := (0xD800 <=? r) && (r <? 0xE000).

(** A quoted string, from just after its opening quote: the decoded
    bytes and the input left after the closing quote.  Raw bytes that
    are not well-formed UTF-8 are coerced to U+FFFD one at a time. *)
Fixpoint unquote (s : string) : option (string * string) :=
  let keep (pre : string) (r : option (string * string)) :=
    match r with
    | Some (t, rest) => Some (pre +:+ t, rest)
    | None => None
    end in
  match s with
  | EmptyString => None
  | String c r =>
      if Ascii.eqb c dquote then Some ("", r)
      else if Ascii.eqb c "\"%char then
        match r with
        | String e r1 =>
            if Ascii.eqb e dquote || is_any_of "\/" e then keep (String e "") (unquote r1)
            else if Ascii.eqb e "b"%char then keep (String (ascii_of 8) "") (unquote r1)
            else if Ascii.eqb e "f"%char then keep (String (ascii_of 12) "") (unquote r1)
            else if Ascii.eqb e "n"%char then keep (String (ascii_of 10) "") (unquote r1)
            else if Ascii.eqb e "r"%char then keep (String (ascii_of 13) "") (unquote r1)
            else if Ascii.eqb e "t"%char then keep (String (ascii_of 9) "") (unquote r1)
            else if Ascii.eqb e "u"%char then
              match r1 with
              | String h1 (String h2 (String h3 (String h4 r2))) =>
                  match getu4 h1 h2 h3 h4 with
                  | None => None
                  | Some rr =>
                      if isSurrogate rr then
                        match r2 with
                        | String b1 (String b2 (String l1 (String l2 (String l3 (String l4 r3))))) =>
                            match (if Ascii.eqb b1 "\"%char && Ascii.eqb b2 "u"%char
                                   then getu4 l1 l2 l3 l4 else None) with
                            | Some rr1 =>
                                if (rr <? 0xDC00) && (0xDC00 <=? rr1) && (rr1 <? 0xE000) then
                                  keep (encodeRune (0x10000 + (rr - 0xD800) * 1024 + (rr1 - 0xDC00)))
                                       (unquote r3)
                                else keep replacement (unquote r2)
                            | None => keep replacement (unquote r2)
                            end
                        | _ => keep replacement (unquote r2)
                        end
                      else keep (encodeRune rr) (unquote r2)
                  end
              | _ => None
              end
            else None
        | EmptyString => None
        end
      else if byte_of c <? 32 then None
      else if byte_of c <? 128 then keep (String c "") (unquote r)
      else
        match r with
        | String c1 r1 =>
            if in_range 0xC2 0xDF c && in_range 0x80 0xBF c1 then
              keep (String c (String c1 "")) (unquote r1)
            else
              match r1 with
              | String c2 r2 =>
                  let lo3 := if byte_of c =? 0xE0 then 0xA0 else 0x80 in
                  let hi3 := if byte_of c =? 0xED then 0x9F else 0xBF in
                  if in_range 0xE0 0xEF c && in_range lo3 hi3 c1 && in_range 0x80 0xBF c2 then
                    keep (String c (String c1 (String c2 ""))) (unquote r2)
                  else
                    match r2 with
                    | String c3 r3 =>
                        let lo4 := if byte_of c =? 0xF0 then 0x90 else 0x80 in
                        let hi4 := if byte_of c =? 0xF4 then 0x8F else 0xBF in
                        if in_range 0xF0 0xF4 c && in_range lo4 hi4 c1
                           && in_range 0x80 0xBF c2 && in_range 0x80 0xBF c3 then
                          keep (String c (String c1 (String c2 (String c3 "")))) (unquote r3)
                        else keep replacement (unquote r)
                    | EmptyString => keep replacement (unquote r)
                    end
              | EmptyString => keep replacement (unquote r)
              end
        | EmptyString => keep replacement (unquote r)
        end
  end.

(** Number literals: an optional minus sign, an integer part without
    a leading zero, an optional fraction and an optional exponent. *)
Fixpoint digits (s : string) : string * string :=
  match s with
  | String c s' =>
      if is_digit c then let '(d, r) := digits s' in (String c d, r) else ("", s)
  | EmptyString => ("", s)
  end.

Definition number (s : string) : option (string * string) :=
  let '(sign, s1) :=
    match s with
    | String c s' => if Ascii.eqb c "-"%char then ("-", s') else ("", s)
    | _ => ("", s)
    end in
  match digits s1 with
  | ("", _) => None
  | (int, s2) =>
      if strings.HasPrefix int "0" && negb (String.eqb int "0") then
        (* a leading zero ends the integer part *)
        Some (sign +:+ "0", String.substring 1 (String.length int - 1) int +:+ s2)
      else
        let '(frac, s3) :=
          match s2 with
          | String c s' =>
              if Ascii.eqb c "."%char then
                match digits s' with
                | ("", _) => (None, s2)
                | (d, r) => (Some ("." +:+ d), r)
                end
              else (Some "", s2)
          | _ => (Some "", s2)
          end in
        match frac with
        | None => None
        | Some frac =>
            match s3 with
            | String c s' =>
                if is_any_of "eE" c then
                  let '(esign, s4) :=
                    match s' with
                    | String c' s'' =>
                        if is_any_of "+-" c' then (String c' "", s'') else ("", s')
                    | _ => ("", s')
                    end in
                  match digits s4 with
                  | ("", _) => None
                  | (d, r) => Some (sign +:+ int +:+ frac +:+ String c esign +:+ d, r)
                  end
                else Some (sign +:+ int +:+ frac, s3)
            | _ => Some (sign +:+ int +:+ frac, s3)
            end
        end
  end.

Definition literal (word : string) (v : value) (s : string) : option (value * string) :=
  if strings.HasPrefix s word
  then Some (v, String.substring (String.length word) (String.length s - String.length word) s)
  else None.

(** Recursive descent over the grammar of RFC 8259.  The fuel bounds
    the depth of the calls; a call consumes a byte of the input at
    least every second level. *)
Fixpoint parse_value (fuel : nat) (s : string) : option (value * string) :=
  match fuel with
  | O => None
  | S fuel' =>
      match skip_space s with
      | String c r =>
          if Ascii.eqb c "{"%char then
            match skip_space r with
            | String c' r' =>
                if Ascii.eqb c' "}"%char then Some (Object [], r')
                else option_map (fun '(ms, rest) => (Object ms, rest))
                                (parse_members fuel' (String c' r'))
            | EmptyString => None
            end
          else if Ascii.eqb c "["%char then
            match skip_space r with
            | String c' r' =>
                if Ascii.eqb c' "]"%char then Some (Array [], r')
                else option_map (fun '(vs, rest) => (Array vs, rest))
                                (parse_elements fuel' (String c' r'))
            | EmptyString => None
            end
          else if Ascii.eqb c dquote then
            option_map (fun '(t, rest) => (Str t, rest)) (unquote r)
          else if Ascii.eqb c "t"%char then literal "true" (Bool true) (String c r)
          else if Ascii.eqb c "f"%char then literal "false" (Bool false) (String c r)
          else if Ascii.eqb c "n"%char then literal "null" Null (String c r)
          else option_map (fun '(lit, rest) => (Number lit, rest)) (number (String c r))
      | EmptyString => None
      end
  end
with parse_members (fuel : nat) (s : string) : option (list (string * value) * string) :=
  match fuel with
  | O => None
  | S fuel' =>
      match skip_space s with
      | String c r =>
          if Ascii.eqb c dquote then
            match unquote r with
            | Some (key, r1) =>
                match skip_space r1 with
                | String c1 r2 =>
                    if Ascii.eqb c1 ":"%char then
                      match parse_value fuel' r2 with
                      | Some (v, r3) =>
                          match skip_space r3 with
                          | String c3 r4 =>
                              if Ascii.eqb c3 ","%char then
                                option_map (fun '(ms, rest) => ((key, v) :: ms, rest))
                                           (parse_members fuel' r4)
                              else if Ascii.eqb c3 "}"%char then Some ([(key, v)], r4)
                              else None
                          | EmptyString => None
                          end
                      | None => None
                      end
                    else None
                | EmptyString => None
                end
            | None => None
            end
          else None
      | EmptyString => None
      end
  end
with parse_elements (fuel : nat) (s : string) : option (list value * string) :=
  match fuel with
  | O => None
  | S fuel' =>
      match parse_value fuel' s with
      | Some (v, r1) =>
          match skip_space r1 with
          | String c r2 =>
              if Ascii.eqb c ","%char then
                option_map (fun '(vs, rest) => (v :: vs, rest)) (parse_elements fuel' r2)
              else if Ascii.eqb c "]"%char then Some ([v], r2)
              else None
          | EmptyString => None
          end
      | None => None
      end
  end.

(** [checkValid] and the scan of [Unmarshal]: one value, then only
    white space. *)
Definition parse (data : string) : option value :=
  match parse_value (2 * String.length data + 2) data with
  | Some (v, rest) =>
      match skip_space rest with
      | EmptyString => Some v
      | _ => None
      end
  | None => None
  end.

End json.

(** ** The response envelope

    Modelled from the spec: the declarations of [apiResponse],
    [subsonicResponse] and its error record are not in client.go.  The
    code fixes their shape where it uses them ([parsed.Response] is a
    [*subsonicResponse], [resp.Error] a pointer to a record with an
    integer [Code] and a string [Message]); the wire names
    [subsonic-response], [status], [version], [error], [code] and
    [message] are the spec's.  The endpoint-specific fields are kept as
    the raw members of the nested object. *)

Record ErrorRecord := mkErrorRecord { Code : Z; Message : string }.

Record subsonicResponse := mkSubsonicResponse {
  Status : string;
  Version : string;
  Error : option ErrorRecord;
  Payload : list (string * json.value) }.

Record apiResponse := mkApiResponse { Response : option subsonicResponse }.

Module unmarshal.

(** Field lookup by name: an exact match or a match up to ASCII case. *)
Definition names (key field : string) : bool :=
  String.eqb (strings.ToLower key) (strings.ToLower field).

Fixpoint decimal (s : string) (acc : Z) : option Z :=
  match s with
  | EmptyString => Some acc
  | String c s' =>
      if is_digit c then decimal s' (10 * acc + (byte_of c - 48)) else None
  end.

(** [strconv.ParseInt(lit, 10, 64)] on a JSON number literal. *)
Definition parseInt (lit : string) : option Z :=
  let '(neg, body) :=
    match lit with
    | String c s' => if Ascii.eqb c "-"%char then (true, s') else (false, lit)
    | EmptyString => (false, lit)
    end in
  match body with
  | EmptyString => None
  | _ =>
      match decimal body 0 with
      | Some n =>
          let z := if neg then - n else n in
          if (- 2 ^ 63 <=? z) && (z <? 2 ^ 63) then Some z else None
      | None => None
      end
  end.

Definition kind (v : json.value) : string :=
  match v with
  | json.Null => "null"
  | json.Bool _ => "bool"
  | json.Number lit => "number " +:+ lit
  | json.Str _ => "string"
  | json.Array _ => "array"
  | json.Object _ => "object"
  end.

Definition mismatch {A} (v : json.value) (target : string) : result A :=
  fail (json_UnmarshalTypeError (kind v +:+ " into Go value of type " +:+ target)).

(** A JSON [null] leaves a string or an integer field as it is. *)
Definition intoString (v : json.value) (cur : string) : result string :=
  match v with
  | json.Str s => ok s
  | json.Null => ok cur
  | _ => mismatch v "string"
  end.

Definition intoInt (v : json.value) (cur : Z) : result Z :=
  match v with
  | json.Number lit =>
      match parseInt lit with
      | Some z => ok z
      | None => mismatch v "int"
      end
  | json.Null => ok cur
  | _ => mismatch v "int"
  end.

Definition errorMember (acc : result ErrorRecord) (m : string * json.value)
  : result ErrorRecord :=
  match acc with
  | inr e => fail e
  | inl r =>
      if names (fst m) "code" then
        match intoInt (snd m) (Code r) with
        | inl c => ok (mkErrorRecord c (Message r))
        | inr e => fail e
        end
      else if names (fst m) "message" then
        match intoString (snd m) (Message r) with
        | inl t => ok (mkErrorRecord (Code r) t)
        | inr e => fail e
        end
      else ok r
  end.

(** A pointer field: [null] sets it to nil, an object fills the record
    it points to, allocating a zero record when it is nil. *)
Definition intoError (v : json.value) (cur : option ErrorRecord)
  : result (option ErrorRecord) :=
  match v with
  | json.Null => ok None
  | json.Object ms =>
      match fold_left errorMember ms (ok (default (mkErrorRecord 0 "") cur)) with
      | inl r => ok (Some r)
      | inr e => fail e
      end
  | _ => mismatch v "subsonic.Error"
  end.

Definition responseMember (acc : result subsonicResponse) (m : string * json.value)
  : result subsonicResponse :=
  match acc with
  | inr e => fail e
  | inl r =>
      if names (fst m) "status" then
        match intoString (snd m) (Status r) with
        | inl t => ok (mkSubsonicResponse t (Version r) (Error r) (Payload r))
        | inr e => fail e
        end
      else if names (fst m) "version" then
        match intoString (snd m) (Version r) with
        | inl t => ok (mkSubsonicResponse (Status r) t (Error r) (Payload r))
        | inr e => fail e
        end
      else if names (fst m) "error" then
        match intoError (snd m) (Error r) with
        | inl t => ok (mkSubsonicResponse (Status r) (Version r) t (Payload r))
        | inr e => fail e
        end
      else ok (mkSubsonicResponse (Status r) (Version r) (Error r)
                                  (Payload r ++ [m])%list)
  end.

Definition intoResponse (v : json.value) (cur : option subsonicResponse)
  : result (option subsonicResponse) :=
  match v with
  | json.Null => ok None
  | json.Object ms =>
      match fold_left responseMember ms
              (ok (default (mkSubsonicResponse "" "" None []) cur)) with
      | inl r => ok (Some r)
      | inr e => fail e
      end
  | _ => mismatch v "subsonic.subsonicResponse"
  end.

Definition apiMember (acc : result apiResponse) (m : string * json.value)
  : result apiResponse :=
  match acc with
  | inr e => fail e
  | inl r =>
      if names (fst m) "subsonic-response" then
        match intoResponse (snd m) (Response r) with
        | inl t => ok (mkApiResponse t)
        | inr e => fail e
        end
      else ok r
  end.

(** Decoding a JSON value into [*apiResponse]: [null] is a no-op, an
    object fills the fields it names, anything else is a type error. *)
Definition intoApiResponse (v : json.value) (cur : apiResponse) : result apiResponse :=
  match v with
  | json.Null => ok cur
  | json.Object ms => fold_left apiMember ms (ok cur)
  | _ => mismatch v "subsonic.apiResponse"
  end.

End unmarshal.

(** [json.Unmarshal(data, &parsed)]: a syntax error when [data] is not a
    JSON text, otherwise the decoding of its value into [parsed]. *)
Definition json_Unmarshal (data : string) (parsed : apiResponse) : result apiResponse :=
  match json.parse data with
  | None => fail json_SyntaxError
  | Some v => unmarshal.intoApiResponse v parsed
  end.

(** ** net/http *)

Module http.

Record Request := mkRequest { Method : string; URL : url.URL; Host : string }.

(** The body as [ioutil.ReadAll] finds it: the bytes read, and the
    error that ended the read if it was not the end of the stream. *)
Record Body := mkBody { data : string; readErr : option error }.

Record Response := mkResponse { StatusCode : Z; body : Body }.

(** The transport collaborator: the [Do] method of [http.Client]. *)
Record Client := mkClient { Do : Request -> result Response }.

Definition isTokenByte (c : ascii) : bool :=
  is_alnum c || is_any_of "!#$%&'*+-.^_`|~" c.

Fixpoint allToken (s : string) : bool :=
  match s with
  | EmptyString => true
  | String c s' => isTokenByte c && allToken s'
  end.

Definition validMethod (method : string) : bool :=
  negb (String.eqb method "") && allToken method.

Definition removeEmptyPort (host : string) : string :=
  if strings.HasSuffixByte host ":"%char then strings.dropLast host else host.

(** [NewRequest(method, url, nil)]. *)
Definition NewRequest (method rawurl : string) : result Request :=
  let method := if String.eqb method "" then "GET" else method in
  if negb (validMethod method) then fail (errorString "net/http: invalid method")
  else
    match url.Parse rawurl with
    | inr e => fail e
    | inl u =>
        let host := removeEmptyPort (url.Host u) in
        let u := url.mkURL (url.Scheme u) (url.Opaque u) host (url.Path u)
                   (url.ForceQuery u) (url.RawQuery u) (url.Fragment u)
                   (url.OmitHost u) in
        ok (mkRequest method u host)
    end.

End http.

(** [ioutil.ReadAll]. *)
Definition ioutil_ReadAll (b : http.Body) : string * option error :=
  (http.data b, http.readErr b).

(** [io.WriteString] into an MD5 digest, which never fails. *)
Definition io_WriteString (h : md5.digest) (s : string) : md5.digest * option error :=
  (md5.Write h (bytes_of s), None).

(** [%d] of fmt. *)
Definition fmt_d (z : Z) : string := NilZero.string_of_int (Z.to_int z).

Definition newline : string := String (ascii_of 10) "".

(** ** The client (client.go) *)

Definition supportedApiVersion : string := "1.8.0".
Definition libraryVersion : string := "0.0.4".

(** The [Client] struct.  Its first field, named [Client] in the source,
    is a pointer to the transport and may be nil. *)
Record Client := mkClient {
  Client' : option http.Client;
  BaseUrl : string;
  User : string;
  ClientName : string;
  salt : string;
  token : string }.

(** What a method can touch: the receiver it points to, the
    process-wide random source and the standard logger's output. *)
Record process := mkProcess {
  self : Client;
  random : rand.source;
  logged : list string }.

Inductive outcome (A : Type) : Type :=
  | Returns (a : A)
  | Panics (why : string).
Arguments Returns {A} a.
Arguments Panics {A} why.

(** A Go method body: it runs from a process state and either returns
    or panics, leaving a process state behind. *)
Definition Go (A : Type) : Type := process -> outcome A * process.

Definition ret {A} (a : A) : Go A := fun p => (Returns a, p).

Definition bind {A B} (m : Go A) (k : A -> Go B) : Go B :=
  fun p =>
    match m p with
    | (Returns a, p') => k a p'
    | (Panics why, p') => (Panics why, p')
    end.

Definition panic {A} (why : string) : Go A := fun p => (Panics why, p).

Notation "x <- m ;; k" := (bind m (fun x => k))
  (at level 100, m at next level, right associativity).
Notation "m ;; k" := (bind m (fun _ => k))
  (at level 100, right associativity).

Definition receiver : Go Client := fun p => (Returns (self p), p).

Definition store_salt (v : string) : Go unit := fun p =>
  let s := self p in
  (Returns tt,
   mkProcess (mkClient (Client' s) (BaseUrl s) (User s) (ClientName s) v (token s))
             (random p) (logged p)).

Definition store_token (v : string) : Go unit := fun p =>
  let s := self p in
  (Returns tt,
   mkProcess (mkClient (Client' s) (BaseUrl s) (User s) (ClientName s) (salt s) v)
             (random p) (logged p)).

Definition rand_Intn (n : nat) : Go nat := fun p =>
  let '(i, r) := rand.Intn n (random p) in
  (Returns i, mkProcess (self p) r (logged p)).

Definition log_Println (e : error) : Go unit := fun p =>
  (Returns tt, mkProcess (self p) (random p) (logged p ++ [errText e])%list).

(** Calling [Do] through a nil [*http.Client] dereferences it. *)
Definition Client_Do (c : option http.Client) (req : http.Request)
  : Go (result http.Response) :=
  match c with
  | None => panic "invalid memory address or nil pointer dereference"
  | Some c => ret (http.Do c req)
  end.

Definition corpus : string :=
  "abcdefghijklmnopqrstuvwxyzABCDEFGHIJKLMNOPQRSTUVWXYZ0123456789".

(** The loop [for i := range b] over the first [n] cells. *)
Fixpoint fill (n : nat) : Go string :=
  match n with
  | O => ret ""
  | S n' =>
      i <- rand_Intn (String.length corpus) ;;
      match String.get i corpus with
      | None => panic "index out of range"
      | Some c => rest <- fill n' ;; ret (String c rest)
      end
  end.

Definition generateSalt : Go string := fill 10.

Definition withRawQuery (req : http.Request) (q : string) : http.Request :=
  http.mkRequest (http.Method req) (url.withQuery (http.URL req) q) (http.Host req).

(** Lines 68 to 72 of [Request]: the base URL is parsed and its path
    joined with the protocol prefix and the endpoint. *)
Definition requestURL (s : Client) (endpoint : string) : result url.URL :=
  match url.Parse (BaseUrl s) with
  | inr err => fail err
  | inl baseUrl =>
      ok (url.withPath baseUrl (path.Join [url.Path baseUrl; "/rest/"; endpoint]))
  end.

(** The query of a request: the six protocol fields are added to what
    the URL already carries, then the caller's pairs.  A nil [params] is
    the empty map; the [range] over it visits every entry once, here in
    the order of [map_to_list]. *)
Definition query (s : Client) (params : gmap string string) (q : url.Values)
  : url.Values :=
  let q := url.Add "f" "json" q in
  let q := url.Add "v" supportedApiVersion q in
  let q := url.Add "c" (ClientName s) q in
  let q := url.Add "u" (User s) q in
  let q := url.Add "t" (token s) q in
  let q := url.Add "s" (salt s) q in
  fold_left (fun q kv => url.Add (fst kv) (snd kv) q) (map_to_list params) q.

(** Lines 68 to 88 of [Request]: the request handed to the transport,
    or the error of [url.Parse] or of [http.NewRequest]. *)
Definition newRequest (s : Client) (method endpoint : string)
           (params : gmap string string) : result http.Request :=
  match requestURL s endpoint with
  | inr err => fail err
  | inl baseUrl =>
      match http.NewRequest method (url.String baseUrl) with
      | inr err => fail err
      | inl req =>
          let q := query s params (url.Query (http.URL req)) in
          ok (withRawQuery req (url.Encode q))
      end
  end.

(** Request performs a HTTP request against the Subsonic server as the
    current user. *)
Definition Request (method endpoint : string) (params : gmap string string)
  : Go (option http.Response * option error) :=
  s <- receiver ;;
  match newRequest s method endpoint params with
  | inr err => ret (None, Some err)
  | inl req =>
      r <- Client_Do (Client' s) req ;;
      match r with
      | inr err => ret (None, Some err)
      | inl resp => ret (Some resp, None)
      end
  end.

(** Get is a convenience interface to issue a GET request and parse the
    response body. *)
Definition Get (endpoint : string) (params : gmap string string)
  : Go (option subsonicResponse * option error) :=
  r <- Request "GET" endpoint params ;;
  let '(response, err) := r in
  match err, response with
  | Some err, _ => ret (None, Some err)
  | None, None => panic "invalid memory address or nil pointer dereference"
  | None, Some response =>
      let '(responseBody, err) := ioutil_ReadAll (http.body response) in
      match err with
      | Some err => ret (None, Some err)
      | None =>
          let parsed := mkApiResponse None in
          match json_Unmarshal responseBody parsed with
          | inr err => ret (None, Some err)
          | inl parsed =>
              match Response parsed with
              | None => panic "invalid memory address or nil pointer dereference"
              | Some resp =>
                  match Error resp with
                  | Some e =>
                      ret (None, Some (errorString
                            ("Error #" +:+ fmt_d (Code e) +:+ ": " +:+ Message e +:+ newline)))
                  | None => ret (Some resp, None)
                  end
              end
          end
      end
  end.

(** Ping is used to test connectivity with the server. It returns true
    if the server is up. *)
Definition Ping : Go bool :=
  r <- Request "GET" "ping" ∅ ;;
  let '(_, err) := r in
  match err with
  | Some err => log_Println err ;; ret false
  | None => ret true
  end.

(** Authenticate authenticates the current user with a provided
    password. *)
Definition Authenticate (password : string) : Go (option error) :=
  salt <- generateSalt ;;
  let h := md5.New in
  let '(h, err) := io_WriteString h password in
  match err with
  | Some err => ret (Some err)
  | None =>
      let '(h, err) := io_WriteString h salt in
      match err with
      | Some err => ret (Some err)
      | None =>
          store_salt salt ;;
          store_token (fmt.hex (md5.Sum h)) ;;
          up <- Ping ;;
          if negb up then ret (Some (errorString "Authentication failed"))
          else ret None
      end
  end.

(** GetLicense retrieves details about the software license.  The type
    [License] and the envelope field of that name are declared in
    another file of the package; both are parameters here, a nil
    pointer being [None]. *)
Section License.

Variable License : Type.
Variable resp_License : subsonicResponse -> option License.

Definition GetLicense : Go (option License * option error) :=
  r <- Get "getLicense" ∅ ;;
  let '(resp, err) := r in
  match err with
  | Some err => ret (None, Some err)
  | None =>
      match resp with
      | None => panic "invalid memory address or nil pointer dereference"
      | Some resp => ret (resp_License resp, None)
      end
  end.

End License.

(** * Vocabulary of the statements and scenarios *)

(** The text of the run-time panic on a nil pointer. *)
Definition nilDeref : string := "invalid memory address or nil pointer dereference".

(** The process after [log.Println(e)]. *)
Definition logging (p : process) (e : error) : process :=
  mkProcess (self p) (random p) (logged p ++ [errText e])%list.

(** The byte [generateSalt] picks at one position of the random stream,
    and the string it builds from [n] consecutive positions. *)
Definition pick (r : rand.source) : ascii :=
  default "a"%char (String.get (fst (rand.Intn (String.length corpus) r)) corpus).

Fixpoint saltOf (n : nat) (r : rand.source) : string :=
  match n with
  | O => ""
  | S n' => String (pick r) (saltOf n' (snd (rand.Intn (String.length corpus) r)))
  end.

(** The random source after [n] draws. *)
Fixpoint advance (n : nat) (r : rand.source) : rand.source :=
  match n with
  | O => r
  | S n' => advance n' (snd (rand.Intn (String.length corpus) r))
  end.

(** Membership in the alphabet of [generateSalt]. *)
Definition inCorpus (c : ascii) : bool := is_any_of corpus c.

Fixpoint allInCorpus (s : string) : bool :=
  match s with
  | EmptyString => true
  | String c s' => inCorpus c && allInCorpus s'
  end.

(** The token of a password under a salt. *)
Definition tokenOf (password salt : string) : string := md5_hex (password +:+ salt).

(** The session after the two assignments of [Authenticate]. *)
Definition derived (password : string) (p : process) : process :=
  let s := self p in
  let salt := saltOf 10 (random p) in
  mkProcess (mkClient (Client' s) (BaseUrl s) (User s) (ClientName s)
                      salt (tokenOf password salt))
            (advance 10 (random p)) (logged p).

(** JSON texts are written with apostrophes for the double quotes. *)
Fixpoint jsonText (s : string) : string :=
  match s with
  | EmptyString => ""
  | String c s' => String (if Ascii.eqb c "'"%char then json.dquote else c) (jsonText s')
  end.

Definition wrongPassword : string :=
  jsonText "{'subsonic-response':{'status':'failed','version':'1.16.1','error':{'code':40,'message':'Wrong username or password'}}}".

Definition errorAndPayload : string :=
  jsonText "{'subsonic-response':{'status':'ok','license':{'valid':true},'error':{'code':70,'message':'not found'}}}".

(** A server that answers every request with the same body, and one
    whose connections are refused. *)
Definition answering (body : string) : http.Client :=
  http.mkClient (fun _ => ok (http.mkResponse 200 (http.mkBody body None))).

Definition refusing : http.Client :=
  http.mkClient (fun _ => fail (url_Error "Get" "dial tcp: connect: connection refused")).

(** A session that has not authenticated yet, in a fresh process. *)
Definition session (transport : option http.Client) : Client :=
  mkClient transport "http://host/music" "alice" "app" "" "".

(** A random source for the scenarios. *)
Definition counting : rand.source := rand.Source (fun i => (7 * i + 3)%nat) 0.

Definition started (transport : option http.Client) : process :=
  mkProcess (session transport) counting [].

(** No colon in the string. *)
Fixpoint colonFree (s : string) : bool :=
  match s with
  | EmptyString => true
  | String c s' => negb (Ascii.eqb c ":"%char) && colonFree s'
  end.

(** The error value [Get] builds from an error record. *)
Definition applicationError (e : ErrorRecord) : error :=
  errorString ("Error #" +:+ fmt_d (Code e) +:+ ": " +:+ Message e +:+ newline).

(** The Go string of a byte slice. *)
Definition string_of_bytes (bs : list Z) : string :=
  string_of_list_ascii (map ascii_of bs).

(** Two 128-byte passwords that differ in six bytes and have the same
    MD5 chaining state after their two blocks (Wang and Yu, 2004). *)
Definition collisionA : string :=
  string_of_bytes
    [0xd1; 0x31; 0xdd; 0x02; 0xc5; 0xe6; 0xee; 0xc4; 0x69; 0x3d; 0x9a; 0x06; 0x98; 0xaf; 0xf9; 0x5c;
     0x2f; 0xca; 0xb5; 0x87; 0x12; 0x46; 0x7e; 0xab; 0x40; 0x04; 0x58; 0x3e; 0xb8; 0xfb; 0x7f; 0x89;
     0x55; 0xad; 0x34; 0x06; 0x09; 0xf4; 0xb3; 0x02; 0x83; 0xe4; 0x88; 0x83; 0x25; 0x71; 0x41; 0x5a;
     0x08; 0x51; 0x25; 0xe8; 0xf7; 0xcd; 0xc9; 0x9f; 0xd9; 0x1d; 0xbd; 0xf2; 0x80; 0x37; 0x3c; 0x5b;
     0xd8; 0x82; 0x3e; 0x31; 0x56; 0x34; 0x8f; 0x5b; 0xae; 0x6d; 0xac; 0xd4; 0x36; 0xc9; 0x19; 0xc6;
     0xdd; 0x53; 0xe2; 0xb4; 0x87; 0xda; 0x03; 0xfd; 0x02; 0x39; 0x63; 0x06; 0xd2; 0x48; 0xcd; 0xa0;
     0xe9; 0x9f; 0x33; 0x42; 0x0f; 0x57; 0x7e; 0xe8; 0xce; 0x54; 0xb6; 0x70; 0x80; 0xa8; 0x0d; 0x1e;
     0xc6; 0x98; 0x21; 0xbc; 0xb6; 0xa8; 0x83; 0x93; 0x96; 0xf9; 0x65; 0x2b; 0x6f; 0xf7; 0x2a; 0x70].

Definition collisionB : string :=
  string_of_bytes
    [0xd1; 0x31; 0xdd; 0x02; 0xc5; 0xe6; 0xee; 0xc4; 0x69; 0x3d; 0x9a; 0x06; 0x98; 0xaf; 0xf9; 0x5c;
     0x2f; 0xca; 0xb5; 0x07; 0x12; 0x46; 0x7e; 0xab; 0x40; 0x04; 0x58; 0x3e; 0xb8; 0xfb; 0x7f; 0x89;
     0x55; 0xad; 0x34; 0x06; 0x09; 0xf4; 0xb3; 0x02; 0x83; 0xe4; 0x88; 0x83; 0x25; 0xf1; 0x41; 0x5a;
     0x08; 0x51; 0x25; 0xe8; 0xf7; 0xcd; 0xc9; 0x9f; 0xd9; 0x1d; 0xbd; 0x72; 0x80; 0x37; 0x3c; 0x5b;
     0xd8; 0x82; 0x3e; 0x31; 0x56; 0x34; 0x8f; 0x5b; 0xae; 0x6d; 0xac; 0xd4; 0x36; 0xc9; 0x19; 0xc6;
     0xdd; 0x53; 0xe2; 0x34; 0x87; 0xda; 0x03; 0xfd; 0x02; 0x39; 0x63; 0x06; 0xd2; 0x48; 0xcd; 0xa0;
     0xe9; 0x9f; 0x33; 0x42; 0x0f; 0x57; 0x7e; 0xe8; 0xce; 0x54; 0xb6; 0x70; 0x80; 0x28; 0x0d; 0x1e;
     0xc6; 0x98; 0x21; 0xbc; 0xb6; 0xa8; 0x83; 0x93; 0x96; 0xf9; 0x65; 0xab; 0x6f; 0xf7; 0x2a; 0x70].

(** Only lowercase hexadecimal digits. *)
Fixpoint lowerHex (s : string) : bool :=
  match s with
  | EmptyString => true
  | String c s' => is_any_of "0123456789abcdef" c && lowerHex s'
  end.

(** A plain path element: not empty, not [.] or [..], without a slash. *)
Definition plainSegment (seg : string) : bool :=
  negb (String.eqb seg "") && negb (String.eqb seg ".") && negb (String.eqb seg "..")
  && negb (strings.ContainsByte seg "/"%char).

(** The rooted path of a list of elements: a slash before each. *)
Fixpoint rootedPath (segs : list string) : string :=
  match segs with
  | [] => ""
  | seg :: rest => "/" +:+ seg +:+ rootedPath rest
  end.

(** The same on lists of bytes, as [Clean] scans them. *)
Definition noSlash (seg : list ascii) : Prop := Forall (fun c => path.is_slash c = false) seg.

Definition plainList (seg : list ascii) : Prop :=
  noSlash seg /\ seg <> [] /\ seg <> ["."%char] /\ seg <> ["."%char; "."%char].

(** Elements, each after one or more slashes. *)
Definition spaced (items : list (nat * list ascii)) : list ascii :=
  flat_map (fun it => repeat "/"%char (S (fst it)) ++ snd it)%list items.

(** Elements, each after exactly one slash. *)
Definition glued (segs : list (list ascii)) : list ascii :=
  flat_map (fun seg => "/"%char :: seg) segs.

(** The items of the string [Join] hands to [Clean]. *)
Definition joinItems (bs : list string) (t : nat) (e : string) (es : list string)
  : list (nat * list ascii) :=
  (map (fun seg => (O, list_ascii_of_string seg)) bs
   ++ (t, list_ascii_of_string "rest") :: (1%nat, list_ascii_of_string e)
   :: map (fun seg => (O, list_ascii_of_string seg)) es)%list.

(** The values of a key, none when the key is absent. *)
Definition valuesAt (q : url.Values) (key : string) : list string :=
  default [] (q !! key).

(** [Add] for each pair of a list, in order. *)
Definition addAll (l : list (string * string)) (q : url.Values) : url.Values :=
  fold_left (fun q kv => url.Add (fst kv) (snd kv) q) l q.

(** The values a list of pairs gives a key, in order. *)
Fixpoint valuesOf (key : string) (l : list (string * string)) : list string :=
  match l with
  | [] => []
  | kv :: l' =>
      if String.eqb (fst kv) key then snd kv :: valuesOf key l' else valuesOf key l'
  end.

(** The six pairs every request carries. *)
Definition mandated (s : Client) : list (string * string) :=
  [("f", "json"); ("v", supportedApiVersion); ("c", ClientName s);
   ("u", User s); ("t", token s); ("s", salt s)].

(** No byte of [s] is in [set]. *)
Fixpoint noneOf (set s : string) : bool :=
  match s with
  | EmptyString => true
  | String c s' => negb (is_any_of set c) && noneOf set s'
  end.

(** One piece of an encoded query, and what [parseQuery] reads in it. *)
Definition piece (kv : string * string) : string :=
  url.QueryEscape (fst kv) +:+ "=" +:+ url.QueryEscape (snd kv).

(** The pairs of a [Values], in the order [Encode] writes them. *)
Definition pairsOf (v : url.Values) : list (string * string) :=
  flat_map (fun k => map (fun x => (k, x)) (valuesAt v k))
           (merge_sort String.le (map_to_list v).*1).

(** A caller's map with a colliding key and a value that needs escaping. *)
Definition sampleParams : gmap string string := <["id" := "a b&c"]> (<["f" := "xml"]> ∅).

(** A caller's map that names another user under the protocol key [u]. *)
Definition shadowing : gmap string string := <["u" := "admin"]> ∅.

(** A reader that takes the last value of a repeated key, where
    [Values.Get] takes the first; the empty string when there is none. *)
Definition lastValue (v : url.Values) (key : string) : string :=
  default "" (last (valuesAt v key)).

(** Every byte of [s] satisfies [P]. *)
Fixpoint allBytes (P : ascii -> bool) (s : string) : bool :=
  match s with
  | EmptyString => true
  | String c s' => P c && allBytes P s'
  end.

(** A byte that ends no part of a URL and is no control byte. *)
Definition inert (c : ascii) : bool :=
  negb (is_any_of "#?" c) && negb (url.is_ctl c).

(** A lowercase URL scheme: a letter, then letters, digits, [+], [-], [.]. *)
Definition schemeByte (c : ascii) : bool :=
  (Z.leb 97 (byte_of c) && Z.leb (byte_of c) 122) || is_digit c || is_any_of "+-." c.

Definition validScheme (s : string) : bool :=
  match s with
  | EmptyString => false
  | String c _ => (Z.leb 97 (byte_of c) && Z.leb (byte_of c) 122) && allBytes schemeByte s
  end.

(** A non-empty registered name with an optional, non-empty port. *)
Definition hostOk (h : string) : bool :=
  negb (String.eqb h "") && url.all_host_bytes h
  && match url.lastColon h with
     | Some port => url.all_digits port && negb (String.eqb port "")
     | None => true
     end.

(** The path is empty or starts with a slash. *)
Definition rootedOrEmpty (p : string) : bool :=
  match p with
  | EmptyString => true
  | String c _ => Ascii.eqb c "/"%char
  end.

(** An absolute URL with an authority and neither query nor fragment. *)
Definition plainURL (u : url.URL) : bool :=
  validScheme (url.Scheme u) && String.eqb (url.Opaque u) "" && hostOk (url.Host u)
  && rootedOrEmpty (url.Path u)
  && negb (url.ForceQuery u) && String.eqb (url.RawQuery u) ""
  && String.eqb (url.Fragment u) "" && negb (url.OmitHost u).

(** The text of a plain URL. *)
Definition plainText (sch host p : string) : string :=
  sch +:+ ":" +:+ "//" +:+ host +:+ url.escape p url.encodePath.

(** The process under another transport handle. *)
Definition withTransport (c : option http.Client) (p : process) : process :=
  let s := self p in
  mkProcess (mkClient c (BaseUrl s) (User s) (ClientName s) (salt s) (token s))
            (random p) (logged p).

(** Two transports that fail alike and answer with the same bodies,
    under whatever status codes. *)
Definition sameBodies (c c' : http.Client) : Prop :=
  forall req,
    match http.Do c req, http.Do c' req with
    | inl r, inl r' => http.body r = http.body r'
    | inr e, inr e' => e = e'
    | _, _ => False
    end.

(** A server that answers every request with the same status and body. *)
Definition replying (code : Z) (body : string) : http.Client :=
  http.mkClient (fun _ => ok (http.mkResponse code (http.mkBody body None))).

(** The session with another salt and token. *)
Definition withPair (s : Client) (salt token : string) : Client :=
  mkClient (Client' s) (BaseUrl s) (User s) (ClientName s) salt token.

(** An absolute URL with an authority and no fragment: a lowercase
    scheme, a registered name as host with an optional non-empty port,
    a path that is empty or rooted, and a query that is empty or free
    of [#], [?] and control bytes. *)
Definition baseURL (u : url.URL) : bool :=
  validScheme (url.Scheme u) && String.eqb (url.Opaque u) "" && hostOk (url.Host u)
  && rootedOrEmpty (url.Path u)
  && negb (url.ForceQuery u) && allBytes inert (url.RawQuery u)
  && String.eqb (url.Fragment u) "" && negb (url.OmitHost u).

(** The six keys of the protocol. *)
Definition protocolKeys : list string := ["f"; "v"; "c"; "u"; "t"; "s"].

(** A session whose base URL has a query of its own. *)
Definition shadowed : Client :=
  mkClient None "http://host/music?u=admin&x=1" "alice" "app" "" "".

(** A session whose base URL does not parse. *)
Definition unparsable (transport : option http.Client) : process :=
  mkProcess (mkClient transport "://host/music" "alice" "app" "" "") counting [].

(** An envelope that reports a failure and holds no error record. *)
Definition failedWithoutError : string :=
  jsonText "{'subsonic-response':{'status':'failed','version':'1.16.1'}}".

(** * Properties of the pipeline *)

(** ** How the four methods run *)

(** [Request] leaves the process as it found it; what it returns is
    decided by the request construction and then by the transport. *)
Lemma Request_run method endpoint params p :
  Request method endpoint params p =
    match newRequest (self p) method endpoint params with
    | inr err => (Returns (None, Some err), p)
    | inl req =>
        match Client' (self p) with
        | None => (Panics nilDeref, p)
        | Some c =>
            match http.Do c req with
            | inr err => (Returns (None, Some err), p)
            | inl resp => (Returns (Some resp, None), p)
            end
        end
    end.
Proof.
  unfold Request, bind, receiver, Client_Do, ret, panic, nilDeref.
  destruct (newRequest (self p) method endpoint params) as [req|err]; [|reflexivity].
  destruct (Client' (self p)) as [c|]; [|reflexivity].
  destruct (http.Do c req); reflexivity.
Qed.

Lemma Request_state method endpoint params p :
  snd (Request method endpoint params p) = p.
Proof.
  rewrite Request_run.
  destruct (newRequest _ _ _ _) as [req|err]; [|reflexivity].
  destruct (Client' (self p)) as [c|]; [|reflexivity].
  destruct (http.Do c req); reflexivity.
Qed.

(** [Request] returns a response or an error, never both and never
    neither. *)
Lemma Request_returns method endpoint params p r :
  fst (Request method endpoint params p) = Returns r ->
  (exists resp, r = (Some resp, None)) \/ (exists err, r = (None, Some err)).
Proof.
  rewrite Request_run.
  destruct (newRequest _ _ _ _) as [req|err]; simpl.
  - destruct (Client' (self p)) as [c|]; simpl; [|discriminate].
    destruct (http.Do c req); simpl; intros [= <-]; eauto.
  - intros [= <-]; eauto.
Qed.

Lemma Ping_run p :
  Ping p =
    match fst (Request "GET" "ping" ∅ p) with
    | Returns (_, Some err) => (Returns false, logging p err)
    | Returns (_, None) => (Returns true, p)
    | Panics why => (Panics why, p)
    end.
Proof.
  unfold Ping, bind.
  pose proof (Request_state "GET" "ping" ∅ p) as Hs.
  destruct (Request "GET" "ping" ∅ p) as [[[resp [err|]]|why] p']; simpl in *; subst; reflexivity.
Qed.

Lemma Ping_self p : self (snd (Ping p)) = self p.
Proof.
  rewrite Ping_run.
  destruct (fst (Request "GET" "ping" ∅ p)) as [[resp [err|]]|why]; reflexivity.
Qed.

Lemma Get_self endpoint params p : self (snd (Get endpoint params p)) = self p.
Proof.
  unfold Get, bind.
  pose proof (Request_state "GET" endpoint params p) as Hs.
  destruct (Request "GET" endpoint params p) as [[[resp err]|why] p']; simpl in *; subst p'.
  - destruct err as [err|]; [reflexivity|].
    destruct resp as [resp|]; [|reflexivity].
    unfold ioutil_ReadAll. destruct (http.readErr (http.body resp)); [reflexivity|].
    destruct (json_Unmarshal _ _) as [parsed|e]; [|reflexivity].
    destruct (Response parsed) as [r|]; [|reflexivity].
    destruct (Error r); reflexivity.
  - reflexivity.
Qed.

(** ** Salt and token *)

Lemma corpus_size : String.length corpus = 62%nat.
Proof. reflexivity. Qed.

Lemma corpus_get (i : nat) :
  (i < 62)%nat -> exists c, String.get i corpus = Some c /\ inCorpus c = true.
Proof.
  intros Hi.
  do 62 (destruct i as [|i]; [eexists; split; reflexivity|]).
  lia.
Qed.

Lemma Intn_bound (n : nat) (r : rand.source) :
  (0 < n)%nat -> (fst (rand.Intn n r) < n)%nat.
Proof. intros Hn. simpl. apply Nat.mod_upper_bound. lia. Qed.

Lemma pick_get (r : rand.source) :
  String.get (fst (rand.Intn (String.length corpus) r)) corpus = Some (pick r)
  /\ inCorpus (pick r) = true.
Proof.
  destruct (corpus_get (fst (rand.Intn (String.length corpus) r))) as (c & Hc & Hin).
  { rewrite corpus_size. apply Intn_bound. lia. }
  unfold pick. rewrite Hc. auto.
Qed.

Lemma fill_run (n : nat) (p : process) :
  fill n p =
    (Returns (saltOf n (random p)),
     mkProcess (self p) (advance n (random p)) (logged p)).
Proof.
  revert p. induction n as [|n IH]; intros p.
  - destruct p; reflexivity.
  - cbn [fill saltOf advance]. unfold bind at 1. unfold rand_Intn at 1.
    destruct (pick_get (random p)) as [Hget _].
    destruct (rand.Intn (String.length corpus) (random p)) as [i r] eqn:Hi.
    cbn [fst snd] in *. rewrite Hget. unfold bind. rewrite IH. reflexivity.
Qed.

Lemma saltOf_length n r : String.length (saltOf n r) = n.
Proof. revert r. induction n; intros r; simpl; [reflexivity|]. now rewrite IHn. Qed.

Lemma saltOf_corpus n r : allInCorpus (saltOf n r) = true.
Proof.
  revert r. induction n; intros r; [reflexivity|].
  cbn [saltOf allInCorpus]. rewrite IHn.
  destruct (pick_get r) as [_ ->]. reflexivity.
Qed.

Lemma bytes_of_app (a b : string) :
  bytes_of (a +:+ b) = (bytes_of a ++ bytes_of b)%list.
Proof.
  unfold bytes_of. induction a as [|c a IH]; [reflexivity|].
  simpl. f_equal. exact IH.
Qed.

Lemma Authenticate_run password p :
  Authenticate password p =
    match Ping (derived password p) with
    | (Returns true, p') => (Returns None, p')
    | (Returns false, p') => (Returns (Some (errorString "Authentication failed")), p')
    | (Panics why, p') => (Panics why, p')
    end.
Proof.
  unfold Authenticate, generateSalt. unfold bind at 1. rewrite fill_run.
  unfold io_WriteString. cbv iota beta.
  unfold bind, store_salt, store_token. cbn [self random logged Client' BaseUrl User ClientName salt token].
  replace (fmt.hex (md5.Sum (md5.Write (md5.Write md5.New (bytes_of password))
                                       (bytes_of (saltOf 10 (random p))))))
    with (tokenOf password (saltOf 10 (random p))).
  2:{ unfold tokenOf, md5_hex, md5.Sum, md5.Write, md5.New. cbn [md5.written].
      rewrite bytes_of_app. reflexivity. }
  fold (derived password p).
  destruct (Ping (derived password p)) as [[[|]|why] p']; reflexivity.
Qed.

(** ** Get and the envelope *)

Lemma Get_run endpoint params p :
  Get endpoint params p =
    match fst (Request "GET" endpoint params p) with
    | Panics why => (Panics why, p)
    | Returns (_, Some err) => (Returns (None, Some err), p)
    | Returns (None, None) => (Panics nilDeref, p)
    | Returns (Some response, None) =>
        match http.readErr (http.body response) with
        | Some err => (Returns (None, Some err), p)
        | None =>
            match json_Unmarshal (http.data (http.body response)) (mkApiResponse None) with
            | inr err => (Returns (None, Some err), p)
            | inl parsed =>
                match Response parsed with
                | None => (Panics nilDeref, p)
                | Some resp =>
                    match Error resp with
                    | Some e =>
                        (Returns (None, Some (errorString
                           ("Error #" +:+ fmt_d (Code e) +:+ ": " +:+ Message e +:+ newline))), p)
                    | None => (Returns (Some resp, None), p)
                    end
                end
            end
        end
    end.
Proof.
  unfold Get, bind.
  pose proof (Request_state "GET" endpoint params p) as Hs.
  destruct (Request "GET" endpoint params p) as [[[resp err]|why] p']; simpl in *; subst p'.
  - destruct err as [err|]; [destruct resp; reflexivity|].
    destruct resp as [resp|]; [|reflexivity].
    unfold ioutil_ReadAll. destruct (http.readErr (http.body resp)); [reflexivity|].
    destruct (json_Unmarshal _ _) as [parsed|e]; [|reflexivity].
    destruct (Response parsed) as [r|]; [|reflexivity].
    destruct (Error r); reflexivity.
  - reflexivity.
Qed.

(** A body that is not a JSON text makes [Get] return the syntax error
    of the decoder, which is not an [errorString]. *)
Lemma Get_syntax_error endpoint params p response :
  fst (Request "GET" endpoint params p) = Returns (Some response, None) ->
  http.readErr (http.body response) = None ->
  json.parse (http.data (http.body response)) = None ->
  Get endpoint params p = (Returns (None, Some json_SyntaxError), p).
Proof.
  intros HR Hread Hparse. rewrite Get_run, HR, Hread.
  unfold json_Unmarshal. rewrite Hparse. reflexivity.
Qed.

(** A JSON text that decodes without error but leaves the [Response]
    pointer nil makes [Get] dereference nil. *)
Lemma Get_nil_response endpoint params p response parsed :
  fst (Request "GET" endpoint params p) = Returns (Some response, None) ->
  http.readErr (http.body response) = None ->
  json_Unmarshal (http.data (http.body response)) (mkApiResponse None) = ok parsed ->
  Response parsed = None ->
  Get endpoint params p = (Panics nilDeref, p).
Proof.
  intros HR Hread Hparsed Hnil. rewrite Get_run, HR, Hread, Hparsed, Hnil. reflexivity.
Qed.

(** C2 (the code at the failing input): on the body [{}], a JSON text
    without the [subsonic-response] key, the decoder reports no error,
    the [Response] pointer stays nil and [Get] panics on [resp.Error]
    instead of returning a parse error. *)
Theorem Get_missing_wrapper_panics :
  json_Unmarshal "{}" (mkApiResponse None) = ok (mkApiResponse None)
  /\ Get "ping" ∅ (started (Some (answering "{}")))
     = (Panics nilDeref, started (Some (answering "{}"))).
Proof. split; vm_compute; reflexivity. Qed.

(** C3 (the code at the failing input): the server answers the
    connectivity check with the application error 40, wrong username or
    password; [Authenticate] returns nil all the same, and a [Get] made
    with the stored salt and token reports the error. *)
Theorem Authenticate_accepts_rejected_credentials :
  fst (Authenticate "secret" (started (Some (answering wrongPassword)))) = Returns None
  /\ fst (Get "ping" ∅ (snd (Authenticate "secret" (started (Some (answering wrongPassword))))))
     = Returns (None, Some (errorString
         ("Error #40: Wrong username or password" +:+ newline))).
Proof. split; vm_compute; reflexivity. Qed.

(** [Authenticate] succeeds exactly when [Request] returns no error,
    whatever the response holds. *)
Lemma Authenticate_nil_iff password p :
  fst (Authenticate password p) = Returns None <->
  exists resp, fst (Request "GET" "ping" ∅ (derived password p)) = Returns (resp, None).
Proof.
  rewrite Authenticate_run, Ping_run.
  destruct (fst (Request "GET" "ping" ∅ (derived password p))) as [[resp [err|]]|why]; simpl.
  - split; [discriminate|]. intros [r [=]].
  - split; eauto.
  - split; [discriminate|]. intros [r [=]].
Qed.

(** ** The text of an application error determines its record *)

Lemma list_ascii_app (a b : string) :
  list_ascii_of_string (a +:+ b) = (list_ascii_of_string a ++ list_ascii_of_string b)%list.
Proof. induction a as [|c a IH]; [reflexivity|]. simpl. now rewrite IH. Qed.

Lemma list_ascii_inj (a b : string) :
  list_ascii_of_string a = list_ascii_of_string b -> a = b.
Proof.
  intros H. rewrite <- (string_of_list_ascii_of_string a), H.
  apply string_of_list_ascii_of_string.
Qed.

Lemma append_inv_tail (a b t : string) : a +:+ t = b +:+ t -> a = b.
Proof.
  intros H. apply list_ascii_inj.
  apply (f_equal list_ascii_of_string) in H. rewrite !list_ascii_app in H.
  now apply app_inv_tail in H.
Qed.

Lemma colonFree_cut (a b x y : string) :
  colonFree a = true -> colonFree b = true ->
  a +:+ String ":"%char x = b +:+ String ":"%char y -> a = b /\ x = y.
Proof.
  revert b. induction a as [|c a IH]; intros [|d b] Ha Hb H; simpl in *.
  - now inversion H.
  - inversion H; subst d. rewrite Ascii.eqb_refl in Hb. discriminate.
  - inversion H; subst c. rewrite Ascii.eqb_refl in Ha. discriminate.
  - inversion H; subst d.
    apply andb_prop in Ha as [_ Ha]. apply andb_prop in Hb as [_ Hb].
    destruct (IH b Ha Hb) as [-> ->]; auto.
Qed.

Lemma colonFree_uint (d : Decimal.uint) : colonFree (NilEmpty.string_of_uint d) = true.
Proof. induction d; simpl; auto. Qed.

Lemma colonFree_fmt_d (z : Z) : colonFree (fmt_d z) = true.
Proof.
  unfold fmt_d, NilZero.string_of_int, NilZero.string_of_uint.
  destruct (Z.to_int z) as [d|d]; destruct d; simpl; auto using colonFree_uint.
Qed.

Lemma fmt_d_inj (a b : Z) : fmt_d a = fmt_d b -> a = b.
Proof.
  intros H. unfold fmt_d in H.
  assert (Hnz : forall z, Z.to_int z <> Decimal.Pos Decimal.Nil
                          /\ Z.to_int z <> Decimal.Neg Decimal.Nil).
  { intros [|q|q]; simpl; split; try discriminate;
      intros [= E]; now apply (DecimalPos.Unsigned.to_uint_nonnil q). }
  apply DecimalZ.to_int_inj.
  assert (E : Some (Z.to_int a) = Some (Z.to_int b)).
  { rewrite <- (NilZero.isi (Z.to_int a)), <- (NilZero.isi (Z.to_int b));
      try apply Hnz. now rewrite H. }
  now inversion E.
Qed.

Lemma applicationError_inj (e e' : ErrorRecord) :
  applicationError e' = applicationError e -> e' = e.
Proof.
  unfold applicationError. intros [= H].
  apply colonFree_cut in H as [Hc Hm]; try apply colonFree_fmt_d.
  apply fmt_d_inj in Hc. injection Hm as Hm. apply append_inv_tail in Hm.
  destruct e, e'; simpl in *; congruence.
Qed.

(** C1: when the envelope decoded from the body has an error record in
    its nested object, [Get] returns a nil payload and the error whose
    text is made of the record's code and message; no other field of the
    nested object changes this, and the text determines the code and the
    message. *)
Theorem Get_application_error endpoint params p response parsed resp e :
  fst (Request "GET" endpoint params p) = Returns (Some response, None) ->
  http.readErr (http.body response) = None ->
  json_Unmarshal (http.data (http.body response)) (mkApiResponse None) = ok parsed ->
  Response parsed = Some resp ->
  Error resp = Some e ->
  Get endpoint params p =
    (Returns (None, Some (errorString
       ("Error #" +:+ fmt_d (Code e) +:+ ": " +:+ Message e +:+ newline))), p)
  /\ (forall e', applicationError e' = applicationError e ->
                 Code e' = Code e /\ Message e' = Message e).
Proof.
  intros HR Hread Hparsed Hresp Herr. split.
  - rewrite Get_run, HR, Hread, Hparsed, Hresp, Herr. reflexivity.
  - intros e' H. apply applicationError_inj in H. now subst.
Qed.

Lemma Get_application_error_witness :
  Get "getLicense" ∅ (started (Some (answering errorAndPayload))) =
    (Returns (None, Some (errorString ("Error #70: not found" +:+ newline))),
     started (Some (answering errorAndPayload)))
  /\ (forall e', applicationError e' = applicationError (mkErrorRecord 70 "not found") ->
                 Code e' = 70 /\ Message e' = "not found").
Proof.
  apply (Get_application_error "getLicense" ∅ (started (Some (answering errorAndPayload)))
           (http.mkResponse 200 (http.mkBody errorAndPayload None))
           (mkApiResponse (Some (mkSubsonicResponse "ok" "" (Some (mkErrorRecord 70 "not found"))
              [("license", json.Object [("valid", json.Bool true)])])))
           (mkSubsonicResponse "ok" "" (Some (mkErrorRecord 70 "not found"))
              [("license", json.Object [("valid", json.Bool true)])])
           (mkErrorRecord 70 "not found")).
  - vm_compute; reflexivity.
  - reflexivity.
  - vm_compute; reflexivity.
  - reflexivity.
  - reflexivity.
Defined.

(** ** Ping *)

(** C4 as stated fails: the server answers the check with an
    application error, so the call fails for [Get], and [Ping] is true. *)
Lemma Ping_true_on_application_error :
  ~ (forall p : process,
       (exists err, fst (Get "ping" ∅ p) = Returns (None, Some err)) ->
       fst (Ping p) = Returns false).
Proof.
  intros H.
  specialize (H (started (Some (answering wrongPassword)))).
  assert (E : fst (Ping (started (Some (answering wrongPassword)))) = Returns true)
    by (vm_compute; reflexivity).
  rewrite E in H. discriminate H.
  eexists. vm_compute. reflexivity.
Qed.

(** C4, amended: with a transport handle that is not nil, [Ping] does
    not panic; it returns false exactly when [Request] returns an error,
    which it logs and does not hand on, and true when [Request] returns
    a response, whose body it never reads. *)
Theorem Ping_reports_Request_error p c :
  Client' (self p) = Some c ->
  (fst (Ping p) = Returns false <->
     exists err, fst (Request "GET" "ping" ∅ p) = Returns (None, Some err))
  /\ (fst (Ping p) = Returns true <->
        exists resp, fst (Request "GET" "ping" ∅ p) = Returns (Some resp, None))
  /\ (forall why, fst (Ping p) <> Panics why)
  /\ (forall err, fst (Request "GET" "ping" ∅ p) = Returns (None, Some err) ->
        logged (snd (Ping p)) = (logged p ++ [errText err])%list).
Proof.
  intros Hc. rewrite Ping_run.
  pose proof (Request_returns "GET" "ping" ∅ p) as Hret.
  assert (Hnp : forall why, fst (Request "GET" "ping" ∅ p) <> Panics why).
  { intros why. rewrite Request_run, Hc.
    destruct (newRequest _ _ _ _) as [req|err]; simpl; [|discriminate].
    destruct (http.Do c req); discriminate. }
  destruct (fst (Request "GET" "ping" ∅ p)) as [[resp err]|why].
  - destruct (Hret _ eq_refl) as [[r [= -> ->]]|[e [= -> ->]]]; simpl.
    + split; [split; [discriminate|intros [e [=]]]|].
      split; [split; eauto|].
      split; [discriminate|intros e [=]].
    + split; [split; eauto|].
      split; [split; [discriminate|intros [r [=]]]|].
      split; [discriminate|intros e' [= <-]; reflexivity].
  - now destruct (Hnp why).
Qed.

Lemma Ping_reports_Request_error_witness :
  (fst (Ping (started (Some refusing))) = Returns false <->
     exists err, fst (Request "GET" "ping" ∅ (started (Some refusing))) = Returns (None, Some err))
  /\ (fst (Ping (started (Some refusing))) = Returns true <->
        exists resp, fst (Request "GET" "ping" ∅ (started (Some refusing)))
                     = Returns (Some resp, None))
  /\ (forall why, fst (Ping (started (Some refusing))) <> Panics why)
  /\ (forall err, fst (Request "GET" "ping" ∅ (started (Some refusing)))
                  = Returns (None, Some err) ->
        logged (snd (Ping (started (Some refusing))))
        = (logged (started (Some refusing)) ++ [errText err])%list).
Proof.
  apply (Ping_reports_Request_error (started (Some refusing)) refusing).
  reflexivity.
Defined.

(** The spec's scenario: a refused connection gives [false]. *)
Lemma Ping_connection_refused :
  fst (Ping (started (Some refusing))) = Returns false.
Proof. vm_compute; reflexivity. Qed.

(** ** Authenticate and the session *)

(** C9: when [Authenticate] returns an error, the session already holds
    the salt drawn by this call and the token of the password under that
    salt, not the pair it held before. *)
Theorem Authenticate_failure_overwrites password p err p' :
  Authenticate password p = (Returns (Some err), p') ->
  fst (generateSalt p) = Returns (salt (self p'))
  /\ token (self p') = md5_hex (password +:+ salt (self p'))
  /\ err = errorString "Authentication failed".
Proof.
  rewrite Authenticate_run. intros H.
  pose proof (Ping_self (derived password p)) as Hself.
  destruct (Ping (derived password p)) as [[[|]|why] q]; try discriminate.
  injection H as <- <-. simpl in Hself. rewrite Hself.
  unfold generateSalt. rewrite fill_run. simpl. auto.
Qed.

Lemma Authenticate_failure_overwrites_witness :
  Authenticate "sesame" (started (Some refusing))
  = (Returns (Some (errorString "Authentication failed")),
     snd (Authenticate "sesame" (started (Some refusing))))
  /\ fst (generateSalt (started (Some refusing)))
     = Returns (salt (self (snd (Authenticate "sesame" (started (Some refusing))))))
  /\ token (self (snd (Authenticate "sesame" (started (Some refusing)))))
     = md5_hex ("sesame" +:+ salt (self (snd (Authenticate "sesame" (started (Some refusing))))))
  /\ errorString "Authentication failed" = errorString "Authentication failed".
Proof.
  assert (H : Authenticate "sesame" (started (Some refusing))
              = (Returns (Some (errorString "Authentication failed")),
                 snd (Authenticate "sesame" (started (Some refusing)))))
    by (vm_compute; reflexivity).
  split; [exact H|].
  exact (Authenticate_failure_overwrites "sesame" (started (Some refusing)) _ _ H).
Defined.

(** C10: [Request], [Get] and [Ping] leave every field of the client as
    it was, also when they panic; [Authenticate] changes at most the
    salt and the token. *)
Theorem session_frame method endpoint params password p :
  self (snd (Request method endpoint params p)) = self p
  /\ self (snd (Get endpoint params p)) = self p
  /\ self (snd (Ping p)) = self p
  /\ (let s' := self (snd (Authenticate password p)) in
      Client' s' = Client' (self p) /\ BaseUrl s' = BaseUrl (self p)
      /\ User s' = User (self p) /\ ClientName s' = ClientName (self p)).
Proof.
  split; [now rewrite Request_state|].
  split; [apply Get_self|].
  split; [apply Ping_self|].
  rewrite Authenticate_run.
  pose proof (Ping_self (derived password p)) as Hself.
  destruct (Ping (derived password p)) as [[[|]|why] q]; simpl in *; rewrite Hself; auto.
Qed.

(** ** The derived credentials *)

(** C7 as stated fails in its last part: the two passwords above are
    different and have the same token under any one salt; from the same
    process state [Authenticate] gives them the same salt and the same
    token. *)
Lemma mismatched_pairs_share_a_token :
  ~ (forall password1 salt1 password2 salt2,
       (password1, salt1) <> (password2, salt2) ->
       tokenOf password1 salt1 <> tokenOf password2 salt2)
  /\ ~ (forall password1 password2 p,
          password1 <> password2 ->
          token (self (snd (Authenticate password1 p)))
          <> token (self (snd (Authenticate password2 p)))).
Proof.
  assert (Hdiff : collisionA <> collisionB).
  { intros E. apply (f_equal (String.get 19)) in E. vm_compute in E. discriminate E. }
  split; intros H.
  - apply (H collisionA "dkryFMT07e" collisionB "dkryFMT07e").
    + intros E. apply Hdiff. exact (f_equal fst E).
    + vm_compute. reflexivity.
  - apply (H collisionA collisionB (started (Some refusing)) Hdiff).
    vm_compute. reflexivity.
Qed.

Lemma le_bytes_length n x : length (md5.le_bytes n x) = n.
Proof. unfold md5.le_bytes. now rewrite length_map, length_seq. Qed.

Lemma le_bytes_range n x : Forall (fun b => 0 <= b < 256) (md5.le_bytes n x).
Proof.
  unfold md5.le_bytes. apply Forall_map, Forall_forall. intros i _.
  apply Z.mod_pos_bound. lia.
Qed.

Lemma md5_sum_length bs : length (md5.sum bs) = 16%nat.
Proof. unfold md5.sum. cbv zeta. now rewrite !length_app, !le_bytes_length. Qed.

Lemma md5_sum_range bs : Forall (fun b => 0 <= b < 256) (md5.sum bs).
Proof. unfold md5.sum. cbv zeta. repeat apply Forall_app_2; apply le_bytes_range. Qed.

Lemma hex_length bs : String.length (fmt.hex bs) = (2 * length bs)%nat.
Proof. induction bs as [|b bs IH]; simpl; [reflexivity|]. rewrite IH. lia. Qed.

Lemma hexdigit_lower n :
  0 <= n < 16 -> is_any_of "0123456789abcdef" (fmt.hexdigit n) = true.
Proof.
  intros Hn. rewrite <- (Z2Nat.id n) by lia.
  assert (Hk : (Z.to_nat n < 16)%nat) by lia.
  revert Hk. generalize (Z.to_nat n). intros k Hk.
  do 16 (destruct k as [|k]; [reflexivity|]). lia.
Qed.

Lemma hex_lower bs :
  Forall (fun b => 0 <= b < 256) bs -> lowerHex (fmt.hex bs) = true.
Proof.
  induction 1 as [|b bs Hb _ IH]; [reflexivity|].
  cbn [fmt.hex lowerHex]. rewrite IH, !hexdigit_lower; [reflexivity| |].
  - apply Z.mod_pos_bound. lia.
  - split; [apply Z.div_pos; lia|apply Z.div_lt_upper_bound; lia].
Qed.

Lemma list_ascii_length (s : string) : length (list_ascii_of_string s) = String.length s.
Proof. induction s; simpl; auto. Qed.

Lemma append_same_length_inj (a s a' s' : string) :
  String.length s = String.length s' ->
  a +:+ s = a' +:+ s' -> a = a' /\ s = s'.
Proof.
  intros Hlen H. apply (f_equal list_ascii_of_string) in H.
  rewrite !list_ascii_app in H.
  apply app_inj_2 in H as [Ha Hs]; [|now rewrite !list_ascii_length].
  split; now apply list_ascii_inj.
Qed.

(** C7, amended: whatever the password and however the call ends, the
    session then holds a salt of ten bytes of the 62-symbol alphabet,
    the one this call drew, and as token the 32 lowercase hexadecimal
    digits of the MD5 digest of the password followed by the salt.
    Another password or another salt of that length is hashed from
    another byte string. *)
Theorem Authenticate_derives_salt_and_token password p :
  let s' := self (snd (Authenticate password p)) in
  String.length (salt s') = 10%nat
  /\ allInCorpus (salt s') = true
  /\ String.length corpus = 62%nat
  /\ NoDup (list_ascii_of_string corpus)
  /\ fst (generateSalt p) = Returns (salt s')
  /\ token s' = fmt.hex (md5.sum (bytes_of password ++ bytes_of (salt s'))%list)
  /\ String.length (token s') = 32%nat
  /\ lowerHex (token s') = true
  /\ (forall password' salt',
        String.length salt' = 10%nat ->
        password' +:+ salt' = password +:+ salt s' ->
        password' = password /\ salt' = salt s').
Proof.
  cbv zeta. rewrite Authenticate_run.
  pose proof (Ping_self (derived password p)) as Hself.
  assert (E : self (snd (match Ping (derived password p) with
                         | (Returns true, p') => (Returns None, p')
                         | (Returns false, p') =>
                             (Returns (Some (errorString "Authentication failed")), p')
                         | (Panics why, p') => (@Panics (option error) why, p')
                         end)) = self (derived password p)).
  { destruct (Ping (derived password p)) as [[[|]|why] q]; exact Hself. }
  rewrite E. cbn [derived self salt token]. unfold tokenOf, md5_hex.
  rewrite bytes_of_app.
  split; [apply saltOf_length|].
  split; [apply saltOf_corpus|].
  split; [reflexivity|].
  split; [apply (bool_decide_eq_true_1 _); vm_compute; reflexivity|].
  split; [unfold generateSalt; now rewrite fill_run|].
  split; [reflexivity|].
  split; [now rewrite hex_length, md5_sum_length|].
  split; [apply hex_lower, md5_sum_range|].
  intros password' salt' Hlen Happ.
  apply append_same_length_inj; [|exact Happ]. now rewrite saltOf_length.
Qed.

(** ** The request path *)

Lemma is_dot_true c : path.is_dot c = true -> c = "."%char.
Proof. unfold path.is_dot. now intros H%Ascii.eqb_eq. Qed.

Lemma at_end_app seg r :
  noSlash seg -> seg <> [] -> path.at_end (seg ++ r)%list = false.
Proof. intros Hs Hne. destruct seg as [|c seg]; [done|]. simpl. now inversion Hs. Qed.

Lemma loop_copy seg r out d :
  noSlash seg -> path.at_end r = true ->
  path.loop true (seg ++ r)%list true out d = path.loop true r false (rev seg ++ out)%list d.
Proof.
  intros Hs Hr. revert out. induction Hs as [|c seg Hc Hs IH]; intros out.
  - destruct r as [|c r]; [reflexivity|]. simpl in Hr. simpl. now rewrite Hr.
  - cbn [app path.loop]. rewrite Hc, IH. cbn [rev]. now rewrite <- app_assoc.
Qed.

Lemma loop_segment seg r out :
  plainList seg -> path.at_end r = true ->
  path.loop true (seg ++ r)%list false out 1 =
    path.loop true r false
      (rev seg ++ (if (length out =? 1)%nat then out else "/"%char :: out))%list 1.
Proof.
  intros (Hs & Hne & Hdot & Hdotdot) Hr.
  destruct seg as [|c seg]; [done|].
  inversion Hs as [|? ? Hc Hs']; subst.
  assert (Hstart :
    path.loop true ((c :: seg) ++ r)%list false out 1 =
    path.loop true (seg ++ r)%list true
      (c :: (if (length out =? 1)%nat then out else "/"%char :: out)) 1).
  { cbn [app path.loop]. rewrite Hc.
    destruct (path.is_dot c) eqn:Hd; cbn [andb].
    - apply is_dot_true in Hd. subst c.
      destruct seg as [|c' seg]; [done|].
      inversion Hs' as [|? ? Hc' Hs'']; subst.
      cbn [app path.at_end]. rewrite Hc'.
      destruct (path.is_dot c') eqn:Hd'; cbn [andb].
      + apply is_dot_true in Hd'. subst c'.
        destruct seg as [|c'' seg]; [done|].
        inversion Hs'' as [|? ? Hc'' _]; subst.
        cbn [app path.at_end]. rewrite Hc''. cbn [andb negb orb].
        now destruct (length out =? 1)%nat.
      + cbn [negb orb]. now destruct (length out =? 1)%nat.
    - destruct (seg ++ r)%list; cbn [andb negb orb]; now destruct (length out =? 1)%nat. }
  rewrite Hstart, loop_copy by assumption.
  cbn [rev]. now rewrite <- app_assoc.
Qed.

Lemma loop_slashes k r inelem out d :
  path.loop true (repeat "/"%char (S k) ++ r)%list inelem out d = path.loop true r false out d.
Proof.
  revert inelem. induction k as [|k IH]; intros inelem.
  - cbn [repeat app path.loop]. now destruct inelem.
  - change (repeat "/"%char (S (S k))) with ("/"%char :: repeat "/"%char (S k)).
    cbn [app path.loop].
    replace (path.is_slash "/") with true by reflexivity.
    destruct inelem; apply IH.
Qed.

Lemma spaced_cons k seg items tail :
  (spaced ((k, seg) :: items) ++ tail)%list =
    (repeat "/"%char (S k) ++ seg ++ spaced items ++ tail)%list.
Proof.
  unfold spaced. cbn [flat_map fst snd]. now rewrite <- !app_assoc.
Qed.

Lemma at_end_spaced items tail :
  (tail = [] \/ exists k, tail = repeat "/"%char (S k)) ->
  path.at_end (spaced items ++ tail)%list = true.
Proof.
  intros Ht. destruct items as [|[k seg] items]; simpl.
  - destruct Ht as [->|[k ->]]; reflexivity.
  - reflexivity.
Qed.

Lemma loop_spaced items tail out :
  Forall (fun it => plainList (snd it)) items ->
  (tail = [] \/ exists k, tail = repeat "/"%char (S k)) ->
  (2 <= length out)%nat ->
  path.loop true (spaced items ++ tail)%list false out 1 =
    (rev (glued (map snd items)) ++ out)%list.
Proof.
  intros Hitems Ht. revert out.
  induction Hitems as [|[k seg] items Hseg _ IH]; intros out Hout.
  - simpl. destruct Ht as [->|[k ->]]; [reflexivity|].
    rewrite <- (app_nil_r (repeat _ _)), loop_slashes. reflexivity.
  - rewrite spaced_cons, loop_slashes.
    rewrite loop_segment; [|assumption|now apply at_end_spaced].
    cbn [map snd glued flat_map].
    replace (length out =? 1)%nat with false by (symmetry; apply Nat.eqb_neq; lia).
    rewrite IH by (rewrite length_app; simpl; lia).
    fold (glued (map snd items)).
    change ("/"%char :: seg ++ glued (map snd items))%list
      with (("/"%char :: seg) ++ glued (map snd items))%list.
    rewrite rev_app_distr. cbn [rev]. rewrite <- !app_assoc. reflexivity.
Qed.

(** [Clean] on a rooted path of plain elements, however many slashes
    separate them or follow the last one. *)
Lemma Clean_spaced k seg items tail :
  plainList seg ->
  Forall (fun it => plainList (snd it)) items ->
  (tail = [] \/ exists j, tail = repeat "/"%char (S j)) ->
  path.Clean (string_of_list_ascii (spaced ((k, seg) :: items) ++ tail)%list) =
    string_of_list_ascii (glued (seg :: map snd items)).
Proof.
  intros Hseg Hitems Ht. unfold path.Clean.
  rewrite list_ascii_of_string_of_list_ascii, spaced_cons.
  set (X := (seg ++ spaced items ++ tail)%list).
  change (repeat "/"%char (S k) ++ X)%list with ("/"%char :: (repeat "/"%char k ++ X))%list.
  cbv iota beta. replace (path.is_slash "/") with true by reflexivity. cbv iota zeta.
  change ("/"%char :: (repeat "/"%char k ++ X))%list with (repeat "/"%char (S k) ++ X)%list.
  rewrite loop_slashes. subst X.
  rewrite loop_segment; [|assumption|now apply at_end_spaced].
  cbn [length Nat.eqb].
  rewrite loop_spaced; [|assumption|assumption|
    rewrite length_app, length_rev; destruct Hseg as (_ & Hne & _); destruct seg; [done|simpl; lia]].
  assert (E : (rev (glued (map snd items)) ++ rev seg ++ ["/"%char])%list
              = rev (glued (seg :: map snd items))).
  { cbn [glued flat_map]. fold (glued (map snd items)).
    change ("/"%char :: seg ++ glued (map snd items))%list
      with (["/"%char] ++ seg ++ glued (map snd items))%list.
    rewrite !rev_app_distr. cbn [rev app]. reflexivity. }
  rewrite E.
  destruct (rev (glued (seg :: map snd items))) eqn:Hrev.
  - apply (f_equal (@length ascii)) in Hrev. rewrite length_rev in Hrev. discriminate Hrev.
  - rewrite <- Hrev, rev_involutive. reflexivity.
Qed.

Lemma plainSegment_list seg :
  plainSegment seg = true -> plainList (list_ascii_of_string seg).
Proof.
  unfold plainSegment. intros H.
  apply andb_prop in H as [H Hslash]. apply andb_prop in H as [H Hdd].
  apply andb_prop in H as [Hne Hd].
  repeat split.
  - clear Hne Hd Hdd. induction seg as [|c seg IH]; [constructor|].
    simpl in Hslash. apply negb_true_iff, orb_false_elim in Hslash as [Hc Hs].
    constructor; [exact Hc|]. apply IH. now rewrite Hs.
  - destruct seg; [discriminate Hne|discriminate].
  - intros E. apply (f_equal string_of_list_ascii) in E.
    rewrite string_of_list_ascii_of_string in E. subst seg. discriminate Hd.
  - intros E. apply (f_equal string_of_list_ascii) in E.
    rewrite string_of_list_ascii_of_string in E. subst seg. discriminate Hdd.
Qed.

Lemma plainSegments_list segs :
  forallb plainSegment segs = true ->
  Forall plainList (map list_ascii_of_string segs).
Proof.
  induction segs as [|seg segs IH]; [constructor|].
  simpl. intros [H1 H2]%andb_prop. constructor; auto using plainSegment_list.
Qed.

Lemma rootedPath_list segs :
  list_ascii_of_string (rootedPath segs) = glued (map list_ascii_of_string segs).
Proof.
  induction segs as [|seg segs IH]; [reflexivity|].
  cbn [rootedPath map glued flat_map]. rewrite !list_ascii_app, IH. reflexivity.
Qed.

Lemma rootedPath_glued segs :
  string_of_list_ascii (glued (map list_ascii_of_string segs)) = rootedPath segs.
Proof. rewrite <- rootedPath_list. apply string_of_list_ascii_of_string. Qed.

Lemma rootedPath_app a b : rootedPath (a ++ b)%list = rootedPath a +:+ rootedPath b.
Proof.
  induction a as [|seg a IH]; [reflexivity|].
  cbn [app rootedPath]. rewrite IH. apply list_ascii_inj.
  rewrite !list_ascii_app. now rewrite <- !app_assoc.
Qed.

Lemma Join_rootedPath e es : strings.Join (e :: es) "/" = e +:+ rootedPath es.
Proof.
  revert e. induction es as [|e' es IH]; intros e.
  - simpl. apply list_ascii_inj. rewrite list_ascii_app. simpl. now rewrite app_nil_r.
  - change (strings.Join (e :: e' :: es) "/") with (e +:+ "/" +:+ strings.Join (e' :: es) "/").
    rewrite IH. reflexivity.
Qed.

Lemma spaced_single segs :
  spaced (map (fun seg => (O, seg)) segs) = glued segs.
Proof. induction segs as [|seg segs IH]; [reflexivity|]. simpl. now rewrite <- IH. Qed.

Lemma spaced_app a b : spaced (a ++ b)%list = (spaced a ++ spaced b)%list.
Proof. apply flat_map_app. Qed.

Lemma joinItems_snd bs t e es :
  map snd (joinItems bs t e es) = map list_ascii_of_string (bs ++ "rest" :: e :: es)%list.
Proof.
  unfold joinItems. rewrite !map_app. cbn [map snd].
  rewrite !map_map. cbn [snd]. reflexivity.
Qed.

Lemma joinItems_plain bs t e es :
  forallb plainSegment bs = true -> forallb plainSegment (e :: es) = true ->
  Forall (fun it => plainList (snd it)) (joinItems bs t e es).
Proof.
  intros Hbs Hes. apply Forall_map. rewrite joinItems_snd.
  apply plainSegments_list. rewrite forallb_app. rewrite Hbs.
  cbn [forallb] in *. now rewrite Hes.
Qed.

Lemma Clean_items it items :
  Forall (fun it => plainList (snd it)) (it :: items) ->
  path.Clean (string_of_list_ascii (spaced (it :: items))) =
    string_of_list_ascii (glued (map snd (it :: items))).
Proof.
  intros H. inversion H as [|? ? Hseg Hitems]; subst. destruct it as [k seg].
  rewrite <- (app_nil_r (spaced _)). apply Clean_spaced; auto.
Qed.

Lemma spaced_joinItems bs t e es :
  spaced (joinItems bs t e es) =
    (glued (map list_ascii_of_string bs)
     ++ repeat "/"%char (S t) ++ list_ascii_of_string "rest"
     ++ "/"%char :: "/"%char :: list_ascii_of_string e
     ++ glued (map list_ascii_of_string es))%list.
Proof.
  unfold joinItems. rewrite spaced_app, <- (map_map list_ascii_of_string (fun seg => (O, seg))).
  rewrite spaced_single.
  rewrite <- (map_map list_ascii_of_string (fun seg => (O, seg)) es).
  unfold spaced at 1. cbn [flat_map fst snd].
  fold (spaced (map (fun seg => (O, seg)) (map list_ascii_of_string es))).
  rewrite spaced_single. rewrite <- !app_assoc. reflexivity.
Qed.

Lemma Clean_joinItems bs t e es :
  forallb plainSegment bs = true -> forallb plainSegment (e :: es) = true ->
  path.Clean (string_of_list_ascii (spaced (joinItems bs t e es)))
  = rootedPath (bs ++ "rest" :: e :: es)%list.
Proof.
  intros Hbs Hes.
  pose proof (joinItems_plain bs t e es Hbs Hes) as Hp.
  destruct (joinItems bs t e es) as [|it items] eqn:E.
  - destruct bs; discriminate E.
  - rewrite Clean_items by assumption. rewrite <- E, joinItems_snd.
    apply rootedPath_glued.
Qed.

(** [path.Join] of a rooted base path, the protocol prefix and an
    endpoint, all of plain elements. *)
Lemma Join_plain bs (trailing : bool) e es :
  forallb plainSegment bs = true -> forallb plainSegment (e :: es) = true ->
  path.Join [rootedPath bs +:+ (if trailing then "/" else ""); "/rest/";
             strings.Join (e :: es) "/"]
  = rootedPath (bs ++ "rest" :: e :: es)%list.
Proof.
  intros Hbs Hes. rewrite Join_rootedPath.
  assert (Hlist : forall input t,
            list_ascii_of_string input = spaced (joinItems bs t e es) ->
            path.Clean input = rootedPath (bs ++ "rest" :: e :: es)%list).
  { intros input t E. rewrite <- (Clean_joinItems bs t e es Hbs Hes), <- E.
    now rewrite string_of_list_ascii_of_string. }
  cbn [path.Join path.join_slash].
  destruct bs as [|b bs]; [destruct trailing|].
  - replace (String.eqb (rootedPath [] +:+ "/") "") with false by reflexivity.
    apply (Hlist _ 2%nat). rewrite spaced_joinItems, !list_ascii_app, !rootedPath_list.
    cbn. reflexivity.
  - replace (String.eqb (rootedPath [] +:+ "") "") with true by reflexivity.
    replace (String.eqb "/rest/" "") with false by reflexivity.
    apply (Hlist _ O). rewrite spaced_joinItems, !list_ascii_app, !rootedPath_list.
    cbn. reflexivity.
  - replace (String.eqb (rootedPath (b :: bs) +:+ (if trailing then "/" else "")) "")
      with false by reflexivity.
    apply (Hlist _ (if trailing then 2%nat else 1%nat)).
    rewrite spaced_joinItems, !list_ascii_app, !rootedPath_list.
    destruct trailing; cbn; rewrite <- !app_assoc; reflexivity.
Qed.

(** ** The query on the wire *)

Lemma valuesAt_Add k v q key :
  valuesAt (url.Add k v q) key =
    if String.eqb k key then (valuesAt q key ++ [v])%list else valuesAt q key.
Proof.
  unfold valuesAt, url.Add.
  destruct (String.eqb_spec k key) as [->|Hne].
  - now rewrite lookup_insert_eq.
  - now rewrite lookup_insert_ne.
Qed.

Lemma valuesAt_addAll l q key :
  valuesAt (addAll l q) key = (valuesAt q key ++ valuesOf key l)%list.
Proof.
  revert q. induction l as [|[k v] l IH]; intros q.
  - simpl. now rewrite app_nil_r.
  - cbn [addAll fold_left valuesOf fst snd]. fold (addAll l (url.Add k v q)).
    rewrite IH, valuesAt_Add.
    destruct (String.eqb k key); [now rewrite <- app_assoc|reflexivity].
Qed.

Lemma valuesOf_app key a b :
  valuesOf key (a ++ b)%list = (valuesOf key a ++ valuesOf key b)%list.
Proof.
  induction a as [|kv a IH]; [reflexivity|].
  cbn [app valuesOf]. destruct (String.eqb (fst kv) key); simpl; now rewrite IH.
Qed.

Lemma valuesOf_absent key l :
  key ∉ l.*1 -> valuesOf key l = [].
Proof.
  induction l as [|[k v] l IH]; [reflexivity|].
  rewrite fmap_cons. cbn [fst valuesOf snd]. intros Hn.
  apply not_elem_of_cons in Hn as [Hne Hn].
  destruct (String.eqb_spec k key); [congruence|auto].
Qed.

Lemma valuesOf_unique key v l :
  NoDup l.*1 -> (key, v) ∈ l -> valuesOf key l = [v].
Proof.
  induction l as [|[k w] l IH]; intros Hnd Hin.
  - now apply elem_of_nil in Hin.
  - rewrite fmap_cons in Hnd. cbn [fst] in Hnd. apply NoDup_cons in Hnd as [Hk Hnd].
    cbn [valuesOf fst snd]. apply elem_of_cons in Hin as [[= <- <-]|Hin].
    + rewrite String.eqb_refl. now rewrite valuesOf_absent.
    + destruct (String.eqb_spec k key) as [->|Hne]; [|auto].
      exfalso. apply Hk. apply list_elem_of_fmap. exists (key, v). auto.
Qed.

Lemma query_addAll s params q :
  query s params q = addAll (mandated s ++ map_to_list params)%list q.
Proof. unfold addAll. rewrite fold_left_app. reflexivity. Qed.

(** *** Escaping *)

Lemma QueryEscape_cons c s :
  url.QueryUnescape (url.QueryEscape (String c s))
  = option_map (String c) (url.QueryUnescape (url.QueryEscape s))
  /\ noneOf "&=;" (url.QueryEscape (String c s)) = noneOf "&=;" (url.QueryEscape s).
Proof.
  destruct c as [b0 b1 b2 b3 b4 b5 b6 b7].
  destruct b0, b1, b2, b3, b4, b5, b6, b7; split; reflexivity.
Qed.

Lemma QueryUnescape_QueryEscape s : url.QueryUnescape (url.QueryEscape s) = Some s.
Proof.
  induction s as [|c s IH]; [reflexivity|].
  destruct (QueryEscape_cons c s) as [-> _]. now rewrite IH.
Qed.

Lemma QueryEscape_reserved s : noneOf "&=;" (url.QueryEscape s) = true.
Proof.
  induction s as [|c s IH]; [reflexivity|].
  destruct (QueryEscape_cons c s) as [_ ->]. exact IH.
Qed.

Lemma noneOf_byte set s c :
  noneOf set s = true -> is_any_of set c = true -> strings.ContainsByte s c = false.
Proof.
  intros Hs Hc. induction s as [|d s IH]; [reflexivity|].
  cbn [noneOf strings.ContainsByte] in *. apply andb_prop in Hs as [Hd Hs].
  rewrite IH by assumption. rewrite orb_false_r.
  destruct (Ascii.eqb_spec d c) as [->|]; [|reflexivity].
  rewrite Hc in Hd. discriminate Hd.
Qed.

Lemma QueryEscape_byte s c :
  is_any_of "&=;" c = true -> strings.ContainsByte (url.QueryEscape s) c = false.
Proof. apply noneOf_byte, QueryEscape_reserved. Qed.

Lemma ContainsByte_app a b c :
  strings.ContainsByte (a +:+ b) c = strings.ContainsByte a c || strings.ContainsByte b c.
Proof. induction a as [|d a IH]; [reflexivity|]. simpl. rewrite IH. apply orb_assoc. Qed.

Lemma Cut_at a b c :
  strings.ContainsByte a c = false ->
  strings.Cut (a +:+ String c b) c = (a, b, true).
Proof.
  induction a as [|d a IH]; intros Ha.
  - simpl. now rewrite Ascii.eqb_refl.
  - simpl in *. apply orb_false_elim in Ha as [Hd Ha]. rewrite Hd, IH by assumption.
    reflexivity.
Qed.

Lemma split_whole p c :
  strings.ContainsByte p c = false -> url.split p c = [p].
Proof.
  induction p as [|d p IH]; intros Hp; [reflexivity|].
  simpl in *. apply orb_false_elim in Hp as [Hd Hp]. rewrite Hd, IH by assumption.
  reflexivity.
Qed.

Lemma split_at p r c :
  strings.ContainsByte p c = false ->
  url.split (p +:+ String c r) c = p :: url.split r c.
Proof.
  induction p as [|d p IH]; intros Hp.
  - simpl. now rewrite Ascii.eqb_refl.
  - simpl in *. apply orb_false_elim in Hp as [Hd Hp]. rewrite Hd, IH by assumption.
    reflexivity.
Qed.

Lemma piece_no_amp kv : strings.ContainsByte (piece kv) "&"%char = false.
Proof.
  unfold piece. rewrite !ContainsByte_app, !QueryEscape_byte by reflexivity.
  reflexivity.
Qed.

Lemma parsePair_piece kv : url.parsePair (piece kv) = Some kv.
Proof.
  unfold url.parsePair.
  assert (Hsemi : strings.ContainsByte (piece kv) ";"%char = false).
  { unfold piece. rewrite !ContainsByte_app, !QueryEscape_byte by reflexivity.
    reflexivity. }
  rewrite Hsemi.
  assert (Hcut : strings.Cut (piece kv) "="%char
                 = (url.QueryEscape (fst kv), url.QueryEscape (snd kv), true)).
  { unfold piece. apply Cut_at. now apply QueryEscape_byte. }
  assert (Hne : String.eqb (piece kv) "" = false).
  { unfold piece. destruct (url.QueryEscape (fst kv)); reflexivity. }
  rewrite Hne, Hcut, !QueryUnescape_QueryEscape. now destruct kv.
Qed.

Lemma split_Join ps :
  ps <> [] ->
  url.split (strings.Join (map piece ps) "&") "&"%char = map piece ps.
Proof.
  induction ps as [|kv ps IH]; [done|]. intros _.
  destruct ps as [|kv' ps].
  - simpl. apply split_whole, piece_no_amp.
  - change (strings.Join (map piece (kv :: kv' :: ps)) "&")
      with (piece kv +:+ String "&"%char (strings.Join (map piece (kv' :: ps)) "&")).
    rewrite split_at by apply piece_no_amp. rewrite IH by discriminate. reflexivity.
Qed.

Lemma fold_addPiece ps q :
  fold_left url.addPiece (map piece ps) q = addAll ps q.
Proof.
  revert q. induction ps as [|kv ps IH]; intros q; [reflexivity|].
  cbn [map fold_left addAll]. unfold url.addPiece at 2. rewrite parsePair_piece.
  destruct kv as [k v]. apply IH.
Qed.

Lemma parseQuery_Join ps :
  url.parseQuery (strings.Join (map piece ps) "&") = addAll ps ∅.
Proof.
  unfold url.parseQuery. destruct ps as [|kv ps]; [reflexivity|].
  rewrite split_Join by discriminate. apply fold_addPiece.
Qed.

Lemma pieces_pairsOf v : url.pieces v = map piece (pairsOf v).
Proof.
  unfold url.pieces, pairsOf. generalize (merge_sort String.le (map_to_list v).*1).
  intros keys. induction keys as [|k keys IH]; [reflexivity|].
  cbn [flat_map]. rewrite map_app, <- IH, map_map. reflexivity.
Qed.

Lemma valuesOf_pairs key k (xs : list string) :
  valuesOf key (map (fun x => (k, x)) xs) = if String.eqb k key then xs else [].
Proof.
  induction xs as [|x xs IH]; [now destruct (String.eqb k key)|].
  cbn [map valuesOf fst snd]. rewrite IH. now destruct (String.eqb k key).
Qed.

Lemma valuesOf_flat key (f : string -> list string) keys :
  NoDup keys ->
  valuesOf key (flat_map (fun k => map (fun x => (k, x)) (f k)) keys)
  = if decide (key ∈ keys) then f key else [].
Proof.
  induction keys as [|k keys IH]; intros Hnd; [reflexivity|].
  apply NoDup_cons in Hnd as [Hk Hnd].
  cbn [flat_map]. rewrite valuesOf_app, valuesOf_pairs, IH by assumption.
  destruct (String.eqb_spec k key) as [->|Hne].
  - destruct (decide (key ∈ keys)) as [Hin|_]; [contradiction|].
    destruct (decide (key ∈ key :: keys)) as [_|Hn]; [apply app_nil_r|].
    exfalso. apply Hn, elem_of_cons. auto.
  - destruct (decide (key ∈ keys)) as [Hin|Hin];
      destruct (decide (key ∈ k :: keys)) as [Hin'|Hin']; try reflexivity.
    + exfalso. apply Hin', elem_of_cons. auto.
    + exfalso. apply elem_of_cons in Hin' as [->|H]; congruence.
Qed.

Lemma valuesOf_pairsOf v key : valuesOf key (pairsOf v) = valuesAt v key.
Proof.
  unfold pairsOf. rewrite valuesOf_flat.
  - destruct (decide (key ∈ merge_sort String.le (map_to_list v).*1)) as [Hin|Hin];
      [reflexivity|].
    unfold valuesAt. destruct (v !! key) as [xs|] eqn:E; [|reflexivity].
    exfalso. apply Hin. rewrite merge_sort_Permutation.
    apply list_elem_of_fmap. exists (key, xs). split; [reflexivity|].
    now apply elem_of_map_to_list.
  - rewrite merge_sort_Permutation. apply NoDup_fst_map_to_list.
Qed.

(** What the server reads from an encoded query is what was encoded. *)
Lemma parseQuery_Encode v key :
  valuesAt (url.parseQuery (url.Encode v)) key = valuesAt v key.
Proof.
  unfold url.Encode. rewrite pieces_pairsOf, parseQuery_Join, valuesAt_addAll.
  rewrite valuesOf_pairsOf. reflexivity.
Qed.

Lemma valuesOf_elem key v l : (key, v) ∈ l -> v ∈ valuesOf key l.
Proof.
  induction l as [|[k w] l IH]; intros Hin.
  - now apply elem_of_nil in Hin.
  - cbn [valuesOf fst snd]. apply elem_of_cons in Hin as [[= <- <-]|Hin].
    + rewrite String.eqb_refl. apply elem_of_cons. auto.
    + destruct (String.eqb k key); [apply elem_of_cons|]; auto.
Qed.

(** The query a server parses from a request built by [Request]: for
    every key, the values the URL already had, then the protocol's, then
    the caller's. *)
Lemma newRequest_query s method endpoint params req :
  newRequest s method endpoint params = ok req ->
  exists u req0,
    requestURL s endpoint = ok u
    /\ http.NewRequest method (url.String u) = ok req0
    /\ forall key,
         valuesAt (url.Query (http.URL req)) key =
           (valuesAt (url.Query (http.URL req0)) key
            ++ valuesOf key (mandated s) ++ valuesOf key (map_to_list params))%list.
Proof.
  unfold newRequest.
  destruct (requestURL s endpoint) as [u|err] eqn:Hu; [|discriminate].
  destruct (http.NewRequest method (url.String u)) as [req0|err] eqn:Hreq0; [|discriminate].
  intros [= <-]. exists u, req0. split; [reflexivity|]. split; [exact Hreq0|].
  intros key. unfold withRawQuery, url.Query. cbn [http.URL url.withQuery url.RawQuery].
  rewrite parseQuery_Encode, query_addAll, valuesAt_addAll, valuesOf_app. reflexivity.
Qed.

(** C5: the query of every request [Request] builds gives the key [f]
    the value [json], [v] the value [1.8.0], [c] the client name, [u] the
    user, [t] the token and [s] the salt, and gives every key of the
    caller's map the caller's value, as a server reads them from the
    encoded query string. *)
Theorem request_query_complete s method endpoint params req :
  newRequest s method endpoint params = ok req ->
  let q := url.Query (http.URL req) in
  "json" ∈ valuesAt q "f"
  /\ "1.8.0" ∈ valuesAt q "v"
  /\ ClientName s ∈ valuesAt q "c"
  /\ User s ∈ valuesAt q "u"
  /\ token s ∈ valuesAt q "t"
  /\ salt s ∈ valuesAt q "s"
  /\ (forall key value, params !! key = Some value -> value ∈ valuesAt q key).
Proof.
  intros H. destruct (newRequest_query _ _ _ _ _ H) as (u & req0 & _ & _ & Hq).
  cbv zeta.
  assert (Hm : forall key value,
            value ∈ valuesOf key (mandated s) ->
            value ∈ valuesAt (url.Query (http.URL req)) key).
  { intros key value Hin. rewrite Hq, !elem_of_app. auto. }
  repeat (split; [apply Hm; apply elem_of_cons; left; reflexivity|]).
  intros key value Hin. rewrite Hq, !elem_of_app. right; right.
  apply valuesOf_elem. now apply elem_of_map_to_list.
Qed.

Lemma request_query_complete_witness :
  exists req,
    newRequest (session None) "GET" "getAlbum" sampleParams = ok req
    /\ "json" ∈ valuesAt (url.Query (http.URL req)) "f"
    /\ "1.8.0" ∈ valuesAt (url.Query (http.URL req)) "v"
    /\ "app" ∈ valuesAt (url.Query (http.URL req)) "c"
    /\ "alice" ∈ valuesAt (url.Query (http.URL req)) "u"
    /\ "" ∈ valuesAt (url.Query (http.URL req)) "t"
    /\ "" ∈ valuesAt (url.Query (http.URL req)) "s"
    /\ (forall key value, sampleParams !! key = Some value ->
                          value ∈ valuesAt (url.Query (http.URL req)) key).
Proof.
  eexists. split; [vm_compute; reflexivity|].
  apply (request_query_complete (session None) "GET" "getAlbum" sampleParams).
  vm_compute; reflexivity.
Defined.

Lemma mandated_keys s : NoDup (mandated s).*1.
Proof.
  change ((mandated s).*1) with ["f"; "v"; "c"; "u"; "t"; "s"].
  apply (bool_decide_eq_true_1 _). vm_compute. reflexivity.
Qed.

(** C6 as stated fails: with the user [alice] and the caller's map
    [u = admin], the call is not rejected and the query of the request
    is [c=app&f=json&s=&t=&u=alice&u=admin&v=1.8.0]; the first value of
    [u] is the protocol's and the last is the caller's, so the mandated
    value does not have precedence for every reader of the query. *)
Lemma caller_value_shadows_mandated :
  ~ (forall s method endpoint params req key mine theirs,
       newRequest s method endpoint params = ok req ->
       (key, mine) ∈ mandated s ->
       params !! key = Some theirs ->
       url.Get (url.Query (http.URL req)) key = mine
       /\ lastValue (url.Query (http.URL req)) key = mine).
Proof.
  intros H.
  destruct (newRequest (session None) "GET" "ping" shadowing) as [req|err] eqn:E;
    [|vm_compute in E; discriminate E].
  destruct (H (session None) "GET" "ping" shadowing req "u" "alice" "admin" E) as [_ Hlast].
  - unfold mandated. do 3 apply elem_of_cons, or_intror. apply elem_of_cons. now left.
  - vm_compute. reflexivity.
  - vm_compute in E. injection E as <-. vm_compute in Hlast. discriminate Hlast.
Qed.

(** C6, amended: a caller's map that has one of the six protocol keys
    is never rejected: whether a request is built does not depend on
    the map.  The query then gives that key the values the URL already
    had, then the protocol's value, then the caller's: both are sent.
    A reader of the first value, as [Values.Get] is, finds the
    protocol's value whenever the base URL has no query value for the
    key; a reader of the last value finds the caller's. *)
Theorem colliding_key_keeps_both_values s method endpoint params req key mine theirs :
  newRequest s method endpoint params = ok req ->
  (key, mine) ∈ mandated s ->
  params !! key = Some theirs ->
  (forall params', exists req', newRequest s method endpoint params' = ok req')
  /\ exists u req0 pre,
       requestURL s endpoint = ok u
       /\ http.NewRequest method (url.String u) = ok req0
       /\ pre = valuesAt (url.Query (http.URL req0)) key
       /\ valuesAt (url.Query (http.URL req)) key = (pre ++ [mine; theirs])%list
       /\ (pre = [] -> url.Get (url.Query (http.URL req)) key = mine)
       /\ lastValue (url.Query (http.URL req)) key = theirs.
Proof.
  intros H Hmine Htheirs.
  destruct (newRequest_query _ _ _ _ _ H) as (u & req0 & Hu & Hreq0 & Hq).
  split.
  { intros params'. unfold newRequest. rewrite Hu, Hreq0. eauto. }
  exists u, req0, (valuesAt (url.Query (http.URL req0)) key).
  split; [exact Hu|]. split; [exact Hreq0|]. split; [reflexivity|].
  assert (E : valuesAt (url.Query (http.URL req)) key =
              (valuesAt (url.Query (http.URL req0)) key ++ [mine; theirs])%list).
  { rewrite Hq.
    rewrite (valuesOf_unique key mine (mandated s)) by (apply mandated_keys || assumption).
    rewrite (valuesOf_unique key theirs (map_to_list params));
      [reflexivity|apply NoDup_fst_map_to_list|now apply elem_of_map_to_list]. }
  split; [exact E|].
  split.
  - intros Hpre. rewrite Hpre in E. unfold valuesAt in E. unfold url.Get.
    destruct (url.Query (http.URL req) !! key) as [[|x xs]|]; simpl in E; congruence.
  - unfold lastValue. rewrite E.
    change [mine; theirs] with ([mine] ++ [theirs])%list.
    rewrite app_assoc, last_snoc. reflexivity.
Qed.

Lemma colliding_key_keeps_both_values_witness :
  exists req,
    newRequest (session None) "GET" "ping" shadowing = ok req
    /\ url.RawQuery (http.URL req) = "c=app&f=json&s=&t=&u=alice&u=admin&v=1.8.0"
    /\ (forall params', exists req', newRequest (session None) "GET" "ping" params' = ok req')
    /\ valuesAt (url.Query (http.URL req)) "u" = ["alice"; "admin"]
    /\ url.Get (url.Query (http.URL req)) "u" = "alice"
    /\ lastValue (url.Query (http.URL req)) "u" = "admin".
Proof.
  eexists.
  assert (H : newRequest (session None) "GET" "ping" shadowing = ok _)
    by (vm_compute; reflexivity).
  split; [exact H|]. split; [reflexivity|].
  destruct (colliding_key_keeps_both_values (session None) "GET" "ping" shadowing _
              "u" "alice" "admin" H) as (Hany & u & req0 & pre & Hu & Hreq0 & Hpre & Hq & Hget & Hlast).
  - unfold mandated. do 3 apply elem_of_cons, or_intror. apply elem_of_cons. now left.
  - vm_compute; reflexivity.
  - split; [exact Hany|]. split; [vm_compute; reflexivity|].
    split; [vm_compute; reflexivity|exact Hlast].
Defined.

Lemma collision_scenario :
  match newRequest (session None) "GET" "getAlbum" sampleParams with
  | inl req => url.RawQuery (http.URL req)
  | inr _ => ""
  end = "c=app&f=json&f=xml&id=a+b%26c&s=&t=&u=alice&v=1.8.0".
Proof. vm_compute; reflexivity. Qed.

(** The [range] over the caller's map may visit its entries in any
    order: the query is the same. *)
Lemma Add_commute k1 v1 k2 v2 (q : url.Values) :
  k1 <> k2 -> url.Add k1 v1 (url.Add k2 v2 q) = url.Add k2 v2 (url.Add k1 v1 q).
Proof.
  intros Hne. unfold url.Add.
  rewrite !lookup_insert_ne by congruence. now apply insert_insert_ne.
Qed.

Lemma range_order_irrelevant (l l' : list (string * string)) (q : url.Values) :
  l ≡ₚ l' -> NoDup l.*1 -> addAll l q = addAll l' q.
Proof.
  intros Hperm. revert q.
  induction Hperm as [|kv l l' _ IH|kv1 kv2 l|l l' l'' H1 IH1 H2 IH2]; intros q Hnd.
  - reflexivity.
  - rewrite fmap_cons in Hnd. apply NoDup_cons in Hnd as [_ Hnd].
    cbn [addAll fold_left]. apply IH, Hnd.
  - rewrite !fmap_cons in Hnd. apply NoDup_cons in Hnd as [Hne _].
    cbn [addAll fold_left]. rewrite Add_commute; [reflexivity|].
    intros E. apply Hne. rewrite E. apply elem_of_cons. auto.
  - rewrite IH1 by assumption. apply IH2. now rewrite <- H1.
Qed.

Lemma query_any_order s params q (visited : list (string * string)) :
  visited ≡ₚ map_to_list params ->
  addAll (mandated s ++ visited)%list q = query s params q.
Proof.
  intros Hperm. rewrite query_addAll. unfold addAll. rewrite !fold_left_app.
  apply range_order_irrelevant; [exact Hperm|].
  rewrite Hperm. apply NoDup_fst_map_to_list.
Qed.

(** ** From the built URL to the request *)

Lemma allBytes_app P a b : allBytes P (a +:+ b) = allBytes P a && allBytes P b.
Proof. induction a as [|c a IH]; [reflexivity|]. simpl. rewrite IH. apply andb_assoc. Qed.

Lemma allBytes_impl (P Q : ascii -> bool) s :
  (forall c, P c = true -> Q c = true) -> allBytes P s = true -> allBytes Q s = true.
Proof.
  intros HPQ. induction s as [|c s IH]; [reflexivity|].
  simpl. intros [Hc Hs]%andb_prop. rewrite (HPQ c Hc). auto.
Qed.

Lemma allBytes_no P s c :
  allBytes P s = true -> P c = false -> strings.ContainsByte s c = false.
Proof.
  intros Hs Hc. induction s as [|d s IH]; [reflexivity|].
  simpl in *. apply andb_prop in Hs as [Hd Hs]. rewrite IH by assumption.
  destruct (Ascii.eqb_spec d c) as [->|]; [congruence|reflexivity].
Qed.

Lemma allBytes_noCTL s :
  allBytes inert s = true -> url.stringContainsCTLByte s = false.
Proof.
  induction s as [|d s IH]; [reflexivity|].
  simpl. intros [Hd Hs]%andb_prop. rewrite IH by assumption.
  unfold inert in Hd. apply andb_prop in Hd as [_ Hd].
  apply negb_true_iff in Hd. now rewrite Hd.
Qed.

Lemma Cut_none s c : strings.ContainsByte s c = false -> strings.Cut s c = (s, "", false).
Proof.
  induction s as [|d s IH]; [reflexivity|].
  simpl. intros [Hd Hs]%orb_false_elim. rewrite Hd, IH by assumption. reflexivity.
Qed.

Lemma schemeByte_inert c : schemeByte c = true -> inert c = true.
Proof.
  destruct c as [b0 b1 b2 b3 b4 b5 b6 b7].
  destruct b0, b1, b2, b3, b4, b5, b6, b7; intros H; try reflexivity; discriminate H.
Qed.

Lemma hostByte_inert c : url.host_byte_ok c = true -> inert c = true.
Proof.
  destruct c as [b0 b1 b2 b3 b4 b5 b6 b7].
  destruct b0, b1, b2, b3, b4, b5, b6, b7; intros H; try reflexivity; discriminate H.
Qed.

Lemma hostByte_no_slash c : url.host_byte_ok c = true -> Ascii.eqb c "/"%char = false.
Proof.
  destruct c as [b0 b1 b2 b3 b4 b5 b6 b7].
  destruct b0, b1, b2, b3, b4, b5, b6, b7; intros H; try reflexivity; discriminate H.
Qed.

Lemma all_host_bytes_allBytes h : url.all_host_bytes h = allBytes url.host_byte_ok h.
Proof. induction h as [|c h IH]; [reflexivity|]. simpl. now rewrite IH. Qed.

(** Escaping a path: the escaped text unescapes to the path and is
    inert; a slash stays a slash. *)
Lemma escapePath_cons c s :
  url.unescape (url.escape (String c s) url.encodePath) url.encodePath
  = option_map (String c) (url.unescape (url.escape s url.encodePath) url.encodePath)
  /\ allBytes inert (url.escape (String c s) url.encodePath)
     = allBytes inert (url.escape s url.encodePath).
Proof.
  destruct c as [b0 b1 b2 b3 b4 b5 b6 b7].
  destruct b0, b1, b2, b3, b4, b5, b6, b7; split; reflexivity.
Qed.

Lemma unescape_escapePath s :
  url.unescape (url.escape s url.encodePath) url.encodePath = Some s.
Proof.
  induction s as [|c s IH]; [reflexivity|].
  destruct (escapePath_cons c s) as [-> _]. now rewrite IH.
Qed.

Lemma escapePath_inert s : allBytes inert (url.escape s url.encodePath) = true.
Proof.
  induction s as [|c s IH]; [reflexivity|].
  destruct (escapePath_cons c s) as [_ ->]. exact IH.
Qed.

Lemma getScheme_from_valid sch rest :
  allBytes schemeByte sch = true ->
  url.getScheme_from (sch +:+ String ":"%char rest) false = url.HasScheme sch rest.
Proof.
  induction sch as [|c sch IH]; intros H; [reflexivity|].
  cbn [allBytes] in H. apply andb_prop in H as [Hc Hs].
  change (String c sch +:+ String ":"%char rest) with (String c (sch +:+ String ":"%char rest)).
  cbn [url.getScheme_from]. rewrite (IH Hs).
  revert Hc. destruct c as [b0 b1 b2 b3 b4 b5 b6 b7].
  destruct b0, b1, b2, b3, b4, b5, b6, b7; intros Hc; try reflexivity; discriminate Hc.
Qed.

Lemma getScheme_valid sch rest :
  validScheme sch = true ->
  url.getScheme (sch +:+ String ":"%char rest) = Some (sch, rest).
Proof.
  destruct sch as [|c sch]; [discriminate|].
  cbn [validScheme]. intros [Hc Hs]%andb_prop.
  unfold url.getScheme.
  change (String c sch +:+ String ":"%char rest) with (String c (sch +:+ String ":"%char rest)).
  cbn [url.getScheme_from].
  cbn [allBytes] in Hs. apply andb_prop in Hs as [_ Hs].
  rewrite (getScheme_from_valid sch rest Hs).
  revert Hc. destruct c as [b0 b1 b2 b3 b4 b5 b6 b7].
  destruct b0, b1, b2, b3, b4, b5, b6, b7; intros Hc; try reflexivity; discriminate Hc.
Qed.

Lemma ToLower_scheme sch : allBytes schemeByte sch = true -> strings.ToLower sch = sch.
Proof.
  induction sch as [|c sch IH]; [reflexivity|].
  cbn [allBytes strings.ToLower]. intros [Hc Hs]%andb_prop. rewrite (IH Hs). f_equal.
  revert Hc. destruct c as [b0 b1 b2 b3 b4 b5 b6 b7].
  destruct b0, b1, b2, b3, b4, b5, b6, b7; intros Hc; try reflexivity; discriminate Hc.
Qed.

Lemma HasSuffixByte_no s c :
  strings.ContainsByte s c = false -> strings.HasSuffixByte s c = false.
Proof.
  induction s as [|d s IH]; [reflexivity|].
  simpl. intros [Hd Hs]%orb_false_elim. destruct s; [exact Hd|]. now apply IH.
Qed.

Lemma substring_all s : String.substring 0 (String.length s) s = s.
Proof. induction s as [|c s IH]; [reflexivity|]. simpl. now rewrite IH. Qed.

Lemma substring_skip2 x :
  String.substring 2 (String.length ("//" +:+ x) - 2) ("//" +:+ x) = x.
Proof. simpl. rewrite ?Nat.sub_0_r. apply substring_all. Qed.

Lemma lastColon_none h :
  url.lastColon h = None -> strings.HasSuffixByte h ":"%char = false.
Proof.
  induction h as [|d h IH]; [reflexivity|].
  cbn [url.lastColon]. destruct (url.lastColon h) eqn:E; [discriminate|].
  destruct (Ascii.eqb d ":"%char) eqn:Hd; [discriminate|]. intros _.
  cbn [strings.HasSuffixByte]. destruct h; [exact Hd|]. now apply IH.
Qed.

Lemma lastColon_suffix h port :
  url.lastColon h = Some port -> String.eqb port "" = false ->
  strings.HasSuffixByte h ":"%char = false.
Proof.
  revert port. induction h as [|c h IH]; intros port; [discriminate|].
  cbn [url.lastColon]. destruct (url.lastColon h) as [p|] eqn:E.
  - intros [= <-] Hp. destruct h as [|d h]; [discriminate E|].
    change (strings.HasSuffixByte (String c (String d h)) ":"%char)
      with (strings.HasSuffixByte (String d h) ":"%char).
    now apply (IH p).
  - destruct (Ascii.eqb c ":"%char) eqn:Hc; [|discriminate].
    intros [= <-] Hp. destruct h as [|d h]; [discriminate Hp|].
    change (strings.HasSuffixByte (String c (String d h)) ":"%char)
      with (strings.HasSuffixByte (String d h) ":"%char).
    now apply lastColon_none.
Qed.

Lemma hostOk_authority h :
  hostOk h = true ->
  url.parseAuthority h = ok h /\ http.removeEmptyPort h = h
  /\ String.eqb h "" = false /\ allBytes url.host_byte_ok h = true.
Proof.
  unfold hostOk. intros [[Hne Hbytes]%andb_prop Hport]%andb_prop.
  apply negb_true_iff in Hne. unfold url.parseAuthority, http.removeEmptyPort.
  rewrite Hbytes. rewrite <- all_host_bytes_allBytes.
  destruct (url.lastColon h) as [port|] eqn:E.
  - apply andb_prop in Hport as [Hd Hp]. apply negb_true_iff in Hp.
    rewrite Hd, (lastColon_suffix h port E Hp). auto.
  - rewrite (lastColon_none h E). auto.
Qed.

Lemma validScheme_facts sch :
  validScheme sch = true ->
  String.eqb sch "" = false /\ allBytes schemeByte sch = true.
Proof.
  destruct sch as [|c sch]; [discriminate|].
  cbn [validScheme]. intros [_ H]%andb_prop. auto.
Qed.

Lemma String_plain sch host p :
  validScheme sch = true -> hostOk host = true ->
  rootedOrEmpty p = true ->
  url.String (url.mkURL sch "" host p false "" "" false) = plainText sch host p.
Proof.
  intros Hs Hh Hp.
  destruct (validScheme_facts sch Hs) as [Hsne _].
  destruct (hostOk_authority host Hh) as (_ & _ & Hhne & _).
  unfold url.String, url.EscapedPath, plainText.
  cbn [url.Scheme url.Opaque url.Host url.Path url.ForceQuery url.RawQuery
       url.Fragment url.OmitHost].
  rewrite Hsne, Hhne. cbn [String.eqb negb orb andb].
  assert (Hstar : String.eqb p "*" = false).
  { destruct p as [|c p]; [reflexivity|]. cbn [rootedOrEmpty] in Hp.
    apply Ascii.eqb_eq in Hp. now subst c. }
  rewrite Hstar.
  assert (Hbuf : String.eqb (((sch +:+ ":") +:+ "//") +:+ host) "" = false).
  { destruct sch; [discriminate Hsne|reflexivity]. }
  destruct p as [|c p].
  - cbn [url.escape]. rewrite Hbuf. cbn [andb].
    apply list_ascii_inj. rewrite !list_ascii_app. cbn. rewrite <- !app_assoc. reflexivity.
  - cbn [rootedOrEmpty] in Hp. apply Ascii.eqb_eq in Hp. subst c.
    cbn [url.escape]. replace (url.shouldEscape "/" url.encodePath) with false by reflexivity.
    cbv iota. change (Ascii.eqb "/"%char "/"%char) with true.
    cbn [negb andb]. rewrite Hbuf. cbn [andb].
    apply list_ascii_inj. rewrite !list_ascii_app. cbn. rewrite <- !app_assoc. reflexivity.
Qed.

Lemma plainText_inert sch host p :
  validScheme sch = true -> hostOk host = true ->
  allBytes inert (plainText sch host p) = true.
Proof.
  intros Hs Hh. destruct (validScheme_facts sch Hs) as [_ Hsb].
  destruct (hostOk_authority host Hh) as (_ & _ & _ & Hhb).
  unfold plainText. rewrite !allBytes_app.
  rewrite (allBytes_impl _ _ sch schemeByte_inert Hsb).
  rewrite (allBytes_impl _ _ host hostByte_inert Hhb).
  rewrite escapePath_inert. reflexivity.
Qed.

Lemma Cut_host host p :
  allBytes url.host_byte_ok host = true -> rootedOrEmpty p = true ->
  let '(authority, after, found) :=
    strings.Cut (host +:+ url.escape p url.encodePath) "/"%char in
  authority = host
  /\ (if found then String "/"%char after else "") = url.escape p url.encodePath.
Proof.
  intros Hh Hp.
  assert (Hno : strings.ContainsByte host "/"%char = false).
  { clear Hp. induction host as [|c h IH]; [reflexivity|].
    cbn [allBytes] in Hh. apply andb_prop in Hh as [Hc Hh].
    cbn [strings.ContainsByte]. now rewrite (hostByte_no_slash c Hc), IH. }
  destruct p as [|c p].
  - cbn [url.escape]. replace (host +:+ "") with host.
    + rewrite Cut_none by assumption. auto.
    + apply list_ascii_inj. rewrite list_ascii_app. simpl. now rewrite app_nil_r.
  - cbn [rootedOrEmpty] in Hp. apply Ascii.eqb_eq in Hp. subst c.
    cbn [url.escape]. replace (url.shouldEscape "/" url.encodePath) with false by reflexivity.
    cbv iota. rewrite Cut_at by assumption. auto.
Qed.

Lemma Parse_plain sch host p :
  validScheme sch = true -> hostOk host = true -> rootedOrEmpty p = true ->
  url.Parse (plainText sch host p) = ok (url.mkURL sch "" host p false "" "" false).
Proof.
  intros Hs Hh Hp.
  pose proof (plainText_inert sch host p Hs Hh) as Hinert.
  destruct (validScheme_facts sch Hs) as [Hsne Hsb].
  destruct (hostOk_authority host Hh) as (Hauth & _ & Hhne & Hhb).
  unfold url.Parse.
  rewrite Cut_none by (apply (allBytes_no inert); [exact Hinert|reflexivity]).
  unfold url.parse.
  rewrite (allBytes_noCTL _ Hinert).
  assert (Hstar : String.eqb (plainText sch host p) "*" = false).
  { unfold plainText. destruct sch as [|c sch]; [discriminate Hsne|].
    change (String.eqb (String c sch +:+ ":" +:+ "//" +:+ host +:+ url.escape p url.encodePath) "*")
      with (if Ascii.eqb c "*"%char
            then String.eqb (sch +:+ ":" +:+ "//" +:+ host +:+ url.escape p url.encodePath) ""
            else false).
    destruct (Ascii.eqb c "*"%char); [|reflexivity]. now destruct sch. }
  rewrite Hstar.
  set (rest := "//" +:+ host +:+ url.escape p url.encodePath).
  change (plainText sch host p) with (sch +:+ String ":"%char rest).
  rewrite (getScheme_valid sch rest Hs), (ToLower_scheme sch Hsb).
  assert (Hq : strings.ContainsByte rest "?"%char = false).
  { apply (allBytes_no inert); [|reflexivity].
    unfold plainText in Hinert. rewrite allBytes_app in Hinert.
    apply andb_prop in Hinert as [_ Hinert]. rewrite allBytes_app in Hinert.
    apply andb_prop in Hinert as [_ Hinert]. exact Hinert. }
  rewrite (HasSuffixByte_no _ _ Hq). cbn [andb]. rewrite (Cut_none _ _ Hq).
  rewrite Hsne. cbn [negb andb orb].
  replace (strings.HasPrefix rest "/") with true by reflexivity.
  replace (strings.HasPrefix rest "//") with true by reflexivity.
  cbn [negb andb orb].
  replace (String.substring 2 (String.length rest - 2) rest)
    with (host +:+ url.escape p url.encodePath).
  2:{ unfold rest. symmetry. apply substring_skip2. }
  pose proof (Cut_host host p Hhb Hp) as Hcut.
  destruct (strings.Cut (host +:+ url.escape p url.encodePath) "/"%char)
    as [[authority after] found].
  destruct Hcut as [-> Hafter]. rewrite Hauth, Hafter, unescape_escapePath.
  reflexivity.
Qed.

(** [NewRequest] reads a plain URL back from its text. *)
Lemma NewRequest_plain method u :
  http.validMethod method = true -> plainURL u = true ->
  http.NewRequest method (url.String u) = ok (http.mkRequest method u (url.Host u)).
Proof.
  intros Hm Hu. destruct u as [sch opq host p force rq frag omit].
  unfold plainURL in Hu.
  cbn [url.Scheme url.Opaque url.Host url.Path url.ForceQuery url.RawQuery
       url.Fragment url.OmitHost] in *.
  repeat match goal with
         | H : _ && _ = true |- _ => apply andb_prop in H as [? ?]
         end.
  repeat match goal with
         | H : String.eqb _ _ = true |- _ => apply String.eqb_eq in H; subst
         | H : negb _ = true |- _ => apply negb_true_iff in H; subst
         end.
  destruct (hostOk_authority host ltac:(assumption)) as (_ & Hport & _ & _).
  unfold http.NewRequest.
  assert (Hne : String.eqb method "" = false).
  { destruct method; [discriminate Hm|reflexivity]. }
  rewrite Hne, Hm. cbn [negb].
  rewrite String_plain, Parse_plain by assumption.
  cbn [url.Scheme url.Opaque url.Host url.Path url.ForceQuery url.RawQuery
       url.Fragment url.OmitHost].
  rewrite Hport. reflexivity.
Qed.

Lemma plainURL_withPath u p :
  plainURL u = true -> rootedOrEmpty p = true -> plainURL (url.withPath u p) = true.
Proof.
  unfold plainURL, url.withPath. intros Hu Hp.
  cbn [url.Scheme url.Opaque url.Host url.Path url.ForceQuery url.RawQuery
       url.Fragment url.OmitHost].
  repeat match goal with
         | H : _ && _ = true |- _ => apply andb_prop in H as [? ?]
         end.
  repeat match goal with
         | H : ?x = true |- context [?x] => rewrite H
         end.
  reflexivity.
Qed.

Lemma plainURL_query u : plainURL u = true -> url.Query u = ∅.
Proof.
  unfold plainURL. intros Hu.
  repeat match goal with
         | H : _ && _ = true |- _ => apply andb_prop in H as [? ?]
         end.
  unfold url.Query.
  match goal with
  | H : String.eqb (url.RawQuery u) "" = true |- _ => apply String.eqb_eq in H; rewrite H
  end.
  reflexivity.
Qed.

(** For a plain URL the request is the URL as built, under the given
    method, with the encoded query of the six fields and the caller's
    pairs. *)
Lemma newRequest_plain s method endpoint params u :
  requestURL s endpoint = ok u -> plainURL u = true ->
  http.validMethod method = true ->
  newRequest s method endpoint params =
    ok (http.mkRequest method (url.withQuery u (url.Encode (query s params ∅)))
                       (url.Host u)).
Proof.
  intros Hu Hplain Hm. unfold newRequest. rewrite Hu.
  rewrite (NewRequest_plain method u Hm Hplain).
  unfold withRawQuery. cbn [http.URL http.Method http.Host].
  now rewrite (plainURL_query u Hplain).
Qed.

Lemma rootedOrEmpty_request bs endpoint :
  rootedOrEmpty (rootedPath bs +:+ "/rest/" +:+ endpoint) = true.
Proof. destruct bs; reflexivity. Qed.

(** C8 as stated fails: with the base URL [http://host/music] and the
    endpoint [../../x], the built URL has the path [/x], which keeps
    neither the base path nor the protocol prefix. *)
Lemma request_path_drops_base_path :
  ~ (forall s endpoint u u',
       url.Parse (BaseUrl s) = ok u ->
       requestURL s endpoint = ok u' ->
       strings.HasPrefix (url.Path u') (url.Path u) = true).
Proof.
  intros H.
  specialize (H (session None) "../../x"
                (url.mkURL "http" "" "host" "/music" false "" "" false)
                (url.mkURL "http" "" "host" "/x" false "" "" false)
                ltac:(vm_compute; reflexivity) ltac:(vm_compute; reflexivity)).
  vm_compute in H. discriminate H.
Qed.

(** C8, amended: when the base URL parses to a rooted path of plain
    elements, with or without a final slash, and the endpoint is made of
    one or more plain elements, the URL built by [Request] has that base
    path followed by [/rest/] and the endpoint, and is otherwise the
    parsed base URL; when the base URL is moreover an absolute URL with
    an authority and neither query nor fragment, the request handed to
    the transport has exactly this URL, with the encoded query added. *)
Theorem requestURL_path s endpoint u bs (trailing : bool) es :
  url.Parse (BaseUrl s) = ok u ->
  url.Path u = rootedPath bs +:+ (if trailing then "/" else "") ->
  forallb plainSegment bs = true ->
  es <> [] ->
  forallb plainSegment es = true ->
  endpoint = strings.Join es "/" ->
  requestURL s endpoint = ok (url.withPath u (rootedPath bs +:+ "/rest/" +:+ endpoint))
  /\ (plainURL u = true ->
      forall method params,
        http.validMethod method = true ->
        newRequest s method endpoint params =
          ok (http.mkRequest method
                (url.withQuery (url.withPath u (rootedPath bs +:+ "/rest/" +:+ endpoint))
                               (url.Encode (query s params ∅)))
                (url.Host u))).
Proof.
  intros Hparse Hpath Hbs Hne Hes ->.
  destruct es as [|e es]; [done|].
  assert (Hurl : requestURL s (strings.Join (e :: es) "/")
                 = ok (url.withPath u (rootedPath bs +:+ "/rest/"
                                       +:+ strings.Join (e :: es) "/"))).
  { unfold requestURL. rewrite Hparse, Hpath, Join_plain by assumption.
    rewrite rootedPath_app. cbn [rootedPath]. rewrite Join_rootedPath.
    reflexivity. }
  split; [exact Hurl|].
  intros Hplain method params Hm.
  rewrite (newRequest_plain s method _ params _ Hurl); [reflexivity| |exact Hm].
  apply plainURL_withPath; [exact Hplain|apply rootedOrEmpty_request].
Qed.

Lemma requestURL_path_witness :
  requestURL (session None) "ping"
  = ok (url.mkURL "http" "" "host" "/music/rest/ping" false "" "" false)
  /\ newRequest (session None) "GET" "ping" ∅
     = ok (http.mkRequest "GET"
             (url.mkURL "http" "" "host" "/music/rest/ping" false
                        "c=app&f=json&s=&t=&u=alice&v=1.8.0" "" false)
             "host").
Proof.
  destruct (requestURL_path (session None) "ping"
              (url.mkURL "http" "" "host" "/music" false "" "" false)
              ["music"] false ["ping"]) as [Hurl Hreq].
  - vm_compute; reflexivity.
  - reflexivity.
  - reflexivity.
  - discriminate.
  - reflexivity.
  - reflexivity.
  - split; [exact Hurl|].
    rewrite (Hreq eq_refl "GET" ∅ eq_refl). vm_compute. reflexivity.
Defined.

(** The spec's scenario: base URL [http://host/music], endpoint [ping],
    no parameters. *)
Lemma request_scenario :
  match newRequest (session None) "GET" "ping" ∅ with
  | inl req => Some (http.Method req, url.String (http.URL req))
  | inr _ => None
  end = Some ("GET", "http://host/music/rest/ping?c=app&f=json&s=&t=&u=alice&v=1.8.0").
Proof. vm_compute; reflexivity. Qed.

Lemma NewRequest_plain_URL method u req0 :
  plainURL u = true ->
  http.NewRequest method (url.String u) = ok req0 -> http.URL req0 = u.
Proof.
  intros Hu. unfold http.NewRequest.
  set (m := if String.eqb method "" then "GET" else method).
  destruct (http.validMethod m) eqn:Hm; [|discriminate].
  pose proof (NewRequest_plain m u Hm Hu) as H. unfold http.NewRequest in H.
  assert (Hne : String.eqb m "" = false) by (destruct m; [discriminate Hm|reflexivity]).
  rewrite Hne, Hm in H. cbn [negb] in *.
  destruct (url.Parse (url.String u)) as [u0|e]; [|discriminate].
  injection H as E _. intros [= <-]. cbn [http.URL]. exact E.
Qed.

(** With a plain base URL, the first value of each protocol key in the
    query is the protocol's, whatever the caller's map holds. *)
Lemma plain_base_first_value s method endpoint params u req key mine :
  requestURL s endpoint = ok u -> plainURL u = true ->
  newRequest s method endpoint params = ok req ->
  (key, mine) ∈ mandated s ->
  url.Get (url.Query (http.URL req)) key = mine.
Proof.
  intros Hu Hplain Hreq Hmine.
  destruct (newRequest_query _ _ _ _ _ Hreq) as (u' & req0 & Hu' & Hreq0 & Hq).
  rewrite Hu in Hu'. injection Hu' as <-.
  specialize (Hq key).
  rewrite (NewRequest_plain_URL _ _ _ Hplain Hreq0), (plainURL_query u Hplain) in Hq.
  rewrite (valuesOf_unique key mine (mandated s)) in Hq by (apply mandated_keys || assumption).
  unfold valuesAt in Hq. rewrite lookup_empty in Hq. cbn [default app] in Hq.
  unfold url.Get. destruct (url.Query (http.URL req) !! key) as [[|x xs]|];
    simpl in Hq; congruence.
Qed.

(** ** The library models on known values *)

(** The test suite of RFC 1321, and the example of the Subsonic API
    documentation: password [sesame], salt [c19b2d]. *)
Example md5_test_suite :
  map md5_hex [""; "a"; "abc"; "message digest"; "abcdefghijklmnopqrstuvwxyz";
               "ABCDEFGHIJKLMNOPQRSTUVWXYZabcdefghijklmnopqrstuvwxyz0123456789";
               "12345678901234567890123456789012345678901234567890123456789012345678901234567890"]
  = ["d41d8cd98f00b204e9800998ecf8427e"; "0cc175b9c0f1b6a831c399e269772661";
     "900150983cd24fb0d6963f7d28e17f72"; "f96b697d7cb7938d525a2f31aaf161d0";
     "c3fcd3d76192e4007dfb496cca67e13b"; "d174ab98d277d9f5a5611c2c9f419d9f";
     "57edf4a22be3c955ac49da2e2107b67a"]
  /\ tokenOf "sesame" "c19b2d" = "26719a1196d2a940705a59634eb18eab".
Proof. split; vm_compute; reflexivity. Qed.

(** The examples of the documentation of package path. *)
Example path_Clean_examples :
  map path.Clean ["a/c"; "a//c"; "a/c/."; "a/c/b/.."; "/../a/c"; "/../a/b/../././/c"; ""]
  = ["a/c"; "a/c"; "a/c"; "a/c"; "/a/c"; "/a/c"; "."].
Proof. vm_compute; reflexivity. Qed.

Example path_Join_examples :
  map path.Join [["a"; "b"; "c"]; ["a"; "b/c"]; ["a/b"; "c"]; ["a/b"; "../../../xyz"];
                 [""; ""]; ["a"; ""]; [""; "a"]]
  = ["a/b/c"; "a/b/c"; "a/b/c"; "../xyz"; ""; "a"; "a"].
Proof. vm_compute; reflexivity. Qed.

Example url_examples :
  url.QueryEscape "a b&c=d/e~f" = "a+b%26c%3Dd%2Fe~f"
  /\ url.Parse "https://host:4040/a%20b/?x=1&y=2#top"
     = ok (url.mkURL "https" "" "host:4040" "/a b/" false "x=1&y=2" "top" false)
  /\ url.String (url.mkURL "https" "" "host:4040" "/a b/" false "x=1&y=2" "top" false)
     = "https://host:4040/a%20b/?x=1&y=2#top"
  /\ url.Encode (url.Add "b" "2" (url.Add "a" "x y" (url.Add "b" "1" ∅))) = "a=x+y&b=1&b=2".
Proof. repeat split; vm_compute; reflexivity. Qed.

(** The spec's third scenario: the envelope of a failed login. *)
Example envelope_example :
  json_Unmarshal wrongPassword (mkApiResponse None)
  = ok (mkApiResponse (Some (mkSubsonicResponse "failed" "1.16.1"
          (Some (mkErrorRecord 40 "Wrong username or password")) []))).
Proof. vm_compute; reflexivity. Qed.

(** A success envelope comes back as decoded. *)
Lemma Get_payload endpoint params p response parsed resp :
  fst (Request "GET" endpoint params p) = Returns (Some response, None) ->
  http.readErr (http.body response) = None ->
  json_Unmarshal (http.data (http.body response)) (mkApiResponse None) = ok parsed ->
  Response parsed = Some resp ->
  Error resp = None ->
  Get endpoint params p = (Returns (Some resp, None), p).
Proof.
  intros HR Hread Hparsed Hresp Herr.
  rewrite Get_run, HR, Hread, Hparsed, Hresp, Herr. reflexivity.
Qed.

(** Any JSON object without a member named [subsonic-response] decodes
    without error and leaves the [Response] pointer nil, so that [Get]
    panics on every such body. *)
Lemma missing_wrapper_decodes_nil (ms : list (string * json.value)) :
  forallb (fun m => negb (unmarshal.names (fst m) "subsonic-response")) ms = true ->
  unmarshal.intoApiResponse (json.Object ms) (mkApiResponse None) = ok (mkApiResponse None).
Proof.
  cbn [unmarshal.intoApiResponse]. generalize (mkApiResponse None).
  induction ms as [|m ms IH]; intros r H; [reflexivity|].
  cbn [forallb] in H. apply andb_prop in H as [Hm Hms]. apply negb_true_iff in Hm.
  cbn [fold_left]. unfold unmarshal.apiMember at 2. rewrite Hm. now apply IH.
Qed.

Lemma Get_missing_wrapper endpoint params p response ms :
  fst (Request "GET" endpoint params p) = Returns (Some response, None) ->
  http.readErr (http.body response) = None ->
  json.parse (http.data (http.body response)) = Some (json.Object ms) ->
  forallb (fun m => negb (unmarshal.names (fst m) "subsonic-response")) ms = true ->
  Get endpoint params p = (Panics nilDeref, p).
Proof.
  intros HR Hread Hparse Hms.
  apply (Get_nil_response endpoint params p response (mkApiResponse None) HR Hread);
    [|reflexivity].
  unfold json_Unmarshal. rewrite Hparse. now apply missing_wrapper_decodes_nil.
Qed.

(** * Further properties of client.go *)

(** ** The random source and the session over several calls *)

Lemma advance_source n r :
  advance n r = rand.Source (rand.draws r) (rand.cursor r + n).
Proof.
  revert r. induction n as [|n IH]; intros r.
  - destruct r. simpl. now rewrite Nat.add_0_r.
  - cbn [advance]. rewrite IH. simpl. f_equal. lia.
Qed.

Lemma saltOf_get n r k :
  (k < n)%nat ->
  String.get k (saltOf n r)
  = String.get (rand.draws r (rand.cursor r + k) mod 62) corpus.
Proof.
  revert r k. induction n as [|n IH]; intros r k Hk; [lia|].
  cbn [saltOf]. destruct k as [|k].
  - cbn [String.get]. rewrite Nat.add_0_r.
    destruct (pick_get r) as [Hget _]. symmetry. exact Hget.
  - cbn [String.get]. rewrite IH by lia. cbn [rand.Intn snd rand.draws rand.cursor].
    now rewrite Nat.add_succ_comm.
Qed.

(** X1: [generateSalt] never panics.  It returns ten bytes, the byte at
    position [k] being the symbol of the alphabet at the index that the
    call number [k] of [rand.Intn] returns; it calls [rand.Intn] exactly
    ten times and touches neither the client nor the log. *)
Theorem generateSalt_draws p :
  exists s,
    generateSalt p =
      (Returns s,
       mkProcess (self p)
                 (rand.Source (rand.draws (random p)) (rand.cursor (random p) + 10))
                 (logged p))
    /\ String.length s = 10%nat
    /\ forall k, (k < 10)%nat ->
         String.get k s
         = String.get
             (fst (rand.Intn (String.length corpus)
                     (rand.Source (rand.draws (random p)) (rand.cursor (random p) + k))))
             corpus.
Proof.
  exists (saltOf 10 (random p)). unfold generateSalt.
  rewrite fill_run, advance_source. split; [reflexivity|].
  split; [apply saltOf_length|]. intros k Hk. now apply saltOf_get.
Qed.

Lemma Ping_random p : random (snd (Ping p)) = random p.
Proof.
  rewrite Ping_run.
  destruct (fst (Request "GET" "ping" ∅ p)) as [[resp [err|]]|why]; reflexivity.
Qed.

Lemma Authenticate_state password p :
  self (snd (Authenticate password p)) = self (derived password p)
  /\ random (snd (Authenticate password p)) = advance 10 (random p).
Proof.
  rewrite Authenticate_run.
  pose proof (Ping_self (derived password p)) as Hs.
  pose proof (Ping_random (derived password p)) as Hr.
  destruct (Ping (derived password p)) as [[[|]|why] q]; simpl in *; auto.
Qed.

(** X2: whatever its outcome, [Authenticate] moves the random source by
    exactly ten draws, so a second call draws its salt from the next
    ten: after two calls the session holds the salt of the calls
    number ten to nineteen of [rand.Intn] and the token of the second
    password under that salt; nothing of the first pair is left. *)
Theorem Authenticate_twice password1 password2 p :
  let p1 := snd (Authenticate password1 p) in
  let p2 := snd (Authenticate password2 p1) in
  random p1 = rand.Source (rand.draws (random p)) (rand.cursor (random p) + 10)
  /\ random p2 = rand.Source (rand.draws (random p)) (rand.cursor (random p) + 20)
  /\ (forall k, (k < 10)%nat ->
        String.get k (salt (self p2))
        = String.get
            (fst (rand.Intn (String.length corpus)
                    (rand.Source (rand.draws (random p)) (rand.cursor (random p) + 10 + k))))
            corpus)
  /\ token (self p2) = md5_hex (password2 +:+ salt (self p2)).
Proof.
  cbv zeta.
  destruct (Authenticate_state password1 p) as [_ Hr1].
  destruct (Authenticate_state password2 (snd (Authenticate password1 p))) as [Hs2 Hr2].
  rewrite Hs2, Hr2, Hr1, !advance_source. cbn [rand.draws rand.cursor].
  split; [reflexivity|]. split; [f_equal; lia|].
  split; [|reflexivity].
  intros k Hk. cbn [derived self salt]. rewrite Hr1, advance_source.
  rewrite saltOf_get by assumption. reflexivity.
Qed.

(** ** What the calls do to the process *)

Lemma Get_cases endpoint params p :
  match Get endpoint params p with
  | (Returns (Some resp, None), q) => q = p /\ Error resp = None
  | (Returns (None, Some _), q) => q = p
  | (Returns _, _) => False
  | (Panics _, q) => q = p
  end.
Proof.
  rewrite Get_run.
  destruct (fst (Request "GET" endpoint params p)) as [[[response|] [err|]]|why];
    try reflexivity.
  destruct (http.readErr (http.body response)); [reflexivity|].
  destruct (json_Unmarshal _ _) as [parsed|e]; [|reflexivity].
  destruct (Response parsed) as [r|]; [|reflexivity].
  destruct (Error r) eqn:E; [reflexivity|]. auto.
Qed.

(** X3: [Request] and [Get] leave the whole process as it was: they
    draw no random number and write nothing to the log, whether they
    return or panic.  [Ping] draws no random number either, and leaves
    the log as it was unless it returns false. *)
Theorem process_frame method endpoint params p :
  snd (Request method endpoint params p) = p
  /\ snd (Get endpoint params p) = p
  /\ random (snd (Ping p)) = random p
  /\ (fst (Ping p) <> Returns false -> snd (Ping p) = p).
Proof.
  split; [apply Request_state|].
  split.
  { pose proof (Get_cases endpoint params p) as H.
    destruct (Get endpoint params p) as [[[[resp|] [err|]]|why] q]; cbn [snd];
      tauto. }
  rewrite Ping_run.
  destruct (fst (Request "GET" "ping" ∅ p)) as [[resp [err|]]|why];
    split; try reflexivity.
  intros H. now destruct H.
Qed.

Lemma derived_self password p :
  self (derived password p)
  = withPair (self p) (saltOf 10 (random p)) (md5_hex (password +:+ saltOf 10 (random p))).
Proof. reflexivity. Qed.

Lemma generateSalt_returns p salt :
  fst (generateSalt p) = Returns salt -> salt = saltOf 10 (random p).
Proof. unfold generateSalt. rewrite fill_run. now intros [= <-]. Qed.

(** X4: [Authenticate] makes its check with the pair it has just
    stored.  With a transport handle, and when the request of the check
    can be built from the session under the new salt and token, that
    request carries the new salt under [s] and the new token under [t];
    [Authenticate] returns nil when the transport answers it, whatever
    the answer, and its fixed error when the transport fails, and the
    transport's error is then the one line added to the log. *)
Theorem Authenticate_checks_the_new_pair password p c salt req :
  Client' (self p) = Some c ->
  fst (generateSalt p) = Returns salt ->
  newRequest (withPair (self p) salt (md5_hex (password +:+ salt))) "GET" "ping" ∅ = ok req ->
  salt ∈ valuesAt (url.Query (http.URL req)) "s"
  /\ md5_hex (password +:+ salt) ∈ valuesAt (url.Query (http.URL req)) "t"
  /\ fst (Authenticate password p)
     = Returns (match http.Do c req with
                | inl _ => None
                | inr _ => Some (errorString "Authentication failed")
                end)
  /\ logged (snd (Authenticate password p))
     = match http.Do c req with
       | inl _ => logged p
       | inr cause => (logged p ++ [errText cause])%list
       end.
Proof.
  intros Hc Hsalt Hreq. apply generateSalt_returns in Hsalt. subst salt.
  rewrite <- derived_self in Hreq.
  destruct (newRequest_query _ _ _ _ _ Hreq) as (u & req0 & _ & _ & Hq).
  split.
  { rewrite Hq, !elem_of_app. right; left.
    apply valuesOf_elem. cbn [mandated derived self salt]. set_solver. }
  split.
  { rewrite Hq, !elem_of_app. right; left.
    apply valuesOf_elem. cbn [mandated derived self token]. unfold tokenOf. set_solver. }
  rewrite Authenticate_run, Ping_run, Request_run, Hreq.
  change (Client' (self (derived password p))) with (Client' (self p)). rewrite Hc.
  destruct (http.Do c req) as [resp|cause]; split; reflexivity.
Qed.

Lemma Authenticate_checks_the_new_pair_witness :
  exists req,
    newRequest (withPair (session (Some refusing)) "dkryFMT07e"
                         (md5_hex ("sesame" +:+ "dkryFMT07e"))) "GET" "ping" ∅ = ok req
    /\ "dkryFMT07e" ∈ valuesAt (url.Query (http.URL req)) "s"
    /\ md5_hex ("sesame" +:+ "dkryFMT07e") ∈ valuesAt (url.Query (http.URL req)) "t"
    /\ fst (Authenticate "sesame" (started (Some refusing)))
       = Returns (match http.Do refusing req with
                  | inl _ => None
                  | inr _ => Some (errorString "Authentication failed")
                  end)
    /\ logged (snd (Authenticate "sesame" (started (Some refusing))))
       = match http.Do refusing req with
         | inl _ => logged (started (Some refusing))
         | inr cause => (logged (started (Some refusing)) ++ [errText cause])%list
         end.
Proof.
  eexists. split; [vm_compute; reflexivity|].
  apply (Authenticate_checks_the_new_pair "sesame" (started (Some refusing)) refusing
           "dkryFMT07e").
  - reflexivity.
  - vm_compute; reflexivity.
  - vm_compute; reflexivity.
Defined.

(** ** What [Get] returns *)

(** X5: [Get] never returns both an envelope and an error, and never
    neither; an envelope it returns holds no error record. *)
Theorem Get_returns endpoint params p r :
  fst (Get endpoint params p) = Returns r ->
  (exists resp, r = (Some resp, None) /\ Error resp = None)
  \/ (exists err, r = (None, Some err)).
Proof.
  pose proof (Get_cases endpoint params p) as H.
  destruct (Get endpoint params p) as [[[[resp|] [err|]]|why] q]; cbn [fst];
    try contradiction; try discriminate; intros [= <-].
  - left. destruct H. eauto.
  - right. eauto.
Qed.

Lemma Get_returns_witness :
  (exists resp,
      (None, Some (applicationError (mkErrorRecord 40 "Wrong username or password")))
      = (Some resp, None) /\ Error resp = None)
  \/ (exists err,
        (@None subsonicResponse,
         Some (applicationError (mkErrorRecord 40 "Wrong username or password")))
        = (None, Some err)).
Proof.
  apply (Get_returns "ping" ∅ (started (Some (answering wrongPassword)))).
  vm_compute. reflexivity.
Defined.

(** X6: the only panic of [Get] is the nil dereference, and it has two
    causes only: the transport handle is nil and the request could be
    built, or the body was read and decoded without error and left the
    [Response] pointer nil.  In particular the read of [response.Body]
    never panics: [Request] returns no nil response with a nil error. *)
Theorem Get_panic_causes endpoint params p why :
  fst (Get endpoint params p) = Panics why ->
  why = nilDeref
  /\ ((Client' (self p) = None
       /\ exists req, newRequest (self p) "GET" endpoint params = ok req)
      \/ (exists response,
            fst (Request "GET" endpoint params p) = Returns (Some response, None)
            /\ http.readErr (http.body response) = None
            /\ exists parsed,
                 json_Unmarshal (http.data (http.body response)) (mkApiResponse None)
                 = ok parsed
                 /\ Response parsed = None)).
Proof.
  rewrite Get_run, Request_run.
  destruct (newRequest (self p) "GET" endpoint params) as [req|err] eqn:Hreq;
    cbn [fst]; [|discriminate].
  destruct (Client' (self p)) as [c|] eqn:Hc; cbn [fst].
  - destruct (http.Do c req) as [response|err]; cbn [fst]; [|discriminate].
    destruct (http.readErr (http.body response)) eqn:Hread; [discriminate|].
    destruct (json_Unmarshal _ _) as [parsed|e] eqn:Hparsed; [|discriminate].
    destruct (Response parsed) as [resp|] eqn:Hresp.
    + destruct (Error resp); discriminate.
    + intros [= <-]. split; [reflexivity|]. right. exists response. eauto 10.
  - intros [= <-]. split; [reflexivity|]. left. eauto.
Qed.

Lemma Get_panic_causes_witness :
  nilDeref = nilDeref
  /\ ((Client' (self (started None)) = None
       /\ exists req, newRequest (self (started None)) "GET" "ping" ∅ = ok req)
      \/ (exists response,
            fst (Request "GET" "ping" ∅ (started None)) = Returns (Some response, None)
            /\ http.readErr (http.body response) = None
            /\ exists parsed,
                 json_Unmarshal (http.data (http.body response)) (mkApiResponse None)
                 = ok parsed
                 /\ Response parsed = None)).
Proof.
  apply (Get_panic_causes "ping" ∅ (started None) nilDeref).
  vm_compute. reflexivity.
Defined.

Lemma newRequest_transport c s method endpoint params :
  newRequest (mkClient c (BaseUrl s) (User s) (ClientName s) (salt s) (token s))
             method endpoint params
  = newRequest s method endpoint params.
Proof. reflexivity. Qed.

(** X7: no method looks at the status code of a response.  Under two
    transports that fail alike and answer with the same bodies, with
    whatever status codes, [Get], [Ping] and [Authenticate] return the
    same. *)
Theorem status_code_ignored c c' endpoint params password p :
  sameBodies c c' ->
  fst (Get endpoint params (withTransport (Some c) p))
  = fst (Get endpoint params (withTransport (Some c') p))
  /\ fst (Ping (withTransport (Some c) p)) = fst (Ping (withTransport (Some c') p))
  /\ fst (Authenticate password (withTransport (Some c) p))
     = fst (Authenticate password (withTransport (Some c') p)).
Proof.
  intros Hsame.
  assert (HP : forall q, fst (Ping (withTransport (Some c) q))
                         = fst (Ping (withTransport (Some c') q))).
  { intros q. rewrite !Ping_run, !Request_run. unfold withTransport.
    cbn [self Client']. rewrite !newRequest_transport.
    destruct (newRequest (self q) "GET" "ping" ∅) as [req|err]; [|reflexivity].
    specialize (Hsame req).
    destruct (http.Do c req), (http.Do c' req); try contradiction; reflexivity. }
  split.
  { rewrite !Get_run, !Request_run. unfold withTransport.
    cbn [self Client']. rewrite !newRequest_transport.
    destruct (newRequest (self p) "GET" endpoint params) as [req|err]; [|reflexivity].
    specialize (Hsame req).
    destruct (http.Do c req) as [r|e], (http.Do c' req) as [r'|e'];
      try contradiction; cbn [fst].
    - rewrite Hsame.
      destruct (http.readErr (http.body r')); [reflexivity|].
      destruct (json_Unmarshal _ _) as [parsed|e]; [|reflexivity].
      destruct (Response parsed) as [resp|]; [|reflexivity].
      destruct (Error resp); reflexivity.
    - now subst. }
  split; [apply HP|].
  rewrite !Authenticate_run.
  change (derived password (withTransport (Some c) p))
    with (withTransport (Some c) (derived password p)).
  change (derived password (withTransport (Some c') p))
    with (withTransport (Some c') (derived password p)).
  specialize (HP (derived password p)).
  destruct (Ping (withTransport (Some c) (derived password p))) as [[[|]|w] q],
           (Ping (withTransport (Some c') (derived password p))) as [[[|]|w'] q'];
    cbn [fst] in *; congruence.
Qed.

Lemma status_code_ignored_witness :
  fst (Get "getLicense" ∅ (withTransport (Some (replying 200 wrongPassword)) (started None)))
  = fst (Get "getLicense" ∅ (withTransport (Some (replying 403 wrongPassword)) (started None)))
  /\ fst (Ping (withTransport (Some (replying 200 wrongPassword)) (started None)))
     = fst (Ping (withTransport (Some (replying 403 wrongPassword)) (started None)))
  /\ fst (Authenticate "sesame" (withTransport (Some (replying 200 wrongPassword)) (started None)))
     = fst (Authenticate "sesame" (withTransport (Some (replying 403 wrongPassword)) (started None))).
Proof.
  apply (status_code_ignored (replying 200 wrongPassword) (replying 403 wrongPassword)
           "getLicense" ∅ "sesame" (started None)).
  intros req. reflexivity.
Defined.

(** ** GetLicense *)

(** X8: [GetLicense] leaves the process as it was and follows [Get] on
    the endpoint [getLicense] with no parameter: it panics exactly when
    [Get] does, returns exactly the errors [Get] returns, each with a
    nil license, and otherwise returns the [License] field of the
    envelope with a nil error; so a nil field gives a nil license and a
    nil error. *)
Theorem GetLicense_follows_Get (L : Type) (field : subsonicResponse -> option L) p :
  snd (GetLicense L field p) = p
  /\ (forall why,
        fst (GetLicense L field p) = Panics why <-> fst (Get "getLicense" ∅ p) = Panics why)
  /\ (forall l err,
        fst (GetLicense L field p) = Returns (l, Some err)
        <-> l = None /\ fst (Get "getLicense" ∅ p) = Returns (None, Some err))
  /\ (forall l,
        fst (GetLicense L field p) = Returns (l, None)
        <-> exists resp,
              fst (Get "getLicense" ∅ p) = Returns (Some resp, None) /\ field resp = l).
Proof.
  pose proof (Get_cases "getLicense" ∅ p) as H.
  unfold GetLicense, bind.
  destruct (Get "getLicense" ∅ p) as [[[[resp|] [err|]]|why] q]; cbn [fst snd ret];
    try contradiction.
  - split; [apply H|]. split; [split; discriminate|].
    split.
    + intros l e. split; [discriminate|]. intros [_ [=]].
    + intros l. split; [intros [= <-]; eauto|intros (r' & [= <-] & <-); reflexivity].
  - split; [exact H|]. split; [split; discriminate|].
    split.
    + intros l e. split; [intros [= <- <-]; auto|intros [-> [= <-]]; reflexivity].
    + intros l. split; [discriminate|]. intros (r' & [=] & _).
  - split; [exact H|]. split; [split; intros [= <-]; reflexivity|].
    split.
    + intros l e. split; [discriminate|]. intros [_ [=]].
    + intros l. split; [discriminate|]. intros (r' & [=] & _).
Qed.

(** ** Every endpoint gives a request *)

(** [Clean] on a rooted path: the output buffer keeps its leading
    slash. *)
Lemma backtrack_rooted o :
  o <> [] -> exists o', path.backtrack (o ++ ["/"%char]) 1 = (o' ++ ["/"%char])%list.
Proof.
  induction o as [|c o IH]; [done|]. intros _.
  cbn [app path.backtrack].
  destruct (path.is_slash c); [eauto|].
  destruct (length (o ++ ["/"%char]) <=? 1)%nat eqn:E; [eauto|].
  apply IH. intros ->. discriminate E.
Qed.

Lemma loop_rooted r inelem o :
  exists o', path.loop true r inelem (o ++ ["/"%char]) 1 = (o' ++ ["/"%char])%list.
Proof.
  remember (length r) as n eqn:Hn. revert r Hn inelem o.
  induction n as [n IH] using lt_wf_ind. intros r Hn inelem o.
  assert (Hrec : forall r' i o1, (length r' < n)%nat ->
            exists o', path.loop true r' i (o1 ++ ["/"%char]) 1 = (o' ++ ["/"%char])%list).
  { intros r' i o1 Hlt. exact (IH _ Hlt r' eq_refl i o1). }
  destruct r as [|c r]; [cbn; eauto|].
  cbn [length] in Hn. cbn [path.loop].
  destruct inelem.
  { destruct (path.is_slash c); [apply Hrec; lia|].
    apply (Hrec r true (c :: o)). lia. }
  destruct (path.is_slash c); [apply Hrec; lia|].
  destruct (path.is_dot c && path.at_end r); [apply Hrec; lia|].
  destruct r as [|c' r'].
  { destruct (_ || _); [apply (Hrec [] true (c :: "/"%char :: o))
                       |apply (Hrec [] true (c :: o))]; cbn; lia. }
  cbn [length] in Hn.
  destruct (path.is_dot c && path.is_dot c' && path.at_end r').
  - destruct (1 <? length (o ++ ["/"%char]))%nat eqn:E.
    + destruct (backtrack_rooted o) as [o' ->].
      { intros ->. discriminate E. }
      apply Hrec. lia.
    + cbn [negb]. apply Hrec. lia.
  - destruct (_ || _); [apply (Hrec (c' :: r') true (c :: "/"%char :: o))
                       |apply (Hrec (c' :: r') true (c :: o))]; cbn [length]; lia.
Qed.

Lemma Clean_rooted s : rootedOrEmpty (path.Clean (String "/"%char s)) = true.
Proof.
  unfold path.Clean. cbn [list_ascii_of_string].
  change (path.is_slash "/"%char) with true. cbv iota zeta.
  destruct (loop_rooted ("/"%char :: list_ascii_of_string s) false []) as [o' E].
  cbn [app] in E. rewrite E.
  destruct (o' ++ ["/"%char])%list eqn:E'; [now destruct o'|].
  rewrite <- E', rev_app_distr. reflexivity.
Qed.

Lemma Join_request_rooted base endpoint :
  rootedOrEmpty base = true ->
  rootedOrEmpty (path.Join [base; "/rest/"; endpoint]) = true.
Proof.
  intros Hb. destruct base as [|c base].
  - cbn [path.Join String.eqb]. change (String.eqb "/rest/" "") with false. cbv iota.
    apply (Clean_rooted ("rest/" +:+ "/" +:+ endpoint)).
  - cbn [rootedOrEmpty] in Hb. apply Ascii.eqb_eq in Hb. subst c.
    cbn [path.Join String.eqb]. cbv iota.
    apply (Clean_rooted (base +:+ "/" +:+ "/rest/" +:+ "/" +:+ endpoint)).
Qed.

(** ** A base URL with a query of its own *)

Lemma append_nil_r (s : string) : s +:+ "" = s.
Proof.
  induction s as [|c s IH]; [reflexivity|].
  change (String c s +:+ "") with (String c (s +:+ "")). now rewrite IH.
Qed.

Lemma append_assoc' (a b c : string) : (a +:+ b) +:+ c = a +:+ b +:+ c.
Proof.
  induction a as [|d a IH]; [reflexivity|].
  change ((String d a +:+ b) +:+ c) with (String d ((a +:+ b) +:+ c)). now rewrite IH.
Qed.

Lemma String_query sch host p rq :
  url.String (url.mkURL sch "" host p false rq "" false)
  = url.String (url.mkURL sch "" host p false "" "" false)
    +:+ (if String.eqb rq "" then "" else String "?"%char rq).
Proof.
  unfold url.String, url.EscapedPath.
  cbn [url.Scheme url.Opaque url.Host url.Path url.ForceQuery url.RawQuery
       url.Fragment url.OmitHost].
  change (String.eqb "" "") with true. cbn [negb orb].
  destruct rq as [|c rq]; [cbn [String.eqb negb orb]; now rewrite append_nil_r|].
  reflexivity.
Qed.

Lemma HasSuffixByte_app a c b x :
  strings.HasSuffixByte (a +:+ String c b) x = strings.HasSuffixByte (String c b) x.
Proof.
  induction a as [|d a IH]; [reflexivity|].
  change (String d a +:+ String c b) with (String d (a +:+ String c b)).
  destruct a; exact IH.
Qed.

Lemma noCTL_app a b :
  url.stringContainsCTLByte (a +:+ b)
  = url.stringContainsCTLByte a || url.stringContainsCTLByte b.
Proof. induction a as [|d a IH]; [reflexivity|]. simpl. rewrite IH. apply orb_assoc. Qed.

Lemma Parse_query sch host p c rq :
  validScheme sch = true -> hostOk host = true -> rootedOrEmpty p = true ->
  allBytes inert (String c rq) = true ->
  url.Parse (plainText sch host p +:+ String "?"%char (String c rq))
  = ok (url.mkURL sch "" host p false (String c rq) "" false).
Proof.
  intros Hs Hh Hp Hrq.
  pose proof (plainText_inert sch host p Hs Hh) as Hinert.
  destruct (validScheme_facts sch Hs) as [Hsne Hsb].
  destruct (hostOk_authority host Hh) as (Hauth & _ & Hhne & Hhb).
  set (whole := plainText sch host p +:+ String "?"%char (String c rq)).
  unfold url.Parse.
  assert (Hhash : strings.ContainsByte whole "#"%char = false).
  { unfold whole. rewrite ContainsByte_app.
    rewrite (allBytes_no inert _ "#"%char Hinert eq_refl).
    cbn [orb strings.ContainsByte]. change (Ascii.eqb "?"%char "#"%char) with false.
    cbn [orb]. exact (allBytes_no inert _ "#"%char Hrq eq_refl). }
  rewrite (Cut_none _ _ Hhash). unfold url.parse.
  assert (HCTL : url.stringContainsCTLByte whole = false).
  { unfold whole. rewrite noCTL_app, (allBytes_noCTL _ Hinert).
    cbn [orb url.stringContainsCTLByte]. change (url.is_ctl "?"%char) with false.
    cbn [orb]. exact (allBytes_noCTL _ Hrq). }
  rewrite HCTL.
  assert (Hstar : String.eqb whole "*" = false).
  { destruct (String.eqb_spec whole "*") as [E|]; [|reflexivity].
    assert (Hq : strings.ContainsByte whole "?"%char = true).
    { unfold whole. rewrite ContainsByte_app. cbn [strings.ContainsByte].
      change (Ascii.eqb "?"%char "?"%char) with true. apply orb_true_r. }
    rewrite E in Hq. discriminate Hq. }
  rewrite Hstar.
  set (rest := "//" +:+ host +:+ url.escape p url.encodePath).
  assert (Ewhole : whole = sch +:+ String ":"%char (rest +:+ String "?"%char (String c rq))).
  { unfold whole, plainText, rest. rewrite append_assoc'. reflexivity. }
  rewrite Ewhole, (getScheme_valid sch _ Hs), (ToLower_scheme sch Hsb).
  assert (Hq : strings.ContainsByte rest "?"%char = false).
  { apply (allBytes_no inert); [|reflexivity].
    unfold plainText in Hinert. rewrite allBytes_app in Hinert.
    apply andb_prop in Hinert as [_ Hinert]. rewrite allBytes_app in Hinert.
    apply andb_prop in Hinert as [_ Hinert]. exact Hinert. }
  rewrite HasSuffixByte_app.
  assert (Hsuf : strings.HasSuffixByte (String "?"%char (String c rq)) "?"%char = false).
  { change (strings.HasSuffixByte (String "?"%char (String c rq)) "?"%char)
      with (strings.HasSuffixByte (String c rq) "?"%char).
    apply HasSuffixByte_no. exact (allBytes_no inert _ "?"%char Hrq eq_refl). }
  rewrite Hsuf. cbn [andb]. rewrite (Cut_at _ _ _ Hq).
  rewrite Hsne. cbn [negb andb orb].
  replace (strings.HasPrefix rest "/") with true by reflexivity.
  replace (strings.HasPrefix rest "//") with true by reflexivity.
  cbn [negb andb orb].
  replace (String.substring 2 (String.length rest - 2) rest)
    with (host +:+ url.escape p url.encodePath).
  2:{ unfold rest. symmetry. apply substring_skip2. }
  pose proof (Cut_host host p Hhb Hp) as Hcut.
  destruct (strings.Cut (host +:+ url.escape p url.encodePath) "/"%char)
    as [[authority after] found].
  destruct Hcut as [-> Hafter]. rewrite Hauth, Hafter, unescape_escapePath.
  reflexivity.
Qed.

(** [NewRequest] reads a base URL back from its text. *)
Lemma NewRequest_base method u :
  http.validMethod method = true -> baseURL u = true ->
  http.NewRequest method (url.String u) = ok (http.mkRequest method u (url.Host u)).
Proof.
  intros Hm Hu. destruct u as [sch opq host p force rq frag omit].
  unfold baseURL in Hu.
  cbn [url.Scheme url.Opaque url.Host url.Path url.ForceQuery url.RawQuery
       url.Fragment url.OmitHost] in *.
  repeat match goal with
         | H : _ && _ = true |- _ => apply andb_prop in H as [? ?]
         end.
  repeat match goal with
         | H : String.eqb _ _ = true |- _ => apply String.eqb_eq in H; subst
         | H : negb _ = true |- _ => apply negb_true_iff in H; subst
         end.
  destruct (hostOk_authority host ltac:(assumption)) as (_ & Hport & _ & _).
  unfold http.NewRequest.
  assert (Hne : String.eqb method "" = false).
  { destruct method; [discriminate Hm|reflexivity]. }
  rewrite Hne, Hm. cbn [negb].
  rewrite String_query, String_plain by assumption.
  destruct rq as [|c rq].
  - cbn [String.eqb]. rewrite append_nil_r, Parse_plain by assumption.
    cbn [url.Scheme url.Opaque url.Host url.Path url.ForceQuery url.RawQuery
         url.Fragment url.OmitHost].
    rewrite Hport. reflexivity.
  - cbn [String.eqb]. rewrite Parse_query by assumption.
    cbn [url.Scheme url.Opaque url.Host url.Path url.ForceQuery url.RawQuery
         url.Fragment url.OmitHost].
    rewrite Hport. reflexivity.
Qed.

Lemma baseURL_withPath u p :
  baseURL u = true -> rootedOrEmpty p = true -> baseURL (url.withPath u p) = true.
Proof.
  unfold baseURL, url.withPath. intros Hu Hp.
  cbn [url.Scheme url.Opaque url.Host url.Path url.ForceQuery url.RawQuery
       url.Fragment url.OmitHost].
  repeat match goal with
         | H : _ && _ = true |- _ => apply andb_prop in H as [? ?]
         end.
  repeat match goal with
         | H : ?x = true |- context [?x] => rewrite H
         end.
  reflexivity.
Qed.

Lemma baseURL_rooted u : baseURL u = true -> rootedOrEmpty (url.Path u) = true.
Proof.
  unfold baseURL. intros Hu.
  repeat match goal with
         | H : _ && _ = true |- _ => apply andb_prop in H as [? ?]
         end.
  assumption.
Qed.

(** With a base URL of this kind, every endpoint and every map give a
    request: the parsed base URL under the joined path, with the encoded
    query of what the base URL carried, the six fields and the caller's
    pairs. *)
Lemma newRequest_base s u method endpoint params :
  url.Parse (BaseUrl s) = ok u -> baseURL u = true ->
  http.validMethod method = true ->
  newRequest s method endpoint params =
    ok (http.mkRequest method
          (url.withQuery (url.withPath u (path.Join [url.Path u; "/rest/"; endpoint]))
                         (url.Encode (query s params (url.Query u))))
          (url.Host u)).
Proof.
  intros Hparse Hbase Hm. unfold newRequest, requestURL. rewrite Hparse.
  rewrite (NewRequest_base method _ Hm).
  2:{ apply baseURL_withPath; [exact Hbase|].
      apply Join_request_rooted, baseURL_rooted, Hbase. }
  reflexivity.
Qed.

Lemma plainURL_baseURL u : plainURL u = true -> baseURL u = true.
Proof.
  unfold plainURL, baseURL. intros Hu.
  repeat match goal with
         | H : _ && _ = true |- _ => apply andb_prop in H as [? ?]
         end.
  match goal with
  | H : String.eqb (url.RawQuery u) "" = true |- _ => apply String.eqb_eq in H; rewrite H
  end.
  repeat match goal with
         | H : ?x = true |- context [?x] => rewrite H
         end.
  reflexivity.
Qed.

Lemma NewRequest_base_URL method u req0 :
  baseURL u = true ->
  http.NewRequest method (url.String u) = ok req0 -> http.URL req0 = u.
Proof.
  intros Hu. unfold http.NewRequest.
  set (m := if String.eqb method "" then "GET" else method).
  destruct (http.validMethod m) eqn:Hm; [|discriminate].
  pose proof (NewRequest_base m u Hm Hu) as H. unfold http.NewRequest in H.
  assert (Hne : String.eqb m "" = false) by (destruct m; [discriminate Hm|reflexivity]).
  rewrite Hne, Hm in H. cbn [negb] in *.
  destruct (url.Parse (url.String u)) as [u0|e]; [|discriminate].
  injection H as E _. intros [= <-]. cbn [http.URL]. exact E.
Qed.

Lemma valuesOf_map_to_list (params : gmap string string) key :
  valuesOf key (map_to_list params) = option_list (params !! key).
Proof.
  destruct (params !! key) as [v|] eqn:E; cbn [option_list].
  - apply valuesOf_unique; [apply NoDup_fst_map_to_list|now apply elem_of_map_to_list].
  - apply valuesOf_absent. intros Hin. apply list_elem_of_fmap in Hin as ([k v] & -> & Hin).
    apply elem_of_map_to_list in Hin. cbn [fst] in E. congruence.
Qed.

Lemma newRequest_base_query s u method endpoint params req key :
  url.Parse (BaseUrl s) = ok u -> baseURL u = true ->
  newRequest s method endpoint params = ok req ->
  valuesAt (url.Query (http.URL req)) key =
    (valuesAt (url.Query u) key ++ valuesOf key (mandated s)
     ++ option_list (params !! key))%list.
Proof.
  intros Hparse Hbase Hreq.
  destruct (newRequest_query _ _ _ _ _ Hreq) as (u' & req0 & Hu' & Hreq0 & Hq).
  unfold requestURL in Hu'. rewrite Hparse in Hu'. injection Hu' as <-.
  rewrite Hq, valuesOf_map_to_list.
  rewrite (NewRequest_base_URL _ _ _ (baseURL_withPath _ _ Hbase
             (Join_request_rooted _ _ (baseURL_rooted _ Hbase))) Hreq0).
  reflexivity.
Qed.

(** X9: with a base URL that is absolute, has an authority and no
    fragment, and a valid method, [Request] builds a request for every
    endpoint and every map of parameters, whatever bytes they hold: the
    path is the join of the base path, [/rest/] and the endpoint and
    starts with a slash, and what [Request] returns is what the
    transport returns for that request.  No endpoint and no parameter
    makes [Request] fail by itself. *)
Theorem request_built_for_every_endpoint p c u method endpoint params :
  Client' (self p) = Some c ->
  url.Parse (BaseUrl (self p)) = ok u -> baseURL u = true ->
  http.validMethod method = true ->
  exists req,
    newRequest (self p) method endpoint params = ok req
    /\ http.Method req = method
    /\ http.Host req = url.Host u
    /\ url.Scheme (http.URL req) = url.Scheme u
    /\ url.Host (http.URL req) = url.Host u
    /\ url.Path (http.URL req) = path.Join [url.Path u; "/rest/"; endpoint]
    /\ rootedOrEmpty (url.Path (http.URL req)) = true
    /\ fst (Request method endpoint params p)
       = Returns (match http.Do c req with
                  | inl response => (Some response, None)
                  | inr err => (None, Some err)
                  end).
Proof.
  intros Hc Hparse Hbase Hm.
  eexists. split; [apply (newRequest_base _ u); assumption|].
  cbn [http.Method http.Host http.URL url.withQuery url.withPath url.Scheme url.Host url.Path].
  do 5 (split; [reflexivity|]).
  split; [apply Join_request_rooted, baseURL_rooted, Hbase|].
  rewrite Request_run, (newRequest_base _ u), Hc by assumption.
  destruct (http.Do c _); reflexivity.
Qed.

Lemma request_built_for_every_endpoint_witness :
  exists req,
    newRequest (self (started (Some refusing))) "POST" "../a b//?#%zz/" sampleParams = ok req
    /\ http.Method req = "POST"
    /\ http.Host req = "host"
    /\ url.Scheme (http.URL req) = "http"
    /\ url.Host (http.URL req) = "host"
    /\ url.Path (http.URL req) = path.Join ["/music"; "/rest/"; "../a b//?#%zz/"]
    /\ rootedOrEmpty (url.Path (http.URL req)) = true
    /\ fst (Request "POST" "../a b//?#%zz/" sampleParams (started (Some refusing)))
       = Returns (match http.Do refusing req with
                  | inl response => (Some response, None)
                  | inr err => (None, Some err)
                  end).
Proof.
  apply (request_built_for_every_endpoint (started (Some refusing)) refusing
           (url.mkURL "http" "" "host" "/music" false "" "" false)
           "POST" "../a b//?#%zz/" sampleParams).
  - reflexivity.
  - vm_compute; reflexivity.
  - vm_compute; reflexivity.
  - vm_compute; reflexivity.
Defined.

(** X10: with a plain base URL, which has no query of its own, the
    query of a request holds nothing but the six protocol fields and
    the caller's pairs: a protocol key has exactly the protocol's
    value, followed by the caller's when the map has the key; any other
    key has exactly the caller's value when the map has it and no value
    otherwise. *)
Theorem request_query_exact s u method endpoint params req :
  url.Parse (BaseUrl s) = ok u -> plainURL u = true ->
  newRequest s method endpoint params = ok req ->
  (forall key mine,
      (key, mine) ∈ mandated s ->
      valuesAt (url.Query (http.URL req)) key = mine :: option_list (params !! key))
  /\ (forall key,
        key ∉ protocolKeys ->
        valuesAt (url.Query (http.URL req)) key = option_list (params !! key)).
Proof.
  intros Hparse Hplain Hreq.
  assert (Hq : forall key,
            valuesAt (url.Query (http.URL req)) key
            = (valuesOf key (mandated s) ++ option_list (params !! key))%list).
  { intros key.
    rewrite (newRequest_base_query s u method endpoint params req key Hparse
               (plainURL_baseURL u Hplain) Hreq).
    rewrite (plainURL_query u Hplain). reflexivity. }
  split.
  - intros key mine Hin. rewrite Hq.
    rewrite (valuesOf_unique key mine (mandated s)) by (apply mandated_keys || assumption).
    reflexivity.
  - intros key Hout. rewrite Hq. rewrite valuesOf_absent; [reflexivity|exact Hout].
Qed.

Lemma request_query_exact_witness :
  exists req,
    newRequest (session None) "GET" "getAlbum" sampleParams = ok req
    /\ (forall key mine,
          (key, mine) ∈ mandated (session None) ->
          valuesAt (url.Query (http.URL req)) key = mine :: option_list (sampleParams !! key))
    /\ (forall key,
          key ∉ protocolKeys ->
          valuesAt (url.Query (http.URL req)) key = option_list (sampleParams !! key)).
Proof.
  eexists. split; [vm_compute; reflexivity|].
  apply (request_query_exact (session None)
           (url.mkURL "http" "" "host" "/music" false "" "" false)
           "GET" "getAlbum" sampleParams).
  - vm_compute; reflexivity.
  - vm_compute; reflexivity.
  - vm_compute; reflexivity.
Defined.

(** X11: the parameters of the base URL's own query stay in every
    request and come first: each key has the values the base URL gave
    it, then the protocol's, then the caller's.  So a reader of the
    first value of a key, as [Values.Get] is, finds the base URL's
    value whenever the base URL has one, also for the six protocol
    keys. *)
Theorem base_query_comes_first s u method endpoint params req key :
  url.Parse (BaseUrl s) = ok u -> baseURL u = true ->
  newRequest s method endpoint params = ok req ->
  valuesAt (url.Query (http.URL req)) key =
    (valuesAt (url.Query u) key ++ valuesOf key (mandated s)
     ++ option_list (params !! key))%list
  /\ (valuesAt (url.Query u) key <> [] ->
      url.Get (url.Query (http.URL req)) key = url.Get (url.Query u) key).
Proof.
  intros Hparse Hbase Hreq.
  pose proof (newRequest_base_query s u method endpoint params req key Hparse Hbase Hreq)
    as Hq.
  split; [exact Hq|].
  unfold url.Get, valuesAt in *.
  destruct (url.Query u !! key) as [[|x xs]|]; cbn [default]; try done.
  intros _. destruct (url.Query (http.URL req) !! key) as [[|y ys]|];
    simpl in Hq; congruence.
Qed.

Lemma base_query_comes_first_witness :
  exists req,
    newRequest shadowed "GET" "ping" ∅ = ok req
    /\ valuesAt (url.Query (http.URL req)) "u" = ["admin"; "alice"]
    /\ url.Get (url.Query (http.URL req)) "u" = "admin".
Proof.
  eexists.
  assert (H : newRequest shadowed "GET" "ping" ∅ = ok _) by (vm_compute; reflexivity).
  split; [exact H|].
  destruct (base_query_comes_first shadowed
              (url.mkURL "http" "" "host" "/music" false "u=admin&x=1" "" false)
              "GET" "ping" ∅ _ "u" ltac:(vm_compute; reflexivity)
              ltac:(vm_compute; reflexivity) H) as [Hq Hget].
  split; [rewrite Hq; vm_compute; reflexivity|].
  rewrite Hget; [vm_compute; reflexivity|]. vm_compute. discriminate.
Defined.

(** X12: the order in which [range] visits the caller's map does not
    show in the request: adding the caller's pairs in any order after
    the six protocol fields gives the query string of the request. *)
Theorem request_query_order_free s method endpoint params req visited :
  newRequest s method endpoint params = ok req ->
  visited ≡ₚ map_to_list params ->
  exists u req0,
    requestURL s endpoint = ok u
    /\ http.NewRequest method (url.String u) = ok req0
    /\ url.RawQuery (http.URL req)
       = url.Encode (addAll visited (addAll (mandated s) (url.Query (http.URL req0)))).
Proof.
  unfold newRequest. intros Hreq Hperm.
  destruct (requestURL s endpoint) as [u|err]; [|discriminate].
  destruct (http.NewRequest method (url.String u)) as [req0|err] eqn:Hreq0; [|discriminate].
  injection Hreq as <-. exists u, req0. split; [reflexivity|]. split; [exact Hreq0|].
  cbn [withRawQuery http.URL url.withQuery url.RawQuery].
  rewrite <- (query_any_order s params _ visited Hperm).
  unfold addAll. now rewrite fold_left_app.
Qed.

Lemma request_query_order_free_witness :
  exists req u req0,
    newRequest (session None) "GET" "getAlbum" sampleParams = ok req
    /\ requestURL (session None) "getAlbum" = ok u
    /\ http.NewRequest "GET" (url.String u) = ok req0
    /\ url.RawQuery (http.URL req)
       = url.Encode (addAll [("f", "xml"); ("id", "a b&c")]
                            (addAll (mandated (session None)) (url.Query (http.URL req0)))).
Proof.
  eexists.
  assert (H : newRequest (session None) "GET" "getAlbum" sampleParams = ok _)
    by (vm_compute; reflexivity).
  destruct (request_query_order_free (session None) "GET" "getAlbum" sampleParams _
              [("f", "xml"); ("id", "a b&c")] H) as (u & req0 & Hres).
  - replace (map_to_list sampleParams) with [("id", "a b&c"); ("f", "xml")]
      by (vm_compute; reflexivity).
    apply perm_swap.
  - exists u, req0. split; [exact H|exact Hres].
Defined.

Lemma Join_empty_endpoint bs (trailing : bool) :
  forallb plainSegment bs = true ->
  path.Join [rootedPath bs +:+ (if trailing then "/" else ""); "/rest/"; ""]
  = rootedPath bs +:+ "/rest".
Proof.
  intros Hbs.
  assert (Hres : rootedPath bs +:+ "/rest" = rootedPath (bs ++ ["rest"])).
  { rewrite rootedPath_app. reflexivity. }
  assert (Hlist : forall input t,
            list_ascii_of_string input
            = (spaced (map (fun seg => (O, list_ascii_of_string seg)) bs
                       ++ [(t, list_ascii_of_string "rest")])
               ++ repeat "/"%char 2)%list ->
            path.Clean input = rootedPath (bs ++ ["rest"])).
  { intros input t E.
    rewrite <- (string_of_list_ascii_of_string input), E.
    pose proof (plainSegments_list bs Hbs) as Hp.
    assert (Hrest : plainList (list_ascii_of_string "rest")).
    { apply plainSegment_list. reflexivity. }
    rewrite <- rootedPath_glued, map_app. cbn [map].
    destruct bs as [|b bs].
    - cbn [map app]. rewrite Clean_spaced; [reflexivity|assumption|constructor|eauto].
    - cbn [map app] in *. inversion Hp as [|? ? Hb Hbs']; subst.
      rewrite Clean_spaced; [| assumption | | eauto].
      + cbn [map snd]. rewrite map_app, map_map. reflexivity.
      + apply Forall_app. split.
        * clear -Hbs'. induction bs as [|b' bs IH]; [constructor|].
          cbn [map] in *. inversion Hbs'; subst. constructor; auto.
        * constructor; [assumption|constructor]. }
  rewrite Hres. cbn [path.Join path.join_slash].
  destruct bs as [|b bs]; [destruct trailing|].
  - replace (String.eqb (rootedPath [] +:+ "/") "") with false by reflexivity.
    apply (Hlist _ 2%nat). cbn. reflexivity.
  - replace (String.eqb (rootedPath [] +:+ "") "") with true by reflexivity.
    replace (String.eqb "/rest/" "") with false by reflexivity.
    apply (Hlist _ O). cbn. reflexivity.
  - replace (String.eqb (rootedPath (b :: bs) +:+ (if trailing then "/" else "")) "")
      with false by reflexivity.
    apply (Hlist _ (if trailing then 2%nat else 1%nat)).
    rewrite spaced_app, <- (map_map list_ascii_of_string (fun seg => (O, seg))).
    rewrite spaced_single, !list_ascii_app, !rootedPath_list.
    destruct trailing; cbn; rewrite <- !app_assoc; reflexivity.
Qed.

(** X13: the empty endpoint.  When the base URL parses to a rooted path
    of plain elements, with or without a final slash, the URL built for
    the empty endpoint has that base path followed by [/rest], without a
    final slash, and is otherwise the parsed base URL. *)
Theorem empty_endpoint_path s u bs (trailing : bool) :
  url.Parse (BaseUrl s) = ok u ->
  url.Path u = rootedPath bs +:+ (if trailing then "/" else "") ->
  forallb plainSegment bs = true ->
  requestURL s "" = ok (url.withPath u (rootedPath bs +:+ "/rest")).
Proof.
  intros Hparse Hpath Hbs. unfold requestURL.
  rewrite Hparse, Hpath, Join_empty_endpoint by assumption. reflexivity.
Qed.

Lemma empty_endpoint_path_witness :
  requestURL (session None) ""
  = ok (url.withPath (url.mkURL "http" "" "host" "/music" false "" "" false)
                     (rootedPath ["music"] +:+ "/rest")).
Proof.
  apply (empty_endpoint_path (session None)
           (url.mkURL "http" "" "host" "/music" false "" "" false) ["music"] false).
  - vm_compute; reflexivity.
  - reflexivity.
  - reflexivity.
Defined.

(** X14: a base URL that does not parse makes every call fail the same
    way, before the transport is consulted and also when the transport
    handle is nil: [Request] and [Get] return the error of [url.Parse],
    [Ping] returns false and logs it, and [Authenticate] returns its
    fixed error after logging it.  None of them panics. *)
Theorem unparsable_base_url p err :
  url.Parse (BaseUrl (self p)) = fail err ->
  (forall method endpoint params,
      Request method endpoint params p = (Returns (None, Some err), p))
  /\ (forall endpoint params, Get endpoint params p = (Returns (None, Some err), p))
  /\ Ping p = (Returns false, logging p err)
  /\ (forall password,
        fst (Authenticate password p)
        = Returns (Some (errorString "Authentication failed"))
        /\ logged (snd (Authenticate password p)) = (logged p ++ [errText err])%list).
Proof.
  intros Hparse.
  assert (HR : forall q method endpoint params,
            BaseUrl (self q) = BaseUrl (self p) ->
            Request method endpoint params q = (Returns (None, Some err), q)).
  { intros q method endpoint params E. rewrite Request_run.
    unfold newRequest, requestURL. rewrite E, Hparse. reflexivity. }
  split; [intros; now apply HR|].
  split; [intros; rewrite Get_run, HR; reflexivity|].
  split; [rewrite Ping_run, HR; reflexivity|].
  intros password. rewrite Authenticate_run, Ping_run, HR by reflexivity.
  split; reflexivity.
Qed.

Lemma unparsable_base_url_witness :
  (forall method endpoint params,
      Request method endpoint params (unparsable None)
      = (Returns (None, Some (url_Error "parse" "missing protocol scheme")), unparsable None))
  /\ (forall endpoint params,
        Get endpoint params (unparsable None)
        = (Returns (None, Some (url_Error "parse" "missing protocol scheme")),
           unparsable None))
  /\ Ping (unparsable None)
     = (Returns false,
        logging (unparsable None) (url_Error "parse" "missing protocol scheme"))
  /\ (forall password,
        fst (Authenticate password (unparsable None))
        = Returns (Some (errorString "Authentication failed"))
        /\ logged (snd (Authenticate password (unparsable None)))
           = (logged (unparsable None)
              ++ [errText (url_Error "parse" "missing protocol scheme")])%list).
Proof.
  apply (unparsable_base_url (unparsable None)
           (url_Error "parse" "missing protocol scheme")).
  vm_compute. reflexivity.
Defined.

(** X15: the method.  An empty method is sent as [GET].  A method that
    is not empty and holds a byte that is no token byte makes [Request]
    return an error, without panic and without a call of the transport,
    whatever the base URL and also when the transport handle is nil. *)
Theorem Request_checks_the_method method endpoint params p :
  Request "" endpoint params p = Request "GET" endpoint params p
  /\ (method <> "" -> http.validMethod method = false ->
      exists err, Request method endpoint params p = (Returns (None, Some err), p)).
Proof.
  split; [reflexivity|].
  intros Hne Hm. rewrite Request_run. unfold newRequest, http.NewRequest.
  destruct (requestURL (self p) endpoint) as [u|err]; [|eauto].
  destruct (String.eqb_spec method "") as [->|_]; [done|].
  rewrite Hm. cbn [negb]. eauto.
Qed.

Lemma Request_checks_the_method_witness :
  Request "" "ping" ∅ (started None) = Request "GET" "ping" ∅ (started None)
  /\ exists err,
       Request "GE T" "ping" ∅ (started None) = (Returns (None, Some err), started None).
Proof.
  destruct (Request_checks_the_method "GE T" "ping" ∅ (started None)) as [Hempty Hbad].
  split; [exact Hempty|]. apply Hbad; [discriminate|reflexivity].
Defined.

(** X16: [Get] returns an envelope exactly when [Request] returned a
    response whose body was read without error and decoded without
    error into an envelope that holds no error record.  The status
    field plays no part: an envelope that reports a failure and holds
    no error record is returned as a success. *)
Theorem Get_success_iff endpoint params p resp :
  fst (Get endpoint params p) = Returns (Some resp, None)
  <-> exists response parsed,
        fst (Request "GET" endpoint params p) = Returns (Some response, None)
        /\ http.readErr (http.body response) = None
        /\ json_Unmarshal (http.data (http.body response)) (mkApiResponse None) = ok parsed
        /\ Response parsed = Some resp
        /\ Error resp = None.
Proof.
  rewrite Get_run. split.
  - destruct (fst (Request "GET" endpoint params p)) as [[[response|] [err|]]|why];
      cbn [fst]; try discriminate.
    destruct (http.readErr (http.body response)) eqn:Hread; [discriminate|].
    destruct (json_Unmarshal _ _) as [parsed|e] eqn:Hparsed; [|discriminate].
    destruct (Response parsed) as [r|] eqn:Hresp; [|discriminate].
    destruct (Error r) eqn:Herr; [discriminate|].
    intros [= <-]. exists response, parsed. auto.
  - intros (response & parsed & -> & -> & -> & -> & ->). reflexivity.
Qed.

Lemma Get_success_iff_witness :
  fst (Get "ping" ∅ (started (Some (answering failedWithoutError))))
  = Returns (Some (mkSubsonicResponse "failed" "1.16.1" None []), None).
Proof.
  apply (Get_success_iff "ping" ∅ (started (Some (answering failedWithoutError)))).
  exists (http.mkResponse 200 (http.mkBody failedWithoutError None)).
  exists (mkApiResponse (Some (mkSubsonicResponse "failed" "1.16.1" None []))).
  split; [vm_compute; reflexivity|].
  split; [reflexivity|].
  split; [vm_compute; reflexivity|].
  split; reflexivity.
Defined.

(** ** A nil transport handle *)

(** X17: a client whose transport handle is nil.  With a base URL that
    is absolute, has an authority and no fragment, every call reaches
    the transport and panics there on the nil handle: [Request] under
    any valid method, [Get], [Ping], [GetLicense], and [Authenticate],
    which has by then stored the new salt and token. *)
Theorem nil_transport_panics p u :
  Client' (self p) = None ->
  url.Parse (BaseUrl (self p)) = ok u -> baseURL u = true ->
  (forall method endpoint params,
      http.validMethod method = true ->
      fst (Request method endpoint params p) = Panics nilDeref)
  /\ (forall endpoint params, fst (Get endpoint params p) = Panics nilDeref)
  /\ fst (Ping p) = Panics nilDeref
  /\ (forall (L : Type) (field : subsonicResponse -> option L),
        fst (GetLicense L field p) = Panics nilDeref)
  /\ (forall password,
        fst (Authenticate password p) = Panics nilDeref
        /\ fst (generateSalt p) = Returns (salt (self (snd (Authenticate password p))))).
Proof.
  intros Hc Hparse Hbase.
  assert (HR : forall q method endpoint params,
            Client' (self q) = None -> BaseUrl (self q) = BaseUrl (self p) ->
            http.validMethod method = true ->
            fst (Request method endpoint params q) = Panics nilDeref).
  { intros q method endpoint params Hq E Hm. rewrite Request_run.
    rewrite (newRequest_base (self q) u) by (rewrite ?E; assumption).
    rewrite Hq. reflexivity. }
  assert (HG : forall endpoint params, fst (Get endpoint params p) = Panics nilDeref).
  { intros. rewrite Get_run, HR by auto. reflexivity. }
  split; [intros; now apply HR|].
  split; [exact HG|].
  split; [rewrite Ping_run, HR by auto; reflexivity|].
  split.
  { intros L field. unfold GetLicense, bind.
    specialize (HG "getLicense" ∅).
    destruct (Get "getLicense" ∅ p) as [[r|why] q]; cbn [fst] in *; congruence. }
  intros password. rewrite Authenticate_run, Ping_run, HR by auto.
  split; [reflexivity|]. cbn [snd derived self salt].
  unfold generateSalt. now rewrite fill_run.
Qed.

Lemma nil_transport_panics_witness :
  (forall method endpoint params,
      http.validMethod method = true ->
      fst (Request method endpoint params (started None)) = Panics nilDeref)
  /\ (forall endpoint params, fst (Get endpoint params (started None)) = Panics nilDeref)
  /\ fst (Ping (started None)) = Panics nilDeref
  /\ (forall (L : Type) (field : subsonicResponse -> option L),
        fst (GetLicense L field (started None)) = Panics nilDeref)
  /\ (forall password,
        fst (Authenticate password (started None)) = Panics nilDeref
        /\ fst (generateSalt (started None))
           = Returns (salt (self (snd (Authenticate password (started None)))))).
Proof.
  apply (nil_transport_panics (started None)
           (url.mkURL "http" "" "host" "/music" false "" "" false)).
  - reflexivity.
  - vm_compute; reflexivity.
  - vm_compute; reflexivity.
Defined.
